(* ===== verification/_CoqProject ===== *)
-Q . S2P
Prelude.v
JsSort.v
Store.v
DoAnswer.v
Loop.v
FlowSpec.v
Reads.v
Admin.v
Server.v
Frontend.v
App.v
Faults.v
FaultyServer.v
Tests.v
