(* ===== verification/Prelude.v ===== *)
(** * IntelliQ questionnaire backend: a verification development

    The repository (src/api-backend) is an Express + Mongoose REST service
    for questionnaires.  Its parts, and how they interact:

    - the data model (models/questionnaire.js, models/answer.js): a
      questionnaire document holds an ordered list of questions, each with
      an ordered list of options, and each option names the question that
      follows it ([nextqID]); an answer document records
      (questionnaireIDRef, qIDRef, ans, session);
    - the database, reached only through Mongoose queries issued by the
      controllers: two collections kept in insertion order;
    - the operational controller (controllers/operational.js): the read
      endpoints getQuestionnaire, getQuestion, getSessionAnswers,
      getQuestionAnswers, getExportAnswers (each sorts its output with
      Array.prototype.sort and a string [compare] callback) and postAnswer,
      the answer-flow validator that decides whether a session may answer a
      question and then saves the answer;
    - the admin controller (controllers/admin.js): healthcheck,
      questionnaire_upd (bulk insert), resetall and resetq (deletes issued
      without waiting for them, the response is sent first);
    - the routers (routes/*.js, app.js) dispatching a path to a handler,
      with a 404 fallback; server.js starts listening once the database
      connection is up (after reading its TLS files), and Node handles one
      request at a time while any number of database writes are in flight,
      each of which may fail;
    - the React front end (frontend/src/Home.js): a page that fetches a
      questionnaire's answers from exportanswers.

    Files of this development, in dependency order:

    - [Prelude] (this file): the [intelliq_scope] notations, the JavaScript
      helpers the controllers' idioms need (the "last assignment wins"
      [forEach] loop, JS string equality), the [intelliq] hint database,
      the tactics and the generic list lemmas the components share.
    - [JsSort]: JavaScript's relational [<] on strings and on possibly
      undefined fields, the three-way [compare] callbacks of the
      controllers, and [Array.prototype.sort] with a comparator modelled as
      a stable insertion sort; sortedness, permutation and stability.
    - [Store]: the Mongoose schemas as records, the database state, and
      every query filter the controllers issue, as executable filters over
      the collections in insertion order.
    - [DoAnswer]: postAnswer, split as the code is into the existence
      check, the first-answer branch (its [for] loop over required flags,
      translated with fuel equal to its exact iteration count) and the
      subsequent-answer branch (predecessor lookup, the session's answer to
      it, the final option query), composed into [decide_answer] (the reads)
      and [post_answer] (the reads and the save).
    - [Loop]: the same [for] loop as written, its counters [i] and [j] as
      JavaScript numbers, defined by well-founded recursion on
      [questionsNumber - i] (Equations).
    - [FlowSpec]: the specification's answer rules ([spec_decide]) and
      the walk invariant of the flow graph; postAnswer refines the rules on
      a store with one document per id and no question with two
      predecessors, keeps every session's answers a walk when option ids
      are unique, and the counterexamples outside these conditions.
    - [Reads]: getQuestionnaire, getQuestion, getSessionAnswers,
      getQuestionAnswers, getExportAnswers with their JSON and CSV records,
      402 paths and sorts.
    - [Admin]: every write as a [DbOp] applied by [apply_op], a handler's
      result as an [Outcome] (respond now and leave writes running, respond
      once a write completes, or never respond); healthcheck over the
      connection's [readyState], questionnaire_upd with the schema
      validation of [insertMany], resetall and resetq.
    - [Server]: Express routing (both routers in registration order,
      case-insensitive literals, one optional trailing slash, the 404
      fallback) and the server as a step relation: handle a request at the
      current state, complete any write in flight, change the connection
      state.  [serve] is the sequential reading of a handler.
    - [Frontend]: the export page of frontend/src/Home.js, its state, its
      fetch answered by [Server.handle], its two download buttons and the
      rows of the CSV file, and the page over time ([page_step]): clicks,
      typing and fetches settling in any order.
    - [App]: the middleware chain of app.js in front of [Server.handle]:
      the CORS headers, [multer.single('file')] with its disk storage, the
      path the upload handler [require]s and the loader [require] picks by
      its extension and Node's module cache, over the state the process
      keeps between requests (the disk and that cache) and its working
      directory.
    - [Faults]: postAnswer over a store whose calls may be rejected, with
      the caught and unhandled rejections the promise nesting gives.
    - [FaultyServer]: every handler over a failing store ([handle_io]:
      the [.catch] of each read, of resetq's find and of postAnswer's
      chain) and the server step relation [fstep] with one more step, a
      write in flight rejected ([fail_write]: nothing written, the request
      waiting for it answered by the write's [.catch]); the start-up of
      server.js ([boot]: TLS files, connection, listening).
    - [Tests]: the Mocha suites of api-backend/test/, their fixtures and
      expectations, replayed on the model from URLs through routing.

    The theorems, by group: postAnswer's decision equals the specification's
    rules on one document without shared predecessors, and the code and the
    rules part where a question has several predecessors or questions share
    option ids (FlowSpec); the behaviour of postAnswer on each branch, its
    errors, and the TypeError two documents under one id cause (DoAnswer);
    termination of the [for] loop, its agreement with the fuel model and its
    indices in range (Loop); the compare callbacks are consistent
    comparators, and the stand-in for Array.prototype.sort is sorted, stable
    and equal to any stable sort (JsSort); the round trip from postAnswer to
    getSessionAnswers and the outputs of the reads (Reads); the admin
    handlers (Admin); a response for every request but postAnswer's
    TypeError, submissions sent one at a time storing exactly what the
    specification's control flow stores, concurrent submissions of different
    sessions serializable while two concurrent first answers of one session
    are both saved and break the walk invariant, every request answered over
    the old store between resetall's response and its deletes, and, as
    lemmas of the state machine, at most one response per request and the
    completion of every pending write (Server); the error messages of the
    export page and the files it saves, two downloads in flight racing, and
    whatever the user does, every file saved a whole export (Frontend); the
    uploaded file is read back exactly when the server runs beside
    src/api-backend, the upload's error paths, an upload not named *.json
    run by the server as JavaScript, and the disk and require's module cache
    never releasing an upload, a cached path giving stale documents (App);
    the caught and unhandled rejections of postAnswer's calls (Faults); the
    walk invariant kept by submissions whichever of their calls fail, a
    failing call degrading a handler to 500, or, for postAnswer only, to no
    response, resetall and resetq reporting 200 "OK" when their deletes
    fail, and with the store out of reach one response for every request, a
    500 but for resetall, 404 and an upload without a file (FaultyServer).
    The repository's test suites are replayed on the model (Tests, a lemma).

    Fuel: [required_loop] runs with fuel [questionsNumber - 1], the exact
    number of iterations of the [for] loop it translates ([i] from 1 while
    [i < questionsNumber]), so fuel never runs out before the loop ends;
    [Loop.required_loop_is_for_loop] proves it against the loop defined
    without fuel.
    No other definition needs fuel: every other loop of the code is a
    [forEach] or [map] over a list and is structural.

    What is not modelled: HTTP parsing, the CSV text rendering of
    csv-express, the byte-level JSON parse of an upload (a file is valid
    documents or not JSON), the bytes of the TLS files and the HTTPS
    handshake, the React front end's rendering and the bytes of the files it
    saves (their rows and data are modelled), the contents of the two JSON
    files the questionnaire_upd tests upload (they are not in the
    repository; the tests are replayed for any contents of their kind). The
    reads of one handler are taken as one snapshot of the store. The causes
    of database failures are not modelled (which calls and writes fail is
    chosen freely, [FaultyServer]); Mongoose's buffering of calls while the
    connection is not open is taken by its two ends: a connection that comes
    in time lets the calls through, and one that does not makes every call
    and write fail ([FaultyServer.unreachable]); the wait itself is not
    modelled. Strings are Rocq strings of 8-bit characters: JavaScript
    compares strings by UTF-16 code units, which agrees for the ASCII
    identifiers the service uses. The URL of the export page's fetch is
    split at '/', '\', '?' and '#'; what the URL parser and Express do to
    other ids (dot segments resolved, '%' escapes decoded, whitespace
    stripped) is not modelled, and the theorems on the page assume an id of
    plain characters ([Frontend.plain_id]). A failing disk write of multer
    (a missing ../data directory, for instance) is not modelled:
    [App.fs_write] always succeeds. A fetch of the export page that rejects
    (no server listening, a TLS error) is not an outcome of
    [Frontend.Backend]; the page's [catch] would show its message. A request
    left without a response leaves an unhandled promise rejection; from Node
    15 on that ends the process, which the model does not follow (the server
    keeps serving). *)

From Stdlib Require Import String.
From stdpp Require Export base list strings.

Declare Scope intelliq_scope.
Delimit Scope intelliq_scope with iq.
Open Scope intelliq_scope.

(** JavaScript [==] between two strings is character-wise equality. *)
Definition js_streq (a b : string) : bool := String.eqb a b.
Notation "a ==s b" := (js_streq a b) (at level 70, no associativity) : intelliq_scope.
Arguments js_streq : simpl never.

Lemma js_streq_spec a b : reflect (a = b) (a ==s b).
Proof. unfold js_streq. apply String.eqb_spec. Qed.

Lemma js_streq_refl a : (a ==s a) = true.
Proof. unfold js_streq. apply String.eqb_refl. Qed.

Lemma js_streq_true a b : (a ==s b) = true <-> a = b.
Proof. unfold js_streq. apply String.eqb_eq. Qed.

Lemma js_streq_false a b : (a ==s b) = false <-> a <> b.
Proof. unfold js_streq. apply String.eqb_neq. Qed.

Lemma js_streq_sym a b : (a ==s b) = (b ==s a).
Proof. unfold js_streq. apply String.eqb_sym. Qed.

(** The controllers read a value out of every element of a Mongoose result
    with [result.forEach(r => { x = f(r) })]: the variable keeps its
    previous value when the result is empty and the last element's value
    otherwise.  Reading a property of [undefined] inside [f] throws a
    TypeError, modelled by [None]. *)
Fixpoint forEach_assign {A B} (f : A -> option B) (l : list A) (cur : B) : option B :=
  match l with
  | [] => Some cur
  | x :: l' => v ← f x; forEach_assign f l' v
  end.

(** [s] cut at every occurrence of [c]. *)
Fixpoint split_on (c : Ascii.ascii) (s : string) : list string :=
  match s with
  | EmptyString => [""]
  | String d s' =>
      if Ascii.eqb d c then "" :: split_on c s'
      else match split_on c s' with
           | seg :: rest => String d seg :: rest
           | [] => [String d ""]
           end
  end.

Create HintDb intelliq.
Create Rewrite HintDb intelliq_rw.

(** Case analysis on a JavaScript string comparison in the goal. *)
Ltac case_streq a b :=
  let E := fresh "E" in
  destruct (js_streq_spec a b) as [E|E]; [subst|].

Ltac invc H := inversion H; subst; clear H.

(** Split the goal on every JavaScript string comparison it contains,
    reusing a comparison already decided in the context. *)
Ltac streq_cases :=
  repeat (match goal with
          | H : (?a ==s ?b) = _ |- context [?a ==s ?b] => rewrite H
          | |- context [?a ==s ?b] => let E := fresh "E" in destruct (a ==s b) eqn:E
          end; simpl).

(** The last element of a non-empty list does not depend on the default. *)
Lemma default_last_cons {A} (d1 d2 y : A) l :
  default d1 (last (y :: l)) = default d2 (last (y :: l)).
Proof. revert y. induction l as [|z l IH]; intros y; [done|]. apply (IH z). Qed.

Lemma forEach_assign_total {A B} (f : A -> option B) (g : A -> B) l cur :
  (forall x, In x l -> f x = Some (g x)) ->
  forEach_assign f l cur = Some (default cur (last (map g l))).
Proof.
  revert cur. induction l as [|x l IH]; intros cur Hf; [done|].
  simpl. rewrite (Hf x) by (left; done). simpl.
  rewrite IH by (intros y Hy; apply Hf; right; exact Hy).
  destruct l; [done|]. simpl. f_equal. apply default_last_cons.
Qed.

Lemma forEach_assign_throw {A B} (f : A -> option B) l cur x :
  In x l -> f x = None -> forEach_assign f l cur = None.
Proof.
  revert cur. induction l as [|y l IH]; intros cur Hin Hf; [done|].
  simpl. destruct (f y) as [v|] eqn:Ey; [|done].
  simpl. destruct Hin as [->|Hin]; [congruence|auto].
Qed.

Lemma forEach_assign_singleton {A B} (f : A -> option B) x cur :
  forEach_assign f [x] cur = f x.
Proof. simpl. by destruct (f x). Qed.

(** [l.forEach(x => v = g(x))] with a [v] that starts [undefined]. *)
Lemma forEach_assign_ext {A B} (f g : A -> option B) l cur :
  (forall x, f x = g x) -> forEach_assign f l cur = forEach_assign g l cur.
Proof.
  intros Hfg. revert cur. induction l as [|x l IH]; intros cur; [done|].
  simpl. rewrite Hfg. destruct (g x); simpl; [apply IH|done].
Qed.

Lemma forEach_assign_last {A B} (g : A -> B) l (cur : option B) :
  forEach_assign (fun x => Some (Some (g x))) l cur =
  Some (match last (map g l) with Some v => Some v | None => cur end).
Proof.
  revert cur. induction l as [|x l IH]; intros cur; [done|].
  cbn [forEach_assign map]. simpl. rewrite IH, last_cons.
  by destruct (last (map g l)).
Qed.

(** ** Lists filtered by boolean predicates *)

Lemma filter_andb {A} (k p : A -> bool) l :
  List.filter (fun x => k x && p x) l = List.filter p (List.filter k l).
Proof.
  induction l as [|x l IH]; [done|]. simpl.
  destruct (k x); simpl; [destruct (p x)|]; rewrite IH; done.
Qed.

(** A filter refined from a filter with a single result. *)
Lemma filter_andb_sole {A} (k p : A -> bool) l d :
  List.filter k l = [d] ->
  List.filter (fun x => k x && p x) l = if p d then [d] else [].
Proof. intros H. rewrite filter_andb, H. simpl. by destruct (p d). Qed.

Lemma in_le1_eq {A} (l : list A) x y :
  length l <= 1 -> In x l -> In y l -> x = y.
Proof.
  destruct l as [|a [|b l]]; simpl; intros Hl Hx Hy; try lia; try done.
  destruct Hx as [<-|[]], Hy as [<-|[]]; done.
Qed.

(** When at most one element satisfies [p], a search for an element
    satisfying a stronger [f] only has to look at that element. *)
Lemma existsb_single_witness {A} (p f : A -> bool) l x :
  (forall y, f y = true -> p y = true) ->
  length (List.filter p l) <= 1 -> In x l -> p x = true ->
  existsb f l = f x.
Proof.
  intros Hfp Hlen Hx Hpx. destruct (f x) eqn:Efx.
  - apply existsb_exists. eauto.
  - apply not_true_iff_false. intros [y [Hy Hfy]]%existsb_exists.
    assert (y = x) as ->; [|congruence].
    apply (in_le1_eq _ _ _ Hlen); apply filter_In; auto.
Qed.

Lemma existsb_andb_false_l {A} (p f : A -> bool) l :
  existsb p l = false -> existsb (fun x => p x && f x) l = false.
Proof.
  induction l as [|x l IH]; simpl; [done|].
  intros [-> Hl]%orb_false_iff. simpl. auto.
Qed.

Lemma last_map_cons_Some {A B} (g : A -> B) x l :
  exists v, last (map g (x :: l)) = Some v.
Proof. cbn [map]. rewrite last_cons. destruct (last (map g l)); eauto. Qed.

(** Some element among the first [n] satisfies [f]. *)
Lemma existsb_take_lookup {A} (f : A -> bool) n l :
  existsb f (take n l) = true <-> exists k x, k < n /\ l !! k = Some x /\ f x = true.
Proof.
  rewrite existsb_exists. split.
  - intros [x [Hin Hf]]. apply list_elem_of_In, list_elem_of_lookup in Hin as [k Hk].
    apply lookup_take_Some in Hk as [Hk Hlt]. eauto.
  - intros (k & x & Hlt & Hk & Hf). exists x. split; [|done].
    apply list_elem_of_In, list_elem_of_lookup. exists k. by apply lookup_take_Some.
Qed.

Lemma nonempty_cons {A} (l : list A) : l <> [] -> exists a l', l = a :: l'.
Proof. destruct l; [done|eauto]. Qed.

Lemma last_map_In {A B} (f : A -> B) l y :
  last (map f l) = Some y -> exists x, In x l /\ f x = y.
Proof.
  induction l as [|x l IH]; [done|]. cbn [map]. rewrite last_cons.
  destruct (last (map f l)) eqn:E.
  - intros [= <-]. destruct (IH eq_refl) as (x' & ? & ?). exists x'. split; [by right|done].
  - intros [= <-]. exists x. split; [by left|done].
Qed.

(** Two elements of a list with no repeated key and the same key are equal. *)
Lemma NoDup_map_eq {A B} (f : A -> B) l x y :
  NoDup (map f l) -> In x l -> In y l -> f x = f y -> x = y.
Proof.
  induction l as [|z l IH]; [done|]. cbn [map]. intros Hnd Hx Hy Hf.
  apply NoDup_cons in Hnd as [Hz Hnd].
  destruct Hx as [<-|Hx], Hy as [<-|Hy]; [done| | |auto].
  - exfalso. apply Hz, list_elem_of_In, in_map_iff. eauto.
  - exfalso. apply Hz, list_elem_of_In, in_map_iff. eauto.
Qed.

Lemma filter_false_nil {A} (f : A -> bool) l :
  (forall z, In z l -> f z = false) -> List.filter f l = [].
Proof.
  induction l as [|y l IH]; intros H; simpl; [done|].
  rewrite (H y (or_introl eq_refl)). apply IH. intros z Hz. apply H. by right.
Qed.

Lemma filter_cons_true {A} (f : A -> bool) x l :
  f x = true -> List.filter f (x :: l) = x :: List.filter f l.
Proof. intros H. simpl. by rewrite H. Qed.

Lemma filter_cons_false {A} (f : A -> bool) x l :
  f x = false -> List.filter f (x :: l) = List.filter f l.
Proof. intros H. simpl. by rewrite H. Qed.

#[export] Hint Resolve js_streq_refl : intelliq.
#[export] Hint Rewrite js_streq_refl : intelliq_rw.
