(* ===== verification/JsSort.v ===== *)
(** * JsSort: JavaScript string order, the compare callbacks and Array.prototype.sort

    The read endpoints of controllers/operational.js sort their output with
    [array.sort(compare)], where [compare(a, b)] returns -1 when
    [a.k < b.k], 1 when [a.k > b.k] and 0 otherwise, for a string field [k].
    JavaScript's [<] on two strings compares them code unit by code unit,
    a proper prefix being smaller ([js_lt], through [String.compare]); on a
    field that is [undefined] every comparison is false ([js_lt_opt]).
    [Array.prototype.sort] is stable since ECMAScript 2019 and returns a
    permutation sorted by a consistent comparator; it is modelled by an
    insertion sort ([js_sort]) that places each element after every element
    not greater than it.  The theorems show that [js_sort] with a key
    comparator returns a sorted, stable permutation, and that it is the only
    such arrangement, so that the model agrees with every engine that meets
    the language specification. *)

From Stdlib Require Import ZArith Ascii Sorted Permutation.
From S2P Require Import Prelude.

(** [a < b] between two strings. *)
Definition js_lt (a b : string) : bool :=
  match String.compare a b with Lt => true | _ => false end.

(** [a < b] where either operand may be [undefined] (then [NaN] is compared,
    and the comparison is false). *)
Definition js_lt_opt (x y : option string) : bool :=
  match x, y with Some a, Some b => js_lt a b | _, _ => false end.

(** [function compare(a, b) { if (a.k < b.k) return -1;
    if (a.k > b.k) return 1; return 0; }] for the field read by [key]. *)
Definition js_compare {A} (key : A -> option string) (a b : A) : Z :=
  if js_lt_opt (key a) (key b) then (-1)%Z
  else if js_lt_opt (key b) (key a) then 1%Z
  else 0%Z.

(** The callback on a field every element has. *)
Definition js_compare_by {A} (key : A -> string) : A -> A -> Z :=
  js_compare (fun a => Some (key a)).

(** Insert [x] before the first element [y] with [cmp(y, x) > 0]. *)
Fixpoint sort_insert {A} (cmp : A -> A -> Z) (x : A) (l : list A) : list A :=
  match l with
  | [] => [x]
  | y :: l' => if (0 <? cmp y x)%Z then x :: l else y :: sort_insert cmp x l'
  end.

(** [l.sort(cmp)]: the elements inserted one by one, from the first. *)
Definition js_sort {A} (cmp : A -> A -> Z) (l : list A) : list A :=
  fold_left (fun acc x => sort_insert cmp x acc) l [].

(** [a] comes no later than [b] in the order of the key. *)
Definition key_le {A} (key : A -> string) (a b : A) : Prop := js_lt (key b) (key a) = false.

(** The elements whose key is [k], in their order. *)
Definition with_key {A} (key : A -> string) (k : string) (l : list A) : list A :=
  List.filter (fun x => key x ==s k) l.

(** Answers as [{ qID, ans }] pairs, sorted by [qID] in getSessionAnswers. *)
Definition sample_pairs : list (string * string) :=
  [("Q02", "a"); ("Q01", "b"); ("Q02", "c"); ("Q01", "d")].

(** ** The order [<] on strings *)

Lemma string_compare_refl s : String.compare s s = Eq.
Proof.
  induction s as [|c s IH]; [done|]. simpl.
  unfold Ascii.compare. by rewrite N.compare_refl.
Qed.

Lemma string_compare_lt_trans a b c :
  String.compare a b = Lt -> String.compare b c = Lt -> String.compare a c = Lt.
Proof.
  revert b c. induction a as [|x a IH]; intros [|y b] [|z c]; simpl; try done.
  unfold Ascii.compare.
  destruct (N.compare_spec (N_of_ascii x) (N_of_ascii y)),
           (N.compare_spec (N_of_ascii y) (N_of_ascii z)),
           (N.compare_spec (N_of_ascii x) (N_of_ascii z));
    intros; try done; try lia; eauto.
Qed.

Lemma js_lt_irrefl a : js_lt a a = false.
Proof. unfold js_lt. by rewrite string_compare_refl. Qed.

Lemma js_lt_trans a b c : js_lt a b = true -> js_lt b c = true -> js_lt a c = true.
Proof.
  unfold js_lt.
  destruct (String.compare a b) eqn:E1, (String.compare b c) eqn:E2; try done.
  by rewrite (string_compare_lt_trans _ _ _ E1 E2).
Qed.

Lemma js_lt_asym a b : js_lt a b = true -> js_lt b a = false.
Proof.
  unfold js_lt. rewrite (String.compare_antisym b a).
  by destruct (String.compare a b).
Qed.

(** Trichotomy. *)
Lemma js_lt_total a b : js_lt a b = false -> js_lt b a = true \/ a = b.
Proof.
  unfold js_lt. rewrite (String.compare_antisym b a).
  destruct (String.compare a b) eqn:E; simpl; auto.
  intros _. right. by apply String.compare_eq_iff.
Qed.

Lemma js_lt_antisym a b : js_lt a b = false -> js_lt b a = false -> a = b.
Proof. intros H1 H2. destruct (js_lt_total _ _ H1) as [H|H]; congruence. Qed.

#[export] Hint Resolve js_lt_irrefl js_lt_asym : intelliq.

(** ** Sorting by a key *)

Section KeySort.
Context {A : Type} (key : A -> string).

(** [cmp(y, x) > 0] exactly when [x.k < y.k]. *)
Lemma js_compare_by_pos x y : (0 <? js_compare_by key y x)%Z = js_lt (key x) (key y).
Proof.
  unfold js_compare_by, js_compare, js_lt_opt.
  destruct (js_lt (key y) (key x)) eqn:E1, (js_lt (key x) (key y)) eqn:E2; try done.
  by rewrite (js_lt_asym _ _ E1) in E2.
Qed.

Lemma key_le_trans : Transitive (key_le key).
Proof.
  intros a b c Hab Hbc. unfold key_le in *. apply not_true_iff_false. intros Hca.
  destruct (js_lt_total _ _ Hbc) as [Hbc'|Hbc']; [|congruence].
  rewrite (js_lt_trans _ _ _ Hbc' Hca) in Hab. done.
Qed.

Lemma lt_key_le_trans a b c :
  js_lt (key a) (key b) = true -> key_le key b c -> js_lt (key a) (key c) = true.
Proof.
  unfold key_le. intros Hab Hbc.
  destruct (js_lt_total _ _ Hbc) as [Hbc'|Hbc']; [eauto using js_lt_trans|congruence].
Qed.

Lemma sort_insert_Permutation (cmp : A -> A -> Z) x l :
  Permutation (sort_insert cmp x l) (x :: l).
Proof.
  induction l as [|y l IH]; simpl; [done|].
  destruct (0 <? cmp y x)%Z; [done|].
  rewrite IH. apply perm_swap.
Qed.

Lemma sort_insert_sorted x l :
  Sorted (key_le key) l -> Sorted (key_le key) (sort_insert (js_compare_by key) x l).
Proof.
  induction l as [|y l IH]; intros Hs; simpl; [repeat constructor|].
  rewrite js_compare_by_pos. destruct (js_lt (key x) (key y)) eqn:E.
  - constructor; [exact Hs|]. constructor. by apply js_lt_asym.
  - apply Sorted_inv in Hs as [Hs Hhd]. constructor; [by apply IH|].
    destruct l as [|z l]; simpl; [by constructor|].
    rewrite js_compare_by_pos.
    destruct (js_lt (key x) (key z)); constructor; [done|by apply HdRel_inv in Hhd].
Qed.

Lemma fold_insert_Permutation (cmp : A -> A -> Z) l acc :
  Permutation (fold_left (fun acc x => sort_insert cmp x acc) l acc) (l ++ acc).
Proof.
  revert acc. induction l as [|x l IH]; intros acc; [done|]. simpl.
  rewrite IH, sort_insert_Permutation. symmetry. apply Permutation_middle.
Qed.

Lemma fold_insert_sorted l acc :
  Sorted (key_le key) acc ->
  Sorted (key_le key) (fold_left (fun acc x => sort_insert (js_compare_by key) x acc) l acc).
Proof.
  revert acc. induction l as [|x l IH]; intros acc Hs; [done|]. simpl.
  by apply IH, sort_insert_sorted.
Qed.

(** The head of a sorted list is no greater than any of its elements. *)
Lemma sorted_head_le y l z :
  Sorted (key_le key) (y :: l) -> In z (y :: l) -> key_le key y z.
Proof.
  intros Hs Hz. apply Sorted_StronglySorted in Hs; [|exact key_le_trans].
  apply StronglySorted_inv in Hs as [_ Hall].
  destruct Hz as [<-|Hz]; [apply js_lt_irrefl|].
  rewrite List.Forall_forall in Hall. by apply Hall.
Qed.

(** Inserting [x] into a sorted list appends it to the elements of its key:
    the elements after it all have a greater key. *)
Lemma sort_insert_with_key x l k :
  Sorted (key_le key) l ->
  with_key key k (sort_insert (js_compare_by key) x l) =
  with_key key k l ++ (if key x ==s k then [x] else []).
Proof.
  unfold with_key. induction l as [|y l IH]; intros Hs; [simpl; by destruct (key x ==s k)|].
  cbn [sort_insert]. rewrite js_compare_by_pos. destruct (js_lt (key x) (key y)) eqn:E.
  - destruct (key x ==s k) eqn:Ex; [|by rewrite filter_cons_false, app_nil_r].
    rewrite filter_cons_true by done. apply js_streq_true in Ex as <-.
    rewrite (filter_false_nil _ (y :: l)); [done|].
    intros z Hz. apply js_streq_false. intros Hzx.
    assert (js_lt (key x) (key z) = true) as Hlt.
    { destruct Hz as [<-|Hz]; [done|].
      apply (lt_key_le_trans x y z E). apply (sorted_head_le y l z Hs). by right. }
    by rewrite Hzx, js_lt_irrefl in Hlt.
  - apply Sorted_inv in Hs as [Hs' _].
    destruct (key y ==s k) eqn:Ey.
    + rewrite !filter_cons_true by done. by rewrite IH.
    + rewrite !filter_cons_false by done. by rewrite IH.
Qed.

Lemma fold_insert_with_key l acc k :
  Sorted (key_le key) acc ->
  with_key key k (fold_left (fun acc x => sort_insert (js_compare_by key) x acc) l acc) =
  with_key key k acc ++ with_key key k l.
Proof.
  revert acc. induction l as [|x l IH]; intros acc Hs; simpl; [by rewrite app_nil_r|].
  rewrite IH by (by apply sort_insert_sorted).
  rewrite sort_insert_with_key by done. rewrite <- app_assoc.
  unfold with_key at 3. simpl. by destruct (key x ==s k).
Qed.

Lemma in_with_key z k l : In z (with_key key k l) <-> In z l /\ key z = k.
Proof. unfold with_key. rewrite filter_In. by rewrite js_streq_true. Qed.

(** Two sorted lists with the same elements of every key, in the same order,
    are equal. *)
Lemma sorted_with_key_unique l1 l2 :
  Sorted (key_le key) l1 -> Sorted (key_le key) l2 ->
  (forall k, with_key key k l1 = with_key key k l2) -> l1 = l2.
Proof.
  revert l2. induction l1 as [|x l1 IH]; intros [|y l2] Hs1 Hs2 Hk; [done| | |].
  - specialize (Hk (key y)). unfold with_key in Hk. simpl in Hk.
    by rewrite js_streq_refl in Hk.
  - specialize (Hk (key x)). unfold with_key in Hk. simpl in Hk.
    by rewrite js_streq_refl in Hk.
  - assert (key x = key y) as Exy.
    { apply js_lt_antisym.
      - apply (sorted_head_le y l2 x Hs2). apply (in_with_key x (key x)).
        rewrite <- Hk. apply in_with_key. split; [by left|done].
      - apply (sorted_head_le x l1 y Hs1). apply (in_with_key y (key y)).
        rewrite Hk. apply in_with_key. split; [by left|done]. }
    pose proof (Hk (key x)) as Hx. unfold with_key in Hx. simpl in Hx.
    rewrite <- Exy, js_streq_refl in Hx. injection Hx as <- _.
    f_equal. apply IH; [by apply Sorted_inv in Hs1 as []|by apply Sorted_inv in Hs2 as []|].
    intros k. specialize (Hk k). unfold with_key in *. simpl in Hk.
    destruct (key x ==s k); [by injection Hk|done].
Qed.

End KeySort.

Lemma sort_insert_zero {A} (cmp : A -> A -> Z) x l :
  (forall a b, cmp a b = 0%Z) -> sort_insert cmp x l = l ++ [x].
Proof.
  intros H0. induction l as [|y l IH]; [done|]. simpl. by rewrite H0, IH.
Qed.

(** A comparator that finds every pair equal leaves the array as it is. *)
Lemma js_sort_zero {A} (cmp : A -> A -> Z) l :
  (forall a b, cmp a b = 0%Z) -> js_sort cmp l = l.
Proof.
  intros H0. unfold js_sort.
  enough (forall acc, fold_left (fun acc x => sort_insert cmp x acc) l acc = acc ++ l)
    as H by apply H.
  induction l as [|x l IH]; intros acc; simpl; [by rewrite app_nil_r|].
  by rewrite sort_insert_zero, IH, <- app_assoc.
Qed.

Lemma js_sort_sorted_perm {A} (key : A -> string) l :
  Sorted (key_le key) (js_sort (js_compare_by key) l) /\ Permutation (js_sort (js_compare_by key) l) l.
Proof.
  unfold js_sort. split; [apply fold_insert_sorted; constructor|].
  rewrite fold_insert_Permutation. by rewrite app_nil_r.
Qed.

(** ** Properties *)

(** [array.sort(compare)] with a compare callback on a string field
    returns a permutation of the array, sorted by the field, and stable:
    the elements with equal fields keep their relative order. *)
Lemma js_sort_sorted_stable {A} (key : A -> string) l :
  Sorted (key_le key) (js_sort (js_compare_by key) l) /\
  Permutation (js_sort (js_compare_by key) l) l /\
  (forall k, with_key key k (js_sort (js_compare_by key) l) = with_key key k l).
Proof.
  split; [apply js_sort_sorted_perm|split; [apply js_sort_sorted_perm|]].
  intros k. unfold js_sort. by rewrite fold_insert_with_key by constructor.
Qed.

(** The sorted stable arrangement is unique: any list sorted by the
    field whose elements of each field value are those of the array, in
    the array's order, is the result of [js_sort].  Every engine that
    implements the stable [Array.prototype.sort] of ECMAScript 2019
    therefore returns what the model returns. *)
Lemma js_sort_unique {A} (key : A -> string) l l' :
  Sorted (key_le key) l' ->
  (forall k, with_key key k l' = with_key key k l) ->
  l' = js_sort (js_compare_by key) l.
Proof.
  intros Hs Hk. apply (sorted_with_key_unique key); [done|apply js_sort_sorted_perm|].
  - intros k. rewrite Hk. unfold js_sort. by rewrite fold_insert_with_key by constructor.
Qed.

(** C28: the compare callbacks of the controllers are consistent
    comparators, as [Array.prototype.sort] requires: antisymmetric, zero
    exactly on equal fields, and transitive on negative results. *)
Theorem js_compare_by_consistent {A} (key : A -> string) a b c :
  js_compare_by key a b = Z.opp (js_compare_by key b a) /\
  (js_compare_by key a b = 0%Z <-> key a = key b) /\
  ((js_compare_by key a b < 0)%Z -> (js_compare_by key b c < 0)%Z -> (js_compare_by key a c < 0)%Z).
Proof.
  unfold js_compare_by, js_compare, js_lt_opt. split; [|split].
  - destruct (js_lt (key a) (key b)) eqn:E1, (js_lt (key b) (key a)) eqn:E2; try done.
    by rewrite (js_lt_asym _ _ E1) in E2.
  - destruct (js_lt (key a) (key b)) eqn:E1, (js_lt (key b) (key a)) eqn:E2.
    + by rewrite (js_lt_asym _ _ E1) in E2.
    + split; [done|]. intros Heq. by rewrite Heq, js_lt_irrefl in E1.
    + split; [done|]. intros Heq. by rewrite Heq, js_lt_irrefl in E2.
    + split; [intros _; by apply js_lt_antisym|done].
  - destruct (js_lt (key a) (key b)) eqn:E1; [|by destruct (js_lt (key b) (key a))].
    destruct (js_lt (key b) (key c)) eqn:E2; [|by destruct (js_lt (key c) (key b))].
    by rewrite (js_lt_trans _ _ _ E1 E2).
Qed.

