(* ===== verification/Store.v ===== *)
(** * Store: the Mongoose schemas, the database and the queries

    The two collections of the service (models/questionnaire.js,
    models/answer.js) as records, the database as the two collections in
    insertion order (the order in which [find] returns documents), and every
    query filter the controllers issue, written as an executable filter over
    a collection.  A filter on a field compared with a JavaScript variable
    that may be [undefined] takes an [option string]: the MongoDB driver
    sends [undefined] as [null], which no stored document matches because
    every field of both schemas is [required].  The HTTP responses the
    handlers produce are also declared here. *)

From S2P Require Import Prelude.

(** ** Documents *)

(** An element of a question's [options] array. *)
Record QOption := mkQOption {
  optID : string;
  opttxt : string;
  nextqID : string
}.

(** An element of a questionnaire's [questions] array; [required] is the
    schema's String field, compared with the literal ["TRUE"]. *)
Record Question := mkQuestion {
  qID : string;
  qtext : string;
  required : string;
  qtype : string;
  options : list QOption
}.

#[export] Instance QOption_eq_dec : EqDecision QOption.
Proof. solve_decision. Defined.

#[export] Instance Question_eq_dec : EqDecision Question.
Proof. solve_decision. Defined.

Record Questionnaire := mkQuestionnaire {
  questionnaireID : string;
  questionnaireTitle : string;
  keywords : list string;
  questions : list Question
}.

Record Answer := mkAnswer {
  questionnaireIDRef : string;
  qIDRef : string;
  ans : string;
  session : string
}.

(** The database: both collections, each in insertion order. *)
Record DB := mkDB {
  questionnaires : list Questionnaire;
  answers : list Answer
}.

(** The URL parameters of [POST /doanswer/:questionnaireID/:questionID/:session/:optionID]. *)
Record AnswerRequest := mkAnswerRequest {
  rq_questionnaireID : string;
  rq_questionID : string;
  rq_session : string;
  rq_optionID : string
}.

(** A filter [{ field: v }] where [v] may be [undefined]. *)
Definition field_matches (v : option string) (field : string) : bool :=
  match v with Some s => field ==s s | None => false end.

(** ** Queries of postAnswer (controllers/operational.js) *)

Definition option_has_id (optid : string) (o : QOption) : bool := optID o ==s optid.

(** [questions: { $elemMatch: { qID: questionID, options: { $elemMatch: { optID: optionID } } } }] *)
Definition question_has_option (qid optid : string) (q : Question) : bool :=
  (qID q ==s qid) && existsb (option_has_id optid) (options q).

Definition find_answer_fields (db : DB) (qnid qid optid : string) : list Questionnaire :=
  List.filter (fun d => (questionnaireID d ==s qnid)
                   && existsb (question_has_option qid optid) (questions d))
         (questionnaires db).

(** [Answer.find({ questionnaireIDRef, session })] *)
Definition find_session_answers (db : DB) (qnid sess : string) : list Answer :=
  List.filter (fun a => (questionnaireIDRef a ==s qnid) && (session a ==s sess)) (answers db).

(** A question one of whose options points to [qid]. *)
Definition points_to (qid : string) (q : Question) : bool :=
  existsb (fun o => nextqID o ==s qid) (options q).

(** The first element of a list satisfying [p]: MongoDB's positional
    projection ["questions.$"] keeps the first array element matched by
    the query's [$elemMatch]. *)
Fixpoint first_match {A} (p : A -> bool) (l : list A) : option A :=
  match l with
  | [] => None
  | x :: l' => if p x then Some x else first_match p l'
  end.

(** [Questionnaire.find({ questionnaireID, questions: { $elemMatch: { options:
    { $elemMatch: { nextqID: questionID } } } } }, { "questions.$": 1, _id: 0 })]:
    for every matching document, its projected [questions] array. *)
Definition find_predecessor (db : DB) (qnid qid : string) : list (list Question) :=
  map (fun d => option_list (first_match (points_to qid) (questions d)))
      (List.filter (fun d => (questionnaireID d ==s qnid) && existsb (points_to qid) (questions d))
              (questionnaires db)).

(** [Answer.find({ questionnaireIDRef, qIDRef: previousQuestion, session })] *)
Definition find_answers_to (db : DB) (qnid : string) (prev : option string) (sess : string)
    : list Answer :=
  List.filter (fun a => (questionnaireIDRef a ==s qnid) && field_matches prev (qIDRef a)
                   && (session a ==s sess)) (answers db).

(** The final query of postAnswer: [questions: { $elemMatch: { qID: prev } }]
    and, independently, ["questions.options": { $elemMatch: { optID: ansPrev,
    nextqID: questionID } }], which matches an option of any question. *)
Definition find_telos (db : DB) (qnid : string) (prev ansprev : option string) (qid : string)
    : list Questionnaire :=
  List.filter (fun d => (questionnaireID d ==s qnid)
                   && (existsb (fun q => field_matches prev (qID q)) (questions d)
                       && existsb (fun q => existsb (fun o => field_matches ansprev (optID o)
                                                               && (nextqID o ==s qid))
                                                    (options q))
                                  (questions d)))
         (questionnaires db).

(** [answer.save()] appends the new document to the collection. *)
Definition insert_answer (db : DB) (a : Answer) : DB :=
  mkDB (questionnaires db) (answers db ++ [a]).

(** ** Queries of the read endpoints (controllers/operational.js) *)

(** [Questionnaire.find({ questionnaireID })] (getQuestionnaire, resetq). *)
Definition find_questionnaire (db : DB) (qnid : string) : list Questionnaire :=
  List.filter (fun d => questionnaireID d ==s qnid) (questionnaires db).

(** [Questionnaire.aggregate([{ $match: { 'questions.qID': questionID, questionnaireID } },
    { $project: { questions: { $filter: { cond: { $eq: ['$$questions.qID', questionID] } } } } }])]:
    the [questions] array of each matching document, filtered. *)
Definition aggregate_question (db : DB) (qnid qid : string) : list (list Question) :=
  map (fun d => List.filter (fun q => qID q ==s qid) (questions d))
      (List.filter (fun d => existsb (fun q => qID q ==s qid) (questions d) && (questionnaireID d ==s qnid))
                   (questionnaires db)).

(** [Answer.find({ questionnaireIDRef, qIDRef })] (getQuestionAnswers). *)
Definition find_question_answers (db : DB) (qnid qid : string) : list Answer :=
  List.filter (fun a => (questionnaireIDRef a ==s qnid) && (qIDRef a ==s qid)) (answers db).

(** [Answer.find({ questionnaireIDRef })] (getExportAnswers). *)
Definition find_questionnaire_answers (db : DB) (qnid : string) : list Answer :=
  List.filter (fun a => questionnaireIDRef a ==s qnid) (answers db).

(** ** Output records *)

(** A question as getQuestionnaire returns it: the projection
    [{ "questions.options": 0, "questions._id": 0 }] drops its options. *)
Record QuestionHead := mkQuestionHead {
  h_qID : string;
  h_qtext : string;
  h_required : string;
  h_type : string
}.

Record QuestionnaireView := mkQuestionnaireView {
  v_questionnaireID : string;
  v_questionnaireTitle : string;
  v_keywords : list string;
  v_questions : list QuestionHead
}.

(** The object getQuestion builds: [options] is the options array (JSON
    branch) or the array of [[optID, opttxt, nextqID]] rows (CSV branch). *)
Record QuestionView (O : Type) := mkQuestionView {
  qv_questionnaireID : string;
  qv_qID : string;
  qv_qtext : string;
  qv_required : string;
  qv_type : string;
  qv_options : list O
}.
Arguments mkQuestionView {O}.
Arguments qv_options {O}.

(** ** Responses *)

(** The bodies the handlers send: [res.json(...)] objects, and the arrays
    given to csv-express's [res.csv(...)] (the CSV text itself is not
    modelled).  Pairs are the two-field objects of the answer endpoints:
    [{ qID, ans }], [{ session, ans }], [{ questionID, ans }]. *)
Inductive Body :=
  | BMessage (m : string)                              (* { message: m } *)
  | BAnswerSubmitted (a : Answer)                      (* { message: "Answer Submited.", answer } *)
  | BStatus (s : string)                               (* { "status": s } *)
  | BStatusReason (s reason : string)                  (* { "status": s, "reason": reason } *)
  | BHealth (s conn : string)                          (* { "status": s, "dbconnection": conn } *)
  | BError                                             (* { error: err } *)
  | BHtmlError                                         (* Express's default error page, 500 *)
  | BQuestionnaire (v : QuestionnaireView)
  | BQuestionnaireCsv (vs : list QuestionnaireView)
  | BQuestion (v : QuestionView QOption)
  | BQuestionCsv (vs : list (QuestionView (list string)))
  | BSessionAnswers (qnid sess : string) (l : list (string * string))
  | BSessionAnswersCsv (qnid sess : string) (rows : list (list string))
  | BQuestionAnswers (qnid qid : string) (l : list (string * string))
  | BQuestionAnswersCsv (qnid qid : string) (rows : list (list string))
  | BExport (l : list (string * string)).

Record Response := mkResponse { status : nat; body : Body }.

Definition msg_fields : string := "Please check again your answer fields.".
Definition msg_required : string := "Please answer required questions first.".
Definition msg_cannot : string := "Cannot answer that question.".
Definition msg_no_questionnaire : string := "No questionnaire found.".
Definition msg_no_question : string := "No question found.".
Definition msg_no_answers : string := "No answers found.".

(** ** Generic facts on the filters *)

Lemma find_session_answers_insert db qnid sess a :
  find_session_answers (insert_answer db a) qnid sess =
  find_session_answers db qnid sess ++
    (if (questionnaireIDRef a ==s qnid) && (session a ==s sess) then [a] else []).
Proof.
  unfold find_session_answers, insert_answer. simpl. rewrite List.filter_app. simpl.
  by destruct (_ && _).
Qed.

Lemma first_match_Some {A} (p : A -> bool) l x :
  first_match p l = Some x -> In x l /\ p x = true.
Proof.
  induction l as [|y l IH]; simpl; [done|].
  destruct (p y) eqn:E; intros H.
  - injection H as <-. split; [by left|done].
  - destruct (IH H). split; [by right|done].
Qed.

Lemma first_match_None {A} (p : A -> bool) l :
  first_match p l = None <-> existsb p l = false.
Proof.
  induction l as [|y l IH]; simpl; [done|].
  destruct (p y); simpl; [done|exact IH].
Qed.

#[export] Hint Resolve first_match_Some : intelliq.
