(* ===== verification/DoAnswer.v ===== *)
(** * DoAnswer: the answer-flow validator postAnswer

    [exports.postAnswer] of controllers/operational.js (lines 282-461),
    translated branch by branch: the existence check, the first-answer
    branch with its [for] loop over the [required] flags, and the
    subsequent-answer branch with its three chained queries.  The reads are
    composed into [decide_answer], a pure function of the database; the
    save and the response into [post_answer].  The theorems give the
    behaviour of every branch, errors included, the equivalence of the loop
    with a declarative reading, the absence of TypeErrors on a store with
    one document per questionnaire id, and the executions where the code
    departs from the specification; the refinement of the specification's
    rules and the walk invariant are in [FlowSpec]. *)

From S2P Require Import Prelude Store.

(** What the reads of postAnswer decide: save this answer, answer 402
    with this message, or throw inside a promise callback whose rejection
    nobody handles (no response is ever sent). *)
Inductive Decision :=
  | Accept (a : Answer)
  | Reject (msg : string)
  | Throw.

(** [new Answer({ questionnaireIDRef, qIDRef, ans, session })] *)
Definition new_answer (rq : AnswerRequest) : Answer :=
  mkAnswer (rq_questionnaireID rq) (rq_questionID rq) (rq_optionID rq) (rq_session rq).

(** [v == s] where the variable [v] may still be [undefined]. *)
Definition js_eq_opt (v : option string) (s : string) : bool :=
  match v with Some t => t ==s s | None => false end.

(** ** First-answer branch (lines 314-381) *)

(** [result.forEach(re => { firstQuestion = re.questions[i].qID,
    firstQuestionRequired = re.questions[i].required,
    questionsNumber = re.questions.length })] with [i = 0]. *)
Definition read_first (re : Questionnaire) : option (option string * option string * option nat) :=
  q0 ← questions re !! 0;
  Some (Some (qID q0), Some (required q0), Some (length (questions re))).

(** The body of one iteration's [forEach]: [firstQuestion = re.questions[i].qID,
    firstQuestionRequired = re.questions[j].required] with [j = i - 1]. *)
Definition read_step (i : nat) (re : Questionnaire) : option (option string * option string) :=
  qi ← questions re !! i;
  qj ← questions re !! (i - 1);
  Some (Some (qID qi), Some (required qj)).

(** [for (i = 1; i < questionsNumber; i++) { j++; ... }]: [fuel] is the
    number of iterations left, [questionsNumber - i].  [Some true]: a
    [return] of the 402 "required" response; [Some false]: the loop ends
    (by its guard or by [break]) and the answer is saved; [None]: a
    TypeError. *)
Fixpoint required_loop (fuel i : nat) (result : list Questionnaire) (qid : string)
    (fq fqr : option string) : option bool :=
  match fuel with
  | 0 => Some false
  | S fuel' =>
      '(fq', fqr') ← forEach_assign (read_step i) result (fq, fqr);
      if negb (js_eq_opt fq' qid) then
        if js_eq_opt fqr' "TRUE" then Some true
        else required_loop fuel' (S i) result qid fq' fqr'
      else if js_eq_opt fqr' "TRUE" then Some true
      else Some false
  end.

Definition first_answer_branch (result : list Questionnaire) (rq : AnswerRequest) : Decision :=
  match forEach_assign read_first result (None, None, None) with
  | None => Throw
  | Some (fq, fqr, qn) =>
      if js_eq_opt fq (rq_questionID rq) then Accept (new_answer rq)
      else
        (* [i < questionsNumber] is false when [questionsNumber] is undefined *)
        match required_loop (default 0 qn - 1) 1 result (rq_questionID rq) fq fqr with
        | None => Throw
        | Some true => Reject msg_required
        | Some false => Accept (new_answer rq)
        end
  end.

(** ** Subsequent-answer branch (lines 388-455) *)

Definition subsequent_branch (db : DB) (rq : AnswerRequest) : Decision :=
  let qnid := rq_questionnaireID rq in
  let qid := rq_questionID rq in
  let resp := find_predecessor db qnid qid in
  (* [resp.forEach(r => previousQuestion = r.questions[0].qID)] *)
  match forEach_assign (fun r => q ← r !! 0; Some (Some (qID q))) resp None with
  | None => Throw
  | Some prev =>
      let ap := find_answers_to db qnid prev (rq_session rq) in
      match ap with
      | [] => Reject msg_cannot
      | _ :: _ =>
          (* [ap.forEach(a => answerToPreviousQuestion = a.ans)] *)
          match forEach_assign (fun a => Some (Some (ans a))) ap None with
          | None => Throw
          | Some ansprev =>
              match find_telos db qnid prev ansprev qid with
              | [] => Reject msg_cannot
              | _ :: _ => Accept (new_answer rq)
              end
          end
      end
  end.

(** ** The handler (lines 282-313, 458-460) *)

Definition decide_answer (db : DB) (rq : AnswerRequest) : Decision :=
  let result := find_answer_fields db (rq_questionnaireID rq) (rq_questionID rq) (rq_optionID rq) in
  match result with
  | [] => Reject msg_fields
  | _ :: _ =>
      match find_session_answers db (rq_questionnaireID rq) (rq_session rq) with
      | [] => first_answer_branch result rq
      | _ :: _ => subsequent_branch db rq
      end
  end.

(** The reads, then [answer.save()] and the 200 response sent once the
    save has completed. *)
Definition post_answer (db : DB) (rq : AnswerRequest) : DB * option Response :=
  match decide_answer db rq with
  | Accept a => (insert_answer db a, Some (mkResponse 200 (BAnswerSubmitted a)))
  | Reject m => (db, Some (mkResponse 402 (BMessage m)))
  | Throw => (db, None)
  end.

(** ** Declarative readings used by the theorems *)

Definition is_required (q : Question) : bool := required q ==s "TRUE".

(** The questions passed, walking the questions from index 1, before
    reaching [qid] (all but the last when [qid] is not reached). *)
Fixpoint prefix_before (qid : string) (qs : list Question) : list Question :=
  match qs with
  | q :: ((q' :: _) as rest) => q :: (if qID q' ==s qid then [] else prefix_before qid rest)
  | _ => []
  end.

Definition is_first (qs : list Question) (qid : string) : bool :=
  match qs with q0 :: _ => qID q0 ==s qid | [] => false end.

(** The database holds exactly one questionnaire document with this id. *)
Definition sole_doc (db : DB) (qnid : string) (d : Questionnaire) : Prop :=
  List.filter (fun x => questionnaireID x ==s qnid) (questionnaires db) = [d].

(** The answers the session has already given to the questionnaire. *)
Definition session_history (db : DB) (rq : AnswerRequest) : list Answer :=
  find_session_answers db (rq_questionnaireID rq) (rq_session rq).

(** ** Concrete questionnaires *)

Definition opt_ (id next : string) : QOption := mkQOption id "text" next.
Definition q_ (id req : string) (os : list QOption) : Question := mkQuestion id "text" req "question" os.

(** Scenario A of the specification. *)
Definition qa1 : Question := q_ "Q01" "TRUE" [opt_ "Q01A1" "Q02"; opt_ "Q01A2" "Q03"].
Definition qa2 : Question := q_ "Q02" "FALSE" [opt_ "Q02A1" "Q03"].
Definition qa3 : Question := q_ "Q03" "FALSE" [opt_ "Q03A1" "-"].
Definition qq000 : Questionnaire := mkQuestionnaire "QQ000" "Scenario A" ["k"] [qa1; qa2; qa3].

Definition rq_a1 : AnswerRequest := mkAnswerRequest "QQ000" "Q01" "AAAA" "Q01A1".
Definition rq_a2 : AnswerRequest := mkAnswerRequest "QQ000" "Q02" "AAAA" "Q02A1".
Definition rq_a3 : AnswerRequest := mkAnswerRequest "QQ000" "Q03" "AAAA" "Q03A1".

Definition db_a : DB := mkDB [qq000] [].
(** After session AAAA answered Q01 with Q01A1. *)
Definition db_a1 : DB := mkDB [qq000] [mkAnswer "QQ000" "Q01" "Q01A1" "AAAA"].

(** A questionnaire whose first question is not required. *)
Definition qo2 : Question := q_ "O2" "TRUE" [opt_ "O2A" "O3"].
Definition qopt : Questionnaire :=
  mkQuestionnaire "QO" "optional start" []
    [ q_ "O1" "FALSE" [opt_ "O1A" "O2"]; qo2; q_ "O3" "FALSE" [opt_ "O3A" "-"] ].
Definition db_o : DB := mkDB [qopt] [].
Definition rq_o2 : AnswerRequest := mkAnswerRequest "QO" "O2" "S" "O2A".

(** The same questionnaire id uploaded twice, the second time with a
    question inserted (questionnaire_upd does not reject duplicates). *)
Definition dup_v1 : Questionnaire :=
  mkQuestionnaire "QD" "v1" [] [ q_ "D1" "FALSE" [opt_ "D1A" "D2"]; q_ "D2" "FALSE" [opt_ "D2A" "-"] ].
Definition dup_v2 : Questionnaire :=
  mkQuestionnaire "QD" "v2" []
    [ q_ "D1" "FALSE" [opt_ "D1A" "D3"]; q_ "D3" "FALSE" [opt_ "D3A" "D2"];
      q_ "D2" "FALSE" [opt_ "D2A" "-"] ].
Definition db_dup : DB := mkDB [dup_v1; dup_v2] [].

(** ** Reading the queries on a database with one document per id *)

Section SoleDoc.
Context (db : DB) (qnid : string) (d : Questionnaire).
Hypothesis Hsole : sole_doc db qnid d.

Lemma find_answer_fields_sole qid optid :
  find_answer_fields db qnid qid optid =
  if existsb (question_has_option qid optid) (questions d) then [d] else [].
Proof. exact (filter_andb_sole _ (fun x => existsb _ (questions x)) _ _ Hsole). Qed.

Lemma find_predecessor_sole qid :
  find_predecessor db qnid qid =
  if existsb (points_to qid) (questions d)
  then [option_list (first_match (points_to qid) (questions d))] else [].
Proof.
  unfold find_predecessor.
  rewrite (filter_andb_sole _ (fun x => existsb _ (questions x)) _ _ Hsole).
  by destruct (existsb _ _).
Qed.

Lemma find_telos_sole prev ansprev qid :
  find_telos db qnid prev ansprev qid =
  if existsb (fun q => field_matches prev (qID q)) (questions d)
     && existsb (fun q => existsb (fun o => field_matches ansprev (optID o) && (nextqID o ==s qid))
                                  (options q)) (questions d)
  then [d] else [].
Proof.
  exact (filter_andb_sole _ (fun x => existsb _ (questions x) && existsb _ (questions x)) _ _ Hsole).
Qed.
End SoleDoc.

(** ** The first-answer branch on one document *)

Section FirstAnswer.
Context (d : Questionnaire) (qid : string).

(** One iteration of the loop compares [questions[i].qID] with the
    requested id and tests [questions[i-1].required]. *)
Lemma required_loop_sole fuel : forall i fq fqr,
  1 <= i -> i + fuel = length (questions d) ->
  required_loop fuel i [d] qid fq fqr =
  Some (existsb is_required (prefix_before qid (drop (i - 1) (questions d)))).
Proof.
  induction fuel as [|fuel IH]; intros i fq fqr Hi Hlen.
  - destruct (lookup_lt_is_Some_2 (questions d) (i - 1)) as [a Ha]; [lia|].
    simpl. rewrite (drop_S _ _ _ Ha), drop_ge by lia. done.
  - destruct (lookup_lt_is_Some_2 (questions d) (i - 1)) as [a Ha]; [lia|].
    destruct (lookup_lt_is_Some_2 (questions d) i) as [b Hb]; [lia|].
    cbn [required_loop]. rewrite forEach_assign_singleton.
    unfold read_step. rewrite Hb, Ha. cbn [mbind option_bind js_eq_opt].
    rewrite (drop_S _ _ _ Ha). replace (S (i - 1)) with i by lia.
    rewrite (drop_S _ _ _ Hb). cbn [prefix_before existsb]. unfold is_required.
    destruct (qID b ==s qid); simpl.
    + by destruct (required a ==s "TRUE").
    + destruct (required a ==s "TRUE"); [done|]. simpl.
      rewrite IH by lia. replace (S i - 1) with i by lia.
      by rewrite (drop_S _ _ _ Hb).
Qed.

Lemma first_answer_branch_sole rq :
  rq_questionID rq = qid -> questions d <> [] ->
  first_answer_branch [d] rq =
  if is_first (questions d) qid then Accept (new_answer rq)
  else if existsb is_required (prefix_before qid (questions d)) then Reject msg_required
  else Accept (new_answer rq).
Proof.
  intros Hq Hne.
  destruct (questions d) as [|q0 qs] eqn:Eq; [done|].
  unfold first_answer_branch. rewrite forEach_assign_singleton, Hq.
  unfold read_first. rewrite Eq. cbn [lookup list_lookup mbind option_bind default].
  simpl js_eq_opt. simpl is_first.
  destruct (qID q0 ==s qid); [done|].
  rewrite (required_loop_sole _ 1) by (try rewrite Eq; unfold id; simpl; lia).
  rewrite Eq. reflexivity.
Qed.
End FirstAnswer.

(** ** The subsequent-answer branch on one document *)

(** An option of some question leading to [qid] makes that question a predecessor. *)
Lemma option_leads_points_to qid optsel (q : Question) :
  existsb (fun o => optsel o && (nextqID o ==s qid)) (options q) = true -> points_to qid q = true.
Proof.
  intros [o [Ho Hn]]%existsb_exists. apply andb_prop in Hn as [_ Hn].
  apply existsb_exists. eauto.
Qed.

Lemma find_answers_to_Some db qnid p sess :
  find_answers_to db qnid (Some p) sess =
  List.filter (fun a => qIDRef a ==s p) (find_session_answers db qnid sess).
Proof.
  unfold find_answers_to, find_session_answers. simpl.
  induction (answers db) as [|a l IH]; [done|]. simpl.
  streq_cases; by rewrite ?IH.
Qed.

Lemma find_answers_to_None db qnid sess : find_answers_to db qnid None sess = [].
Proof.
  unfold find_answers_to. simpl.
  induction (answers db) as [|a l IH]; simpl; [done|]. by rewrite andb_false_r.
Qed.

Section Subsequent.
Context (db : DB) (d : Questionnaire) (rq : AnswerRequest).
Hypothesis Hsole : sole_doc db (rq_questionnaireID rq) d.

(** With a predecessor [P] found first, the branch accepts exactly when
    the session's last answer to [P] names an option, of any question,
    leading to the requested question. *)
Lemma subsequent_branch_first_pred P :
  first_match (points_to (rq_questionID rq)) (questions d) = Some P ->
  subsequent_branch db rq =
  match last (map ans (List.filter (fun a => qIDRef a ==s qID P) (session_history db rq))) with
  | Some o =>
      if existsb (fun q => existsb (fun opt => (optID opt ==s o) && (nextqID opt ==s rq_questionID rq))
                                   (options q)) (questions d)
      then Accept (new_answer rq) else Reject msg_cannot
  | None => Reject msg_cannot
  end.
Proof.
  intros HP. destruct (first_match_Some _ _ _ HP) as [HPin HPpt].
  unfold subsequent_branch. rewrite (find_predecessor_sole _ _ _ Hsole).
  assert (existsb (points_to (rq_questionID rq)) (questions d) = true) as ->
    by (apply existsb_exists; exists P; split; assumption).
  rewrite HP, forEach_assign_singleton.
  change (option_list (Some P) !! 0 ≫= (fun q => Some (Some (qID q)))) with (Some (Some (qID P))).
  cbv beta iota.
  rewrite find_answers_to_Some. fold (session_history db rq).
  destruct (List.filter _ (session_history db rq)) as [|a l] eqn:Eap; [done|].
  rewrite forEach_assign_last.
  destruct (last_map_cons_Some ans a l) as [o Ho]. rewrite Ho.
  rewrite (find_telos_sole _ _ _ Hsole).
  assert (existsb (fun q => field_matches (Some (qID P)) (qID q)) (questions d) = true) as ->
    by (apply existsb_exists; exists P; split; [done|simpl; apply js_streq_refl]).
  simpl. by destruct (existsb _ _).
Qed.

Lemma subsequent_branch_no_pred :
  existsb (points_to (rq_questionID rq)) (questions d) = false ->
  subsequent_branch db rq = Reject msg_cannot.
Proof.
  intros Hn. unfold subsequent_branch.
  rewrite (find_predecessor_sole _ _ _ Hsole), Hn. simpl.
  by rewrite find_answers_to_None.
Qed.

End Subsequent.

(** ** The handler on one document *)

Lemma decide_answer_sole db d rq :
  sole_doc db (rq_questionnaireID rq) d ->
  decide_answer db rq =
  if negb (existsb (question_has_option (rq_questionID rq) (rq_optionID rq)) (questions d))
  then Reject msg_fields
  else match find_session_answers db (rq_questionnaireID rq) (rq_session rq) with
       | [] => first_answer_branch [d] rq
       | _ :: _ => subsequent_branch db rq
       end.
Proof.
  intros Hsole. unfold decide_answer.
  rewrite (find_answer_fields_sole _ _ _ Hsole). by destruct (existsb _ _).
Qed.

Lemma has_option_nonempty qid optid qs :
  existsb (question_has_option qid optid) qs = true -> qs <> [].
Proof. by destruct qs. Qed.

Lemma prefix_before_cons2 qid q q' r :
  prefix_before qid (q :: q' :: r) = q :: (if qID q' ==s qid then [] else prefix_before qid (q' :: r)).
Proof. reflexivity. Qed.

Lemma prefix_before_take qid q rest p x :
  list_find (fun q => qID q = qid) rest = Some (p, x) ->
  prefix_before qid (q :: rest) = take (S p) (q :: rest).
Proof.
  revert q p x. induction rest as [|q' rest IH]; intros q p x H; [done|].
  simpl in H. rewrite prefix_before_cons2.
  case_decide as Hd.
  - injection H as <- _. subst qid. by rewrite js_streq_refl.
  - destruct (list_find _ rest) as [[p' x']|] eqn:E; [|done].
    injection H as <- _. apply js_streq_false in Hd. rewrite Hd.
    rewrite (IH q' p' x' eq_refl). done.
Qed.

Lemma question_has_option_first q0 rest qid optid :
  qID q0 = qid -> existsb (option_has_id optid) (options q0) = true ->
  existsb (question_has_option qid optid) (q0 :: rest) = true.
Proof.
  intros <- Hopt. simpl. unfold question_has_option. by rewrite js_streq_refl, Hopt.
Qed.

(** ** Decisions on one document *)

(** A session's first answer to the first question, with one of its
    options, is accepted. *)
Lemma decide_answer_first_question db d rq q0 rest :
  sole_doc db (rq_questionnaireID rq) d ->
  questions d = q0 :: rest -> qID q0 = rq_questionID rq ->
  existsb (option_has_id (rq_optionID rq)) (options q0) = true ->
  session_history db rq = [] ->
  decide_answer db rq = Accept (new_answer rq).
Proof.
  intros Hsole Hqs Hid Hopt Hh.
  rewrite (decide_answer_sole _ _ _ Hsole), Hqs, (question_has_option_first _ _ _ _ Hid Hopt).
  unfold session_history in Hh. simpl negb. cbv iota. rewrite Hh.
  rewrite (first_answer_branch_sole d (rq_questionID rq)) by (rewrite ?Hqs; done).
  rewrite Hqs. simpl. by rewrite Hid, js_streq_refl.
Qed.

(** A later answer to a question no option leads to is refused. *)
Lemma decide_answer_no_predecessor db d rq :
  sole_doc db (rq_questionnaireID rq) d ->
  existsb (question_has_option (rq_questionID rq) (rq_optionID rq)) (questions d) = true ->
  session_history db rq <> [] ->
  existsb (points_to (rq_questionID rq)) (questions d) = false ->
  decide_answer db rq = Reject msg_cannot.
Proof.
  intros Hsole Hex Hh Hnp.
  rewrite (decide_answer_sole _ _ _ Hsole), Hex. simpl negb. cbv iota.
  fold (session_history db rq). destruct (nonempty_cons _ Hh) as (a & l & Eh). rewrite Eh.
  by rewrite (subsequent_branch_no_pred _ _ _ Hsole Hnp).
Qed.

(** ** The loop over two documents of one id *)

Section Duplicate.
Context (d1 d2 : Questionnaire) (qid : string).
(** The questions of the last document at the positions of the first
    document are neither the requested one nor required. *)
Hypothesis Hall :
  Forall (fun q => qID q <> qid /\ required q <> "TRUE") (take (length (questions d1)) (questions d2)).

Hypothesis Hlt : length (questions d1) < length (questions d2).

Lemma dup_prefix_at k q :
  k < length (questions d1) -> questions d2 !! k = Some q -> qID q <> qid /\ required q <> "TRUE".
Proof. intros Hk Hq. apply (Forall_lookup_1 _ _ k q Hall). by rewrite lookup_take_lt. Qed.

(** The loop runs past the end of the shorter first document, where
    [questions[i]] is undefined: a TypeError. *)
Lemma required_loop_dup fuel : forall i fq fqr,
  1 <= i -> i <= length (questions d1) -> i + fuel = length (questions d2) ->
  required_loop fuel i [d1; d2] qid fq fqr = None.
Proof.
  induction fuel as [|fuel IH]; intros i fq fqr Hi Hle Hlen.
  - lia.
  - cbn [required_loop forEach_assign]. unfold read_step.
    destruct (decide (i = length (questions d1))) as [->|Hne].
    + by rewrite (lookup_ge_None_2 (questions d1) (length (questions d1))) by lia.
    + destruct (lookup_lt_is_Some_2 (questions d1) i) as [a Ha]; [lia|].
      destruct (lookup_lt_is_Some_2 (questions d1) (i - 1)) as [a' Ha']; [lia|].
      destruct (lookup_lt_is_Some_2 (questions d2) i) as [b Hb]; [lia|].
      destruct (lookup_lt_is_Some_2 (questions d2) (i - 1)) as [b' Hb']; [lia|].
      rewrite Ha, Ha', Hb, Hb'. simpl.
      destruct (dup_prefix_at i b ltac:(lia) Hb) as [Hbq _].
      destruct (dup_prefix_at (i - 1) b' ltac:(lia) Hb') as [_ Hbr].
      apply js_streq_false in Hbq, Hbr. rewrite Hbq, Hbr. simpl.
      apply IH; lia.
Qed.
End Duplicate.

(** ** Properties of postAnswer *)

(** C3: on a session's first submission, answering the questionnaire's
    first question with one of its options is accepted: the answer record
    (questionnaireIDRef, qIDRef, ans, session) is appended to the answers
    and the response is 200 "Answer Submited." with that record. *)
Theorem post_answer_first_question db d rq q0 rest :
  sole_doc db (rq_questionnaireID rq) d ->
  questions d = q0 :: rest -> qID q0 = rq_questionID rq ->
  existsb (option_has_id (rq_optionID rq)) (options q0) = true ->
  session_history db rq = [] ->
  post_answer db rq =
  (insert_answer db (new_answer rq), Some (mkResponse 200 (BAnswerSubmitted (new_answer rq)))).
Proof.
  intros Hsole Hqs Hid Hopt Hh. unfold post_answer.
  by rewrite (decide_answer_first_question db d rq q0 rest).
Qed.

(** C4: on a session's first submission of a question that is not the
    first one, the [for] loop over the required flags decides exactly as
    the linear rule says: with [p + 1] the first position after the first
    where the question occurs, the submission is refused with "Please
    answer required questions first." iff some question at a position
    [k <= p] has [required = "TRUE"], and accepted otherwise. *)
Theorem decide_first_answer_required db d rq p qp :
  sole_doc db (rq_questionnaireID rq) d ->
  session_history db rq = [] ->
  existsb (question_has_option (rq_questionID rq) (rq_optionID rq)) (questions d) = true ->
  is_first (questions d) (rq_questionID rq) = false ->
  list_find (fun q => qID q = rq_questionID rq) (tail (questions d)) = Some (p, qp) ->
  (decide_answer db rq = Reject msg_required <->
     exists k q, k <= p /\ questions d !! k = Some q /\ required q = "TRUE") /\
  (decide_answer db rq = Accept (new_answer rq) <->
     forall k q, k <= p -> questions d !! k = Some q -> required q <> "TRUE").
Proof.
  intros Hsole Hh Hex Hfirst Hfind.
  rewrite (decide_answer_sole _ _ _ Hsole), Hex. unfold session_history in Hh. simpl negb.
  cbv iota. rewrite Hh.
  rewrite (first_answer_branch_sole d (rq_questionID rq)) by (done || by destruct (questions d)).
  rewrite Hfirst.
  destruct (questions d) as [|q0 rest] eqn:Eq; [done|]. simpl in Hfind.
  rewrite (prefix_before_take _ _ _ _ _ Hfind).
  pose proof (existsb_take_lookup is_required (S p) (q0 :: rest)) as Hspec.
  assert (forall q, is_required q = true <-> required q = "TRUE") as Hr
    by (intros; apply js_streq_true).
  destruct (existsb is_required (take (S p) (q0 :: rest))) eqn:E; split; split; try done.
  - intros _. destruct (proj1 Hspec eq_refl) as (k & q & Hk & Hq & Hrq).
    exists k, q. split; [lia|]. split; [done|]. by apply Hr.
  - intros H. destruct (proj1 Hspec eq_refl) as (k & q & Hk & Hq & Hrq).
    exfalso. apply (H k q); [lia|done|by apply Hr].
  - intros (k & q & Hk & Hq & Hrq). exfalso.
    enough (false = true) by discriminate. apply Hspec. exists k, q. split; [lia|]. split; [done|]. by apply Hr.
  - intros _ k q Hk Hq Hrq. exfalso.
    enough (false = true) by discriminate. apply Hspec. exists k, q. split; [lia|]. split; [done|]. by apply Hr.
Qed.

Lemma first_answer_branch_not_fields result rq : first_answer_branch result rq <> Reject msg_fields.
Proof. unfold first_answer_branch. repeat case_match; done. Qed.

Lemma subsequent_branch_not_fields db rq : subsequent_branch db rq <> Reject msg_fields.
Proof. unfold subsequent_branch. repeat case_match; done. Qed.

Lemma find_answer_fields_nil db qnid qid optid :
  find_answer_fields db qnid qid optid = [] <->
  forall d, In d (questionnaires db) -> questionnaireID d = qnid ->
    existsb (question_has_option qid optid) (questions d) = false.
Proof.
  unfold find_answer_fields. split.
  - intros Hnil d Hd Hid. apply not_true_iff_false. intros Hex.
    assert (In d []) as []. rewrite <- Hnil. apply filter_In. split; [done|].
    subst. by rewrite js_streq_refl, Hex.
  - intros H. destruct (List.filter _ _) as [|d l] eqn:E; [done|].
    assert (In d (d :: l)) as Hin by (left; done). rewrite <- E in Hin.
    apply filter_In in Hin as [Hin Hp]. apply andb_prop in Hp as [Hid Hex].
    apply js_streq_true in Hid. by rewrite (H d Hin Hid) in Hex.
Qed.

(** C7: on a later submission, when the first question [P] with an option
    leading to the requested question was answered by the session, and the
    option it chose last for [P] leads to the requested question, the
    answer is saved and the response is 200. *)
Theorem post_answer_follows_chosen_option db d rq P o :
  sole_doc db (rq_questionnaireID rq) d ->
  existsb (question_has_option (rq_questionID rq) (rq_optionID rq)) (questions d) = true ->
  session_history db rq <> [] ->
  first_match (points_to (rq_questionID rq)) (questions d) = Some P ->
  last (map ans (List.filter (fun a => qIDRef a ==s qID P) (session_history db rq))) = Some o ->
  existsb (fun opt => (optID opt ==s o) && (nextqID opt ==s rq_questionID rq)) (options P) = true ->
  post_answer db rq =
  (insert_answer db (new_answer rq), Some (mkResponse 200 (BAnswerSubmitted (new_answer rq)))).
Proof.
  intros Hsole Hex Hh HP Ho Hopt. unfold post_answer.
  rewrite (decide_answer_sole _ _ _ Hsole), Hex. simpl negb. cbv iota.
  fold (session_history db rq). destruct (nonempty_cons _ Hh) as (a & l & Eh). rewrite Eh.
  rewrite (subsequent_branch_first_pred _ _ _ Hsole P HP), Ho.
  destruct (first_match_Some _ _ _ HP) as [HPin _].
  enough (existsb (fun q => existsb (fun opt => (optID opt ==s o) && (nextqID opt ==s rq_questionID rq))
                                   (options q)) (questions d) = true) as -> by done.
  apply existsb_exists. eauto.
Qed.

(** C8: on a later submission, a question that no option of the
    questionnaire leads to (the first question, answered again, for
    instance) is refused with "Cannot answer that question." and nothing is
    saved. *)
Theorem post_answer_no_predecessor db d rq :
  sole_doc db (rq_questionnaireID rq) d ->
  existsb (question_has_option (rq_questionID rq) (rq_optionID rq)) (questions d) = true ->
  session_history db rq <> [] ->
  existsb (points_to (rq_questionID rq)) (questions d) = false ->
  post_answer db rq = (db, Some (mkResponse 402 (BMessage msg_cannot))).
Proof.
  intros Hsole Hex Hh Hnp. unfold post_answer.
  by rewrite (decide_answer_no_predecessor db d rq).
Qed.

(** C9: on a later submission, when the session has not answered the
    first question [P] leading to the requested one, or the option it chose
    last for [P] is, in the whole questionnaire, no option leading to the
    requested question, the submission is refused with "Cannot answer that
    question." and nothing is saved. *)
Theorem post_answer_off_path db d rq P :
  sole_doc db (rq_questionnaireID rq) d ->
  existsb (question_has_option (rq_questionID rq) (rq_optionID rq)) (questions d) = true ->
  session_history db rq <> [] ->
  first_match (points_to (rq_questionID rq)) (questions d) = Some P ->
  match last (map ans (List.filter (fun a => qIDRef a ==s qID P) (session_history db rq))) with
  | Some o => existsb (fun q => existsb (fun opt => (optID opt ==s o) && (nextqID opt ==s rq_questionID rq))
                                      (options q)) (questions d) = false
  | None => True
  end ->
  post_answer db rq = (db, Some (mkResponse 402 (BMessage msg_cannot))).
Proof.
  intros Hsole Hex Hh HP Hoff. unfold post_answer.
  rewrite (decide_answer_sole _ _ _ Hsole), Hex. simpl negb. cbv iota.
  fold (session_history db rq). destruct (nonempty_cons _ Hh) as (a & l & Eh). rewrite Eh.
  rewrite (subsequent_branch_first_pred _ _ _ Hsole P HP).
  destruct (last _) as [o|]; [|done]. by rewrite Hoff.
Qed.

(** PostAnswer answers "Please check again your answer fields." exactly
    when no questionnaire document with the requested id has a question with
    the requested id holding an option with the requested id. *)
Lemma decide_answer_fields_iff db rq :
  decide_answer db rq = Reject msg_fields <->
  forall d, In d (questionnaires db) -> questionnaireID d = rq_questionnaireID rq ->
    existsb (question_has_option (rq_questionID rq) (rq_optionID rq)) (questions d) = false.
Proof.
  rewrite <- find_answer_fields_nil. unfold decide_answer.
  destruct (find_answer_fields _ _ _ _); [done|]. split; [|done].
  intros H. exfalso. revert H.
  case_match; [apply (first_answer_branch_not_fields _ rq)|apply (subsequent_branch_not_fields db rq)].
Qed.

(** With a single questionnaire document for the requested id,
    postAnswer always responds: its reads never throw. *)
Lemma decide_answer_sole_no_throw db d rq :
  sole_doc db (rq_questionnaireID rq) d -> decide_answer db rq <> Throw.
Proof.
  intros Hsole. rewrite (decide_answer_sole _ _ _ Hsole).
  destruct (existsb _ (questions d)) eqn:Hex; [|done]. simpl negb. cbv iota.
  case_match.
  - rewrite (first_answer_branch_sole d (rq_questionID rq))
      by (done || by destruct (questions d)).
    by repeat case_match.
  - destruct (first_match (points_to (rq_questionID rq)) (questions d)) as [P|] eqn:HP.
    + rewrite (subsequent_branch_first_pred _ _ _ Hsole P HP). by repeat case_match.
    + apply first_match_None in HP. by rewrite (subsequent_branch_no_pred _ _ _ Hsole HP).
Qed.

(** C17: with two documents under one questionnaire id (a questionnaire
    uploaded again with questions inserted) that both hold the requested
    question and option, a session's first answer hangs whenever the
    requested question sits, in the last document, past the positions of
    the first document, with no required question before: the [for] loop
    reads [questions[i]] of the shorter document beyond its end, the
    TypeError rejects a promise nobody handles, no answer is saved and no
    response is ever sent. *)
Theorem duplicate_questionnaire_hangs db d1 d2 rq :
  List.filter (fun x => questionnaireID x ==s rq_questionnaireID rq) (questionnaires db) = [d1; d2] ->
  existsb (question_has_option (rq_questionID rq) (rq_optionID rq)) (questions d1) = true ->
  existsb (question_has_option (rq_questionID rq) (rq_optionID rq)) (questions d2) = true ->
  session_history db rq = [] ->
  length (questions d1) < length (questions d2) ->
  Forall (fun q => qID q <> rq_questionID rq /\ required q <> "TRUE")
         (take (length (questions d1)) (questions d2)) ->
  post_answer db rq = (db, None).
Proof.
  intros Hdup H1 H2 Hh Hlt Hall. unfold post_answer, decide_answer.
  unfold find_answer_fields. rewrite filter_andb, Hdup. simpl. rewrite H1, H2.
  unfold session_history in Hh. rewrite Hh.
  pose proof (has_option_nonempty _ _ _ H1) as Hne.
  destruct (lookup_lt_is_Some_2 (questions d1) 0) as [a Ha]; [destruct (questions d1); [done|simpl; lia]|].
  destruct (lookup_lt_is_Some_2 (questions d2) 0) as [b Hb]; [lia|].
  unfold first_answer_branch. cbn [forEach_assign]. unfold read_first. rewrite Ha, Hb.
  cbn [mbind option_bind forEach_assign default js_eq_opt].
  destruct (dup_prefix_at d1 d2 (rq_questionID rq) Hall 0 b (lookup_lt_Some _ _ _ Ha) Hb) as [Hbq _].
  apply js_streq_false in Hbq. rewrite Hbq.
  pose proof (lookup_lt_Some _ _ _ Ha).
  rewrite (required_loop_dup d1 d2 (rq_questionID rq) Hall Hlt); [done|..]; unfold id; lia.
Qed.

(** A later submission that was accepted is accepted again when it is
    sent a second time (its predecessor being another question): the
    answer is saved twice, postAnswer is not idempotent. *)
Lemma post_answer_resubmitted db d rq P :
  sole_doc db (rq_questionnaireID rq) d ->
  session_history db rq <> [] ->
  first_match (points_to (rq_questionID rq)) (questions d) = Some P ->
  qID P <> rq_questionID rq ->
  decide_answer db rq = Accept (new_answer rq) ->
  post_answer (insert_answer db (new_answer rq)) rq =
  (insert_answer (insert_answer db (new_answer rq)) (new_answer rq),
   Some (mkResponse 200 (BAnswerSubmitted (new_answer rq)))).
Proof.
  intros Hsole Hh HP Hne Hacc. set (a := new_answer rq) in *.
  assert (Hsole1 : sole_doc (insert_answer db a) (rq_questionnaireID rq) d) by exact Hsole.
  assert (Hh1 : session_history (insert_answer db a) rq = session_history db rq ++ [a]).
  { unfold session_history. rewrite find_session_answers_insert. simpl.
    by rewrite !js_streq_refl. }
  unfold post_answer. enough (decide_answer (insert_answer db a) rq = Accept a) as -> by done.
  revert Hacc. rewrite (decide_answer_sole _ _ _ Hsole), (decide_answer_sole _ _ _ Hsole1).
  destruct (existsb _ (questions d)); [|done]. simpl negb. cbv iota.
  fold (session_history db rq) (session_history (insert_answer db a) rq). rewrite Hh1.
  destruct (nonempty_cons _ Hh) as (b & l & Eh). rewrite Eh. simpl app. cbv iota.
  rewrite (subsequent_branch_first_pred _ _ _ Hsole P HP),
          (subsequent_branch_first_pred _ _ _ Hsole1 P HP), Hh1, List.filter_app.
  simpl. apply js_streq_false in Hne. rewrite (js_streq_sym (qIDRef a)). simpl.
  rewrite Hne, app_nil_r. done.
Qed.

(** ** Witnesses *)

Lemma post_answer_first_question_witness :
  sole_doc db_a "QQ000" qq000 /\ session_history db_a rq_a1 = [] /\
  post_answer db_a rq_a1 =
  (insert_answer db_a (new_answer rq_a1), Some (mkResponse 200 (BAnswerSubmitted (new_answer rq_a1)))).
Proof.
  split; [reflexivity|split; [reflexivity|]].
  apply (post_answer_first_question db_a qq000 rq_a1 qa1 [qa2; qa3]); reflexivity.
Defined.

(** The first answer of a session may skip the first question when it is
    not required: O2 is accepted as the first answer of the session. *)
Lemma decide_first_answer_required_witness :
  sole_doc db_o "QO" qopt /\ session_history db_o rq_o2 = [] /\
  ((decide_answer db_o rq_o2 = Reject msg_required <->
      exists k q, k <= 0 /\ questions qopt !! k = Some q /\ required q = "TRUE") /\
   (decide_answer db_o rq_o2 = Accept (new_answer rq_o2) <->
      forall k q, k <= 0 -> questions qopt !! k = Some q -> required q <> "TRUE")).
Proof.
  split; [reflexivity|split; [reflexivity|]].
  apply (decide_first_answer_required db_o qopt rq_o2 0 qo2); reflexivity.
Defined.

Lemma post_answer_follows_chosen_option_witness :
  sole_doc db_a1 "QQ000" qq000 /\
  post_answer db_a1 rq_a2 =
  (insert_answer db_a1 (new_answer rq_a2), Some (mkResponse 200 (BAnswerSubmitted (new_answer rq_a2)))).
Proof.
  split; [reflexivity|].
  apply (post_answer_follows_chosen_option db_a1 qq000 rq_a2 qa1 "Q01A1"); try reflexivity.
  vm_compute. discriminate.
Defined.

Lemma post_answer_no_predecessor_witness :
  sole_doc db_a1 "QQ000" qq000 /\
  post_answer db_a1 rq_a1 = (db_a1, Some (mkResponse 402 (BMessage msg_cannot))).
Proof.
  split; [reflexivity|].
  apply (post_answer_no_predecessor db_a1 qq000 rq_a1); try reflexivity.
  vm_compute. discriminate.
Defined.

Lemma post_answer_off_path_witness :
  sole_doc db_a1 "QQ000" qq000 /\
  post_answer db_a1 rq_a3 = (db_a1, Some (mkResponse 402 (BMessage msg_cannot))).
Proof.
  split; [reflexivity|].
  apply (post_answer_off_path db_a1 qq000 rq_a3 qa1); try reflexivity.
  vm_compute. discriminate.
Defined.

Lemma duplicate_questionnaire_hangs_witness :
  List.filter (fun x => questionnaireID x ==s "QD") (questionnaires db_dup) = [dup_v1; dup_v2] /\
  existsb (question_has_option "D2" "D2A") (questions dup_v1) = true /\
  existsb (question_has_option "D2" "D2A") (questions dup_v2) = true /\
  session_history db_dup (mkAnswerRequest "QD" "D2" "S1" "D2A") = [] /\
  length (questions dup_v1) < length (questions dup_v2) /\
  Forall (fun q => qID q <> "D2" /\ required q <> "TRUE") (take (length (questions dup_v1)) (questions dup_v2)) /\
  post_answer db_dup (mkAnswerRequest "QD" "D2" "S1" "D2A") = (db_dup, None).
Proof.
  assert (Hall : Forall (fun q => qID q <> "D2" /\ required q <> "TRUE")
                        (take (length (questions dup_v1)) (questions dup_v2)))
    by (repeat constructor; discriminate).
  assert (Hlt : length (questions dup_v1) < length (questions dup_v2)) by (simpl; lia).
  refine (conj eq_refl (conj eq_refl (conj eq_refl (conj eq_refl (conj Hlt (conj Hall _)))))).
  exact (duplicate_questionnaire_hangs db_dup dup_v1 dup_v2 (mkAnswerRequest "QD" "D2" "S1" "D2A")
           eq_refl eq_refl eq_refl eq_refl Hlt Hall).
Defined.
