(* ===== verification/FlowSpec.v ===== *)
(** * FlowSpec: the specification of the answer flow, and what postAnswer meets

    The rules of section 4.1 of the specification, stated over one
    questionnaire document and a session's answers ([spec_decide]), and
    its control flow, persisting exactly what the rules accept
    ([spec_run]); the refinement theorem that postAnswer decides as these rules on every
    questionnaire in which each question has at most one predecessor; the
    invariant that, when option ids are unique in the questionnaire, the
    answers a session accumulates through postAnswer form a walk of the
    question-flow graph; and the executions where the code departs from
    the rules (a question with several predecessors, option ids shared
    between questions), each for every questionnaire of that shape.  Last, the independence of sessions: postAnswer reads the
    answers only through queries filtered by the session, so submissions
    of two sessions commute. *)

From Stdlib Require Import Btauto.
From S2P Require Import Prelude Store DoAnswer.

(** ** The rules *)

(** The option the session chose last for [P] leads to [qid]. *)
Definition chosen_points_to (hist : list Answer) (P : Question) (qid : string) : bool :=
  match last (map ans (List.filter (fun a => qIDRef a ==s qID P) hist)) with
  | Some o => existsb (fun opt => (optID opt ==s o) && (nextqID opt ==s qid)) (options P)
  | None => false
  end.

(** Rule 1: the question and option exist.  Rule 2: a session's first
    answer is to the first question, or to a question reached without
    passing a required one.  Rule 3: a later answer is to a question some
    predecessor of which the session answered with an option leading to
    it (the predecessors filtered by the session's answers, as the
    specification's tie-break asks). *)
Definition spec_decide (d : Questionnaire) (hist : list Answer) (rq : AnswerRequest) : Decision :=
  let qid := rq_questionID rq in
  let qs := questions d in
  if negb (existsb (question_has_option qid (rq_optionID rq)) qs) then Reject msg_fields
  else match hist with
       | [] =>
           if is_first qs qid then Accept (new_answer rq)
           else if existsb is_required (prefix_before qid qs) then Reject msg_required
           else Accept (new_answer rq)
       | _ :: _ =>
           if existsb (fun P => points_to qid P && chosen_points_to hist P qid) qs
           then Accept (new_answer rq) else Reject msg_cannot
       end.

(** No question has two predecessor questions. *)
Definition single_predecessor (d : Questionnaire) : bool :=
  forallb (fun q => length (List.filter (points_to (qID q)) (questions d)) <=? 1) (questions d).

(** No two options of the questionnaire share an id. *)
Definition unique_option_ids (d : Questionnaire) : bool :=
  bool_decide (NoDup (map optID (concat (map options (questions d))))).

(** ** Walks of the flow graph *)

Definition answer_validb (d : Questionnaire) (a : Answer) : bool :=
  existsb (question_has_option (qIDRef a) (ans a)) (questions d).

(** The option recorded by answer [b] leads to the question of answer [a]. *)
Definition edgeb (d : Questionnaire) (b a : Answer) : bool :=
  existsb (fun q => (qID q ==s qIDRef b)
                    && existsb (fun opt => (optID opt ==s ans b) && (nextqID opt ==s qIDRef a))
                               (options q))
          (questions d).

(** Every answer names an existing question and option, and every answer
    after the first follows an edge from an earlier answer. *)
Fixpoint walk_from (d : Questionnaire) (seen h : list Answer) : bool :=
  match h with
  | [] => true
  | a :: h' =>
      answer_validb d a
      && match seen with [] => true | _ :: _ => existsb (fun b => edgeb d b a) seen end
      && walk_from d (seen ++ [a]) h'
  end.

Definition walkb (d : Questionnaire) (h : list Answer) : bool := walk_from d [] h.

(** The answers of every session to questionnaire [qnid] are walks. *)
Definition flow_inv (db : DB) (qnid : string) (d : Questionnaire) : Prop :=
  forall sess, walkb d (find_session_answers db qnid sess) = true.

(** A sequence of submissions handled one after the other. *)
Definition run_answers (db : DB) (rqs : list AnswerRequest) : DB :=
  fold_left (fun db rq => fst (post_answer db rq)) rqs db.

(** The specification's control flow (section 3): a submission the rules
    accept is persisted as a new answer record, a refused one changes
    nothing. *)
Fixpoint spec_run (d : Questionnaire) (db : DB) (rqs : list AnswerRequest) : DB :=
  match rqs with
  | [] => db
  | rq :: rqs' =>
      spec_run d (match spec_decide d (session_history db rq) rq with
                  | Accept a => insert_answer db a
                  | _ => db
                  end) rqs'
  end.

(** ** Concrete questionnaires *)

(** A tree: every question has at most one predecessor. *)
Definition qt : Questionnaire :=
  mkQuestionnaire "QT" "tree" []
    [ q_ "T1" "TRUE" [opt_ "T1A" "T2"; opt_ "T1B" "T3"];
      q_ "T2" "FALSE" [opt_ "T2A" "T4"];
      q_ "T3" "FALSE" [opt_ "T3A" "-"];
      q_ "T4" "FALSE" [opt_ "T4A" "-"] ].
Definition db_t : DB := mkDB [qt] [mkAnswer "QT" "T1" "T1B" "S"].
Definition rq_t2 : AnswerRequest := mkAnswerRequest "QT" "T2" "S" "T2A".

(** A diamond: M4 has the predecessors M2 and M3. *)
Definition qdm : Questionnaire :=
  mkQuestionnaire "QM" "diamond" []
    [ q_ "M1" "TRUE" [opt_ "M1A" "M2"; opt_ "M1B" "M3"];
      q_ "M2" "FALSE" [opt_ "M2A" "M4"];
      q_ "M3" "FALSE" [opt_ "M3A" "M4"];
      q_ "M4" "FALSE" [opt_ "M4A" "-"] ].
Definition db_m : DB :=
  mkDB [qdm] [mkAnswer "QM" "M1" "M1B" "S"; mkAnswer "QM" "M3" "M3A" "S"].
Definition rq_m4 : AnswerRequest := mkAnswerRequest "QM" "M4" "S" "M4A".

(** Option ids "yes" and "no" reused by several questions. *)
Definition qso : Questionnaire :=
  mkQuestionnaire "QS" "shared option ids" []
    [ q_ "S1" "TRUE" [opt_ "yes" "S2"; opt_ "no" "S3"];
      q_ "S2" "TRUE" [opt_ "yes" "S3"; opt_ "no" "-"];
      q_ "S3" "FALSE" [opt_ "yes" "-"] ].
Definition db_s : DB := mkDB [qso] [].
Definition rq_s1 : AnswerRequest := mkAnswerRequest "QS" "S1" "S" "yes".
Definition rq_s3 : AnswerRequest := mkAnswerRequest "QS" "S3" "S" "yes".

(** ** Lemmas *)

Lemma single_predecessor_at d qid :
  single_predecessor d = true -> existsb (fun q => qID q ==s qid) (questions d) = true ->
  length (List.filter (points_to qid) (questions d)) <= 1.
Proof.
  unfold single_predecessor. rewrite forallb_forall.
  intros Hsp [q [Hq Hid]]%existsb_exists. apply js_streq_true in Hid as <-.
  apply Nat.leb_le, Hsp, Hq.
Qed.

Lemma has_option_has_question qid optid qs :
  existsb (question_has_option qid optid) qs = true -> existsb (fun q => qID q ==s qid) qs = true.
Proof.
  intros [q [Hq Hp]]%existsb_exists. apply existsb_exists. exists q.
  unfold question_has_option in Hp. apply andb_prop in Hp as [? _]. done.
Qed.

Section Subsequent.
Context (db : DB) (d : Questionnaire) (rq : AnswerRequest).
Hypothesis Hsole : sole_doc db (rq_questionnaireID rq) d.

(** With one predecessor at most, the first one found is the one the
    rule's filtered search finds. *)
Lemma subsequent_branch_sole :
  single_predecessor d = true ->
  existsb (fun q => qID q ==s rq_questionID rq) (questions d) = true ->
  subsequent_branch db rq =
  if existsb (fun P => points_to (rq_questionID rq) P
                       && chosen_points_to (session_history db rq) P (rq_questionID rq))
             (questions d)
  then Accept (new_answer rq) else Reject msg_cannot.
Proof.
  intros Hsp Hq. set (qid := rq_questionID rq).
  pose proof (single_predecessor_at _ _ Hsp Hq) as Hle.
  destruct (first_match (points_to qid) (questions d)) as [P|] eqn:HP.
  - destruct (first_match_Some _ _ _ HP) as [HPin HPpt].
    rewrite (subsequent_branch_first_pred _ _ _ Hsole P HP).
    rewrite (existsb_single_witness (points_to qid) _ _ P) by
      (done || (intros y Hy; by apply andb_prop in Hy as [? _])).
    rewrite HPpt. simpl. unfold chosen_points_to.
    destruct (last _) as [o|]; [|done].
    by rewrite (existsb_single_witness (points_to qid) _ _ P) by
      (done || (intros y; apply option_leads_points_to)).
  - apply first_match_None in HP.
    rewrite (subsequent_branch_no_pred _ _ _ Hsole HP).
    by rewrite existsb_andb_false_l.
Qed.
End Subsequent.

Lemma decide_answer_accept_inv db rq a :
  decide_answer db rq = Accept a -> a = new_answer rq.
Proof.
  unfold decide_answer, first_answer_branch, subsequent_branch.
  repeat case_match; congruence.
Qed.

Lemma walk_from_app d seen h a :
  walk_from d seen (h ++ [a]) =
  walk_from d seen h && answer_validb d a
  && match seen ++ h with [] => true | _ :: _ => existsb (fun b => edgeb d b a) (seen ++ h) end.
Proof.
  revert seen. induction h as [|x h IH]; intros seen; simpl.
  - rewrite app_nil_r. destruct (answer_validb d a), seen; simpl; btauto.
  - rewrite IH, <- app_assoc. simpl. btauto.
Qed.

Lemma walk_from_valid d seen h b :
  walk_from d seen h = true -> In b h -> answer_validb d b = true.
Proof.
  revert seen. induction h as [|x h IH]; intros seen; [done|]. simpl.
  intros [[Hx _]%andb_prop Hrest]%andb_prop [<-|Hb]; [done|eauto].
Qed.

Lemma in_all_options d q opt :
  In q (questions d) -> In opt (options q) -> In opt (concat (map options (questions d))).
Proof. intros Hq Ho. apply in_concat. exists (options q). split; [by apply in_map|done]. Qed.

(** An accepted answer names an existing question and option and, unless it
    is the session's first, follows an edge from one of the session's
    answers: the option recorded for the predecessor is, by uniqueness of
    option ids, the option the final query found. *)
Lemma accept_extends_walk db d rq :
  sole_doc db (rq_questionnaireID rq) d -> unique_option_ids d = true ->
  walkb d (session_history db rq) = true ->
  decide_answer db rq = Accept (new_answer rq) ->
  answer_validb d (new_answer rq) = true /\
  (session_history db rq = [] \/
   existsb (fun b => edgeb d b (new_answer rq)) (session_history db rq) = true).
Proof.
  intros Hsole Huniq Hwalk Hacc.
  rewrite (decide_answer_sole _ _ _ Hsole) in Hacc.
  destruct (existsb (question_has_option _ _) _) eqn:Hex; [|done]. split; [exact Hex|].
  simpl in Hacc. fold (session_history db rq) in Hacc.
  destruct (session_history db rq) as [|b0 l] eqn:Eh; [by left|right].
  destruct (first_match (points_to (rq_questionID rq)) (questions d)) as [P|] eqn:HP.
  2: { apply first_match_None in HP. by rewrite (subsequent_branch_no_pred _ _ _ Hsole HP) in Hacc. }
  rewrite (subsequent_branch_first_pred _ _ _ Hsole P HP), Eh in Hacc.
  destruct (last _) as [o|] eqn:Ho; [|done].
  destruct (existsb (fun q => existsb _ (options q)) (questions d)) eqn:Ht; [|done].
  apply last_map_In in Ho as (b & [Hb _]%filter_In & <-).
  apply existsb_exists in Ht as (q & Hq & (opt & Hopt & Ho')%existsb_exists).
  apply andb_prop in Ho' as [Hoid%js_streq_true Hnext%js_streq_true].
  pose proof (walk_from_valid _ _ _ _ Hwalk Hb) as Hvb.
  apply existsb_exists in Hvb as (qb & Hqb & Hvb). apply andb_prop in Hvb as [Hqbid Hvb].
  apply existsb_exists in Hvb as (optb & Hoptb & Hoptbid%js_streq_true).
  assert (optb = opt) as ->.
  { apply (NoDup_map_eq optID (concat (map options (questions d)))).
    - by apply bool_decide_eq_true in Huniq.
    - by apply (in_all_options d qb).
    - by apply (in_all_options d q).
    - by rewrite Hoptbid, Hoid. }
  apply existsb_exists. exists b. split; [done|].
  apply existsb_exists. exists qb. split; [done|]. rewrite Hqbid. simpl.
  apply existsb_exists. exists opt. split; [done|].
  simpl. by rewrite Hoid, Hnext, !js_streq_refl.
Qed.

Lemma post_answer_questionnaires db rq :
  questionnaires (fst (post_answer db rq)) = questionnaires db.
Proof. unfold post_answer. by destruct (decide_answer db rq). Qed.

Lemma post_answer_flow_inv db qnid d rq :
  sole_doc db qnid d -> unique_option_ids d = true -> flow_inv db qnid d ->
  flow_inv (fst (post_answer db rq)) qnid d.
Proof.
  intros Hsole Huniq Hinv sess. unfold post_answer.
  destruct (decide_answer db rq) eqn:Hd; simpl; [|apply Hinv|apply Hinv].
  pose proof (decide_answer_accept_inv _ _ _ Hd) as ->.
  rewrite find_session_answers_insert.
  destruct (_ && _) eqn:Hm; [|rewrite app_nil_r; apply Hinv].
  apply andb_prop in Hm as [Hq%js_streq_true Hs%js_streq_true]. simpl in Hq, Hs. subst qnid sess.
  destruct (accept_extends_walk db d rq Hsole Huniq (Hinv _) Hd) as [Hv He].
  unfold walkb. rewrite walk_from_app. fold (session_history db rq).
  specialize (Hinv (rq_session rq)). unfold walkb in Hinv. fold (session_history db rq) in Hinv.
  rewrite Hinv, Hv. simpl.
  destruct He as [-> | He]; [done|]. by destruct (session_history db rq).
Qed.

(** ** Properties *)

(** No option leads to the question of [a]: no answer has an edge to it. *)
Lemma edgeb_no_pred d b a :
  existsb (points_to (qIDRef a)) (questions d) = false -> edgeb d b a = false.
Proof.
  intros Hn. apply not_true_iff_false. intros [q [Hq Hc]]%existsb_exists.
  apply andb_prop in Hc as [_ Ho].
  apply not_true_iff_false in Hn. apply Hn, existsb_exists. exists q. split; [done|].
  exact (option_leads_points_to _ _ _ Ho).
Qed.

(** The decision of postAnswer on one document without shared
    predecessors is the rules' decision. *)
Lemma decide_answer_spec db d rq :
  sole_doc db (rq_questionnaireID rq) d -> single_predecessor d = true ->
  decide_answer db rq = spec_decide d (session_history db rq) rq.
Proof.
  intros Hsole Hsp. rewrite (decide_answer_sole _ _ _ Hsole). unfold spec_decide.
  destruct (existsb (question_has_option _ _) (questions d)) eqn:Hex; [|done].
  simpl negb. cbv iota. fold (session_history db rq).
  destruct (session_history db rq) eqn:Eh.
  - apply first_answer_branch_sole; [done|]. by apply has_option_nonempty in Hex.
  - rewrite (subsequent_branch_sole _ _ _ Hsole Hsp (has_option_has_question _ _ _ Hex)), Eh.
    done.
Qed.

Lemma last_filter_nonempty (l : list Answer) p o :
  last (map ans (List.filter p l)) = Some o -> l <> [].
Proof. by destruct l. Qed.

(** Submissions handled one after the other decide and store as the
    specification's control flow. *)
Lemma run_answers_spec db qnid d rqs :
  sole_doc db qnid d -> single_predecessor d = true ->
  Forall (fun rq => rq_questionnaireID rq = qnid) rqs ->
  run_answers db rqs = spec_run d db rqs.
Proof.
  revert db. induction rqs as [|rq rqs IH]; intros db Hsole Hsp Hq; [done|].
  apply Forall_cons in Hq as [Hrq Hq]. subst qnid.
  change (run_answers db (rq :: rqs)) with (run_answers (fst (post_answer db rq)) rqs).
  rewrite IH by (try done; unfold sole_doc; by rewrite post_answer_questionnaires). simpl.
  f_equal. unfold post_answer. rewrite (decide_answer_spec db d rq Hsole Hsp).
  by destruct (spec_decide _ _ _).
Qed.

(** C1: on a database with one document for the questionnaire, when no
    question of it has two predecessor questions, postAnswer decides
    exactly as the specification's rules (existence, first answer by the
    linear required rule, later answers by the option chosen for the
    predecessor). *)
Theorem decide_answer_refines_spec db d rq :
  sole_doc db (rq_questionnaireID rq) d -> single_predecessor d = true ->
  decide_answer db rq = spec_decide d (session_history db rq) rq.
Proof. intros Hsole Hsp. exact (decide_answer_spec db d rq Hsole Hsp). Qed.

(** When the option ids of a questionnaire are unique and the sessions'
    answers to it are walks of its flow graph, they remain walks after any
    sequence of submissions handled by postAnswer: every answer names an
    existing question and option, and every answer after a session's first
    follows the option the session recorded for an earlier question. *)
Lemma run_answers_flow_inv db qnid d rqs :
  sole_doc db qnid d -> unique_option_ids d = true -> flow_inv db qnid d ->
  flow_inv (run_answers db rqs) qnid d.
Proof.
  revert db. induction rqs as [|rq rqs IH]; intros db Hsole Huniq Hinv; [done|].
  simpl. apply IH; [|done|by apply post_answer_flow_inv].
  unfold sole_doc. by rewrite post_answer_questionnaires.
Qed.

(** C18: when the requested question has several predecessor
    questions, postAnswer only looks at the first one [P1]: a session that
    never answered [P1] but chose, for another predecessor [P2], an option
    leading to the requested question (a diamond in the flow graph) is
    refused with "Cannot answer that question.", while the specification's
    rule, which filters the predecessors by the session's answers,
    accepts. *)
Theorem diamond_refused_spec_accepts db d rq P1 P2 o :
  sole_doc db (rq_questionnaireID rq) d ->
  existsb (question_has_option (rq_questionID rq) (rq_optionID rq)) (questions d) = true ->
  first_match (points_to (rq_questionID rq)) (questions d) = Some P1 ->
  In P2 (questions d) ->
  List.filter (fun a => qIDRef a ==s qID P1) (session_history db rq) = [] ->
  last (map ans (List.filter (fun a => qIDRef a ==s qID P2) (session_history db rq))) = Some o ->
  existsb (fun opt => (optID opt ==s o) && (nextqID opt ==s rq_questionID rq)) (options P2) = true ->
  decide_answer db rq = Reject msg_cannot /\
  spec_decide d (session_history db rq) rq = Accept (new_answer rq).
Proof.
  intros Hsole Hex HP1 HP2 Hno Ho Hopt.
  pose proof (last_filter_nonempty _ _ _ Ho) as Hh.
  split.
  - rewrite (decide_answer_sole _ _ _ Hsole), Hex. simpl negb. cbv iota.
    fold (session_history db rq). destruct (nonempty_cons _ Hh) as (a & l & Eh). rewrite Eh.
    rewrite (subsequent_branch_first_pred _ _ _ Hsole P1 HP1), Hno. done.
  - unfold spec_decide. rewrite Hex. simpl negb. cbv iota.
    destruct (nonempty_cons _ Hh) as (a & l & Eh). rewrite Eh.
    enough (existsb (fun P => points_to (rq_questionID rq) P &&
                              chosen_points_to (a :: l) P (rq_questionID rq)) (questions d) = true)
      as -> by done.
    apply existsb_exists. exists P2. split; [done|].
    rewrite (option_leads_points_to _ _ _ Hopt). unfold chosen_points_to. rewrite <- Eh, Ho. done.
Qed.

(** C19: when two questions share an option id, the final query of
    postAnswer finds the option of the wrong question: a session whose last
    answer to the predecessor [P] chose an option [o] of [P] that does not
    lead to the requested question is still accepted when another question
    [Q] has an option with the same id [o] leading there.  When the session
    answered no other predecessor of the requested question, the
    specification's rule refuses it. *)
Theorem shared_option_id_skips_question db d rq P Q o :
  sole_doc db (rq_questionnaireID rq) d ->
  existsb (question_has_option (rq_questionID rq) (rq_optionID rq)) (questions d) = true ->
  first_match (points_to (rq_questionID rq)) (questions d) = Some P ->
  last (map ans (List.filter (fun a => qIDRef a ==s qID P) (session_history db rq))) = Some o ->
  existsb (fun opt => (optID opt ==s o) && (nextqID opt ==s rq_questionID rq)) (options P) = false ->
  In Q (questions d) ->
  existsb (fun opt => (optID opt ==s o) && (nextqID opt ==s rq_questionID rq)) (options Q) = true ->
  (forall P', In P' (questions d) -> points_to (rq_questionID rq) P' = true -> P' <> P ->
     List.filter (fun a => qIDRef a ==s qID P') (session_history db rq) = []) ->
  decide_answer db rq = Accept (new_answer rq) /\
  spec_decide d (session_history db rq) rq = Reject msg_cannot.
Proof.
  intros Hsole Hex HP Ho HoP HQ HoQ Hother.
  pose proof (last_filter_nonempty _ _ _ Ho) as Hh.
  split.
  - rewrite (decide_answer_sole _ _ _ Hsole), Hex. simpl negb. cbv iota.
    fold (session_history db rq). destruct (nonempty_cons _ Hh) as (a & l & Eh). rewrite Eh.
    rewrite (subsequent_branch_first_pred _ _ _ Hsole P HP), Ho.
    enough (existsb (fun q => existsb (fun opt => (optID opt ==s o) && (nextqID opt ==s rq_questionID rq))
                                     (options q)) (questions d) = true) as -> by done.
    apply existsb_exists. eauto.
  - unfold spec_decide. rewrite Hex. simpl negb. cbv iota.
    destruct (nonempty_cons _ Hh) as (a & l & Eh). rewrite Eh.
    enough (existsb (fun P' => points_to (rq_questionID rq) P' &&
                               chosen_points_to (a :: l) P' (rq_questionID rq)) (questions d) = false)
      as -> by done.
    apply not_true_iff_false. intros [P' [HP' Hc]]%existsb_exists. apply andb_prop in Hc as [Hpt Hch].
    unfold chosen_points_to in Hch. rewrite <- Eh in Hch.
    destruct (decide (P' = P)) as [->|Hne].
    + rewrite Ho, HoP in Hch. discriminate.
    + rewrite (Hother P' HP' Hpt Hne) in Hch. discriminate.
Qed.


(** ** Independence of sessions *)

Lemma find_answers_to_insert_other db a qnid p sess :
  session a <> sess -> find_answers_to (insert_answer db a) qnid p sess = find_answers_to db qnid p sess.
Proof.
  intros Hs. unfold find_answers_to, insert_answer. simpl. rewrite List.filter_app. simpl.
  apply js_streq_false in Hs. rewrite Hs, andb_false_r. apply app_nil_r.
Qed.

Lemma find_session_answers_insert_other db a qnid sess :
  session a <> sess -> find_session_answers (insert_answer db a) qnid sess = find_session_answers db qnid sess.
Proof.
  intros Hs. rewrite find_session_answers_insert.
  apply js_streq_false in Hs. rewrite Hs, andb_false_r. apply app_nil_r.
Qed.

(** postAnswer reads the answers only through queries filtered by the
    session: an answer of another session changes none of its decisions. *)
Lemma decide_answer_insert_other db a rq :
  session a <> rq_session rq -> decide_answer (insert_answer db a) rq = decide_answer db rq.
Proof.
  intros Hs. unfold decide_answer, subsequent_branch. cbv zeta.
  change (find_answer_fields (insert_answer db a)) with (find_answer_fields db).
  change (find_predecessor (insert_answer db a)) with (find_predecessor db).
  rewrite find_session_answers_insert_other by done.
  destruct (find_answer_fields db _ _ _); [done|].
  destruct (find_session_answers db _ _); [done|].
  destruct (forEach_assign _ (find_predecessor db _ _) None) as [prev|]; [|done].
  by rewrite find_answers_to_insert_other.
Qed.

Lemma post_answer_fst db rq :
  fst (post_answer db rq) = db \/ fst (post_answer db rq) = insert_answer db (new_answer rq).
Proof.
  unfold post_answer. destruct (decide_answer db rq) eqn:E; simpl; [right|by left|by left].
  by rewrite (decide_answer_accept_inv _ _ _ E).
Qed.

Lemma decide_answer_after_other db rq1 rq2 :
  rq_session rq1 <> rq_session rq2 -> decide_answer (fst (post_answer db rq1)) rq2 = decide_answer db rq2.
Proof. intros Hs. destruct (post_answer_fst db rq1) as [->| ->]; [done|by apply decide_answer_insert_other]. Qed.

(** Submissions of two different sessions are independent, as the
    specification's concurrency model says: handled in either order, each
    gets the response it gets alone, and the stores reached hold the same
    questionnaires and the same answers up to their order. *)
Lemma post_answer_sessions_commute db rq1 rq2 :
  rq_session rq1 <> rq_session rq2 ->
  snd (post_answer (fst (post_answer db rq1)) rq2) = snd (post_answer db rq2) /\
  snd (post_answer (fst (post_answer db rq2)) rq1) = snd (post_answer db rq1) /\
  questionnaires (run_answers db [rq1; rq2]) = questionnaires (run_answers db [rq2; rq1]) /\
  Permutation (answers (run_answers db [rq1; rq2])) (answers (run_answers db [rq2; rq1])).
Proof.
  intros Hs. pose proof (decide_answer_after_other db rq1 rq2 Hs) as H12.
  pose proof (decide_answer_after_other db rq2 rq1 (not_eq_sym Hs)) as H21.
  unfold run_answers. simpl. unfold post_answer in *.
  destruct (decide_answer db rq1) eqn:E1, (decide_answer db rq2) eqn:E2;
    simpl in H12, H21 |- *; rewrite ?H12, ?H21; simpl; split_and!; try done;
    solve_Permutation.
Qed.

(** ** Witnesses *)

Lemma decide_answer_refines_spec_witness :
  sole_doc db_t "QT" qt /\ single_predecessor qt = true /\
  decide_answer db_t rq_t2 = spec_decide qt (session_history db_t rq_t2) rq_t2.
Proof.
  split; [reflexivity|split; [reflexivity|]].
  apply (decide_answer_refines_spec db_t qt rq_t2); reflexivity.
Defined.

Lemma diamond_refused_spec_accepts_witness :
  sole_doc db_m "QM" qdm /\
  first_match (points_to "M4") (questions qdm) = Some (q_ "M2" "FALSE" [opt_ "M2A" "M4"]) /\
  List.filter (fun a => qIDRef a ==s "M2") (session_history db_m rq_m4) = [] /\
  last (map ans (List.filter (fun a => qIDRef a ==s "M3") (session_history db_m rq_m4))) = Some "M3A" /\
  decide_answer db_m rq_m4 = Reject msg_cannot /\
  spec_decide qdm (session_history db_m rq_m4) rq_m4 = Accept (new_answer rq_m4).
Proof.
  assert (HP2 : In (q_ "M3" "FALSE" [opt_ "M3A" "M4"]) (questions qdm)) by (simpl; tauto).
  refine (conj eq_refl (conj eq_refl (conj eq_refl (conj eq_refl _)))).
  exact (diamond_refused_spec_accepts db_m qdm rq_m4 (q_ "M2" "FALSE" [opt_ "M2A" "M4"])
           (q_ "M3" "FALSE" [opt_ "M3A" "M4"]) "M3A" eq_refl eq_refl eq_refl HP2 eq_refl eq_refl eq_refl).
Defined.

Lemma shared_option_id_skips_question_witness :
  sole_doc (mkDB [qso] [new_answer rq_s1]) "QS" qso /\
  first_match (points_to "S3") (questions qso) = Some (q_ "S1" "TRUE" [opt_ "yes" "S2"; opt_ "no" "S3"]) /\
  decide_answer (mkDB [qso] [new_answer rq_s1]) rq_s3 = Accept (new_answer rq_s3) /\
  spec_decide qso (session_history (mkDB [qso] [new_answer rq_s1]) rq_s3) rq_s3 = Reject msg_cannot.
Proof.
  assert (Hother : forall P', In P' (questions qso) -> points_to "S3" P' = true ->
            P' <> q_ "S1" "TRUE" [opt_ "yes" "S2"; opt_ "no" "S3"] ->
            List.filter (fun a => qIDRef a ==s qID P') (session_history (mkDB [qso] [new_answer rq_s1]) rq_s3) = []).
  { intros P' HP' Hpt Hne. simpl in HP'.
    destruct HP' as [<-|[<-|[<-|[]]]]; [done|reflexivity|discriminate]. }
  assert (HQ : In (q_ "S2" "TRUE" [opt_ "yes" "S3"; opt_ "no" "-"]) (questions qso)) by (simpl; tauto).
  refine (conj eq_refl (conj eq_refl _)).
  exact (shared_option_id_skips_question (mkDB [qso] [new_answer rq_s1]) qso rq_s3
           (q_ "S1" "TRUE" [opt_ "yes" "S2"; opt_ "no" "S3"]) (q_ "S2" "TRUE" [opt_ "yes" "S3"; opt_ "no" "-"])
           "yes" eq_refl eq_refl eq_refl eq_refl eq_refl HQ eq_refl Hother).
Defined.
