(* ===== verification/Reads.v ===== *)
(** * Reads: the read endpoints of controllers/operational.js

    getQuestionnaire (lines 51-102), getQuestion (151-233),
    getSessionAnswers (511-568), getQuestionAnswers (617-664) and
    getExportAnswers (706-739), each a query, a 402 response on an empty
    result, the output records built with [forEach] and [map], and a sort
    with a compare callback ([JsSort]).  A TypeError inside a [.then]
    callback is caught by the chain's [.catch] and answered 500 [{ error }].
    The theorems: the answer saved by postAnswer is returned by
    getSessionAnswers (round trip), the outputs are sorted stable
    permutations of the stored data, and the CSV branch of getQuestion
    does not sort the options its JSON branch sorts. *)

From Stdlib Require Import ZArith Sorted Permutation.
From S2P Require Import Prelude JsSort Store DoAnswer.

(** [req.query.format == 'csv'] *)
Definition is_csv (format : option string) : bool := js_eq_opt format "csv".

(** ** getQuestionnaire *)

Definition question_head (q : Question) : QuestionHead :=
  mkQuestionHead (qID q) (qtext q) (required q) (qtype q).

(** [{ questionnaireID, questionnaireTitle, keywords, questions }] of a
    document read with the options projected out. *)
Definition questionnaire_view (d : Questionnaire) : QuestionnaireView :=
  mkQuestionnaireView (questionnaireID d) (questionnaireTitle d) (keywords d)
                      (map question_head (questions d)).

(** [questionnaire.questions.sort(compare)], [compare] on [qID]. *)
Definition sort_questions (v : QuestionnaireView) : QuestionnaireView :=
  mkQuestionnaireView (v_questionnaireID v) (v_questionnaireTitle v) (v_keywords v)
                      (js_sort (js_compare_by h_qID) (v_questions v)).

Definition get_questionnaire (db : DB) (qnid : string) (format : option string) : Response :=
  let result := find_questionnaire db qnid in
  match result with
  | [] => mkResponse 402 (BMessage msg_no_questionnaire)
  | _ :: _ =>
      if is_csv format then
        mkResponse 200 (BQuestionnaireCsv (map (fun q => sort_questions (questionnaire_view q)) result))
      else
        (* [result.forEach(q => { questionnaire = {...} })], then the sort *)
        match forEach_assign (fun q => Some (Some (questionnaire_view q))) result None with
        | Some (Some v) => mkResponse 200 (BQuestionnaire (sort_questions v))
        | _ => mkResponse 500 BError
        end
  end.

(** ** getQuestion *)

Definition json_question (qnid : string) (q : Question) : QuestionView QOption :=
  mkQuestionView qnid (qID q) (qtext q) (required q) (qtype q) (options q).

(** [options: q.questions[0].options.map(it => [it.optID, it.opttxt, it.nextqID])] *)
Definition csv_question (qnid : string) (q : Question) : QuestionView (list string) :=
  mkQuestionView qnid (qID q) (qtext q) (required q) (qtype q)
                 (map (fun it => [optID it; opttxt it; nextqID it]) (options q)).

(** [question.options.sort(compare)], [compare] reading the field [optID]:
    present on the options of the JSON branch, [undefined] on the arrays of
    the CSV branch. *)
Definition sort_options {O} (key : O -> option string) (v : QuestionView O) : QuestionView O :=
  mkQuestionView (qv_questionnaireID _ v) (qv_qID _ v) (qv_qtext _ v) (qv_required _ v) (qv_type _ v)
                 (js_sort (js_compare key) (qv_options v)).

Definition get_question (db : DB) (qnid qid : string) (format : option string) : Response :=
  let result := aggregate_question db qnid qid in
  match result with
  | [] => mkResponse 402 (BMessage msg_no_question)
  | _ :: _ =>
      if is_csv format then
        match mapM (fun qs => q0 ← qs !! 0; Some (sort_options (fun _ => None) (csv_question qnid q0))) result with
        | Some vs => mkResponse 200 (BQuestionCsv vs)
        | None => mkResponse 500 BError
        end
      else
        match forEach_assign (fun qs => q0 ← qs !! 0; Some (Some (json_question qnid q0))) result None with
        | Some (Some v) => mkResponse 200 (BQuestion (sort_options (fun o => Some (optID o)) v))
        | _ => mkResponse 500 BError
        end
  end.

(** ** The answer endpoints *)

Definition get_session_answers (db : DB) (qnid sess : string) (format : option string) : Response :=
  match find_session_answers db qnid sess with
  | [] => mkResponse 402 (BMessage msg_no_answers)
  | result =>
      (* [{ qID: a.qIDRef, ans: a.ans }], [answersArray.sort(compare)] on [qID] *)
      let answersArray := js_sort (js_compare_by fst) (map (fun a => (qIDRef a, ans a)) result) in
      if is_csv format
      then mkResponse 200 (BSessionAnswersCsv qnid sess (map (fun it => [fst it; snd it]) answersArray))
      else mkResponse 200 (BSessionAnswers qnid sess answersArray)
  end.

Definition get_question_answers (db : DB) (qnid qid : string) (format : option string) : Response :=
  match find_question_answers db qnid qid with
  | [] => mkResponse 402 (BMessage msg_no_answers)
  | result =>
      (* [{ session: a.session, ans: a.ans }], not sorted *)
      let answersArray := map (fun a => (session a, ans a)) result in
      if is_csv format
      then mkResponse 200 (BQuestionAnswersCsv qnid qid (map (fun it => [fst it; snd it]) answersArray))
      else mkResponse 200 (BQuestionAnswers qnid qid answersArray)
  end.

Definition get_export_answers (db : DB) (qnid : string) : Response :=
  match find_questionnaire_answers db qnid with
  | [] => mkResponse 402 (BMessage msg_no_questionnaire)
  | result =>
      (* [{ questionID: a.qIDRef, ans: a.ans }], sorted on [questionID] *)
      mkResponse 200 (BExport (js_sort (js_compare_by fst) (map (fun a => (qIDRef a, ans a)) result)))
  end.

(** ** Concrete data *)

(** A question whose options are stored out of [optID] order. *)
Definition qg1 : Question := q_ "G1" "TRUE" [opt_ "G1B" "G2"; opt_ "G1A" "G2"].
Definition qg : Questionnaire := mkQuestionnaire "QG" "options order" [] [qg1; q_ "G2" "FALSE" [opt_ "G2A" "-"]].
Definition db_g : DB := mkDB [qg] [].

(** ** Lemmas *)

Lemma last_map_option {A B} (g : A -> B) l : last (map g l) = option_map g (last l).
Proof.
  induction l as [|x l IH]; [done|]. cbn [map]. rewrite !last_cons, IH.
  by destruct (last l).
Qed.

Lemma filter_lookup0 {A} (p : A -> bool) l : List.filter p l !! 0 = first_match p l.
Proof. induction l as [|x l IH]; [done|]. simpl. by destruct (p x). Qed.

Lemma aggregate_question_sole db qnid qid d :
  sole_doc db qnid d ->
  aggregate_question db qnid qid =
  if existsb (fun q => qID q ==s qid) (questions d)
  then [List.filter (fun q => qID q ==s qid) (questions d)] else [].
Proof.
  intros Hsole. unfold aggregate_question.
  rewrite (List.filter_ext _ (fun x => (questionnaireID x ==s qnid) && existsb (fun q => qID q ==s qid) (questions x)))
    by (intros; apply andb_comm).
  rewrite (filter_andb_sole _ (fun x => existsb _ (questions x)) _ _ Hsole).
  by destruct (existsb _ _).
Qed.

Lemma sort_options_undefined {O} (v : QuestionView O) : sort_options (fun _ => None) v = v.
Proof. destruct v. unfold sort_options. simpl. by rewrite js_sort_zero. Qed.


(** ** Properties *)

(** C20: round trip.  After postAnswer saved a session's answer,
    getSessionAnswers for that questionnaire and session responds 200 with
    the session's [{ qID, ans }] pairs: they contain the submitted question
    and option, are sorted by [qID], and are exactly the earlier pairs
    followed by the new one, up to the order. *)
Theorem post_answer_then_session_answers db rq :
  decide_answer db rq = Accept (new_answer rq) ->
  exists L,
    get_session_answers (fst (post_answer db rq)) (rq_questionnaireID rq) (rq_session rq) None
    = mkResponse 200 (BSessionAnswers (rq_questionnaireID rq) (rq_session rq) L) /\
    In (rq_questionID rq, rq_optionID rq) L /\ Sorted (key_le fst) L /\
    Permutation L (map (fun a => (qIDRef a, ans a)) (session_history db rq)
                   ++ [(rq_questionID rq, rq_optionID rq)]).
Proof.
  intros Hacc. unfold post_answer. rewrite Hacc. simpl fst.
  unfold get_session_answers. rewrite find_session_answers_insert. simpl.
  rewrite !js_streq_refl. simpl. fold (session_history db rq).
  destruct (nonempty_cons (session_history db rq ++ [new_answer rq])) as (a0 & l0 & Eh);
    [by destruct (session_history db rq)|].
  exists (js_sort (js_compare_by fst)
            (map (fun a => (qIDRef a, ans a)) (session_history db rq ++ [new_answer rq]))).
  split; [by rewrite Eh|].
  destruct (js_sort_sorted_perm fst (map (fun a => (qIDRef a, ans a))
                                        (session_history db rq ++ [new_answer rq]))) as [Hs Hp].
  rewrite map_app in Hs, Hp |- *.
  split; [|split; [exact Hs|exact Hp]].
  eapply Permutation_in; [symmetry; exact Hp|]. apply in_or_app. right. by left.
Qed.

(** C21: the CSV branch of getQuestion does not sort the options: the
    options were mapped to [[optID, opttxt, nextqID]] arrays before the sort,
    the compare callback reads [a.optID] of an array, [undefined], and
    finds every pair equal.  The CSV response keeps the stored order of the
    options while the JSON response sorts them by [optID]. *)
Theorem get_question_csv_unsorted db qnid qid d q :
  sole_doc db qnid d ->
  first_match (fun q => qID q ==s qid) (questions d) = Some q ->
  get_question db qnid qid (Some "csv") = mkResponse 200 (BQuestionCsv [csv_question qnid q]) /\
  get_question db qnid qid None =
    mkResponse 200 (BQuestion (sort_options (fun o => Some (optID o)) (json_question qnid q))).
Proof.
  intros Hsole Hq. destruct (first_match_Some _ _ _ Hq) as [Hin Hp].
  unfold get_question. rewrite (aggregate_question_sole _ _ _ _ Hsole).
  assert (existsb (fun q => qID q ==s qid) (questions d) = true) as ->
    by (apply existsb_exists; eauto).
  unfold is_csv. simpl. rewrite filter_lookup0, Hq. simpl.
  by rewrite sort_options_undefined.
Qed.

(** GetQuestionnaire in JSON answers with the last document found
    under the id (the [forEach] keeps the last assignment): its id, title
    and keywords, and its questions without their options, sorted by [qID]
    and permuted from the stored ones. *)
Lemma get_questionnaire_json db qnid d :
  last (find_questionnaire db qnid) = Some d ->
  exists v, get_questionnaire db qnid None = mkResponse 200 (BQuestionnaire v) /\
    v_questionnaireID v = questionnaireID d /\ v_questionnaireTitle v = questionnaireTitle d /\
    v_keywords v = keywords d /\
    Sorted (key_le h_qID) (v_questions v) /\
    Permutation (v_questions v) (map question_head (questions d)).
Proof.
  intros Hd. unfold get_questionnaire.
  destruct (find_questionnaire db qnid) as [|d0 l] eqn:Ef; [done|].
  cbv beta iota zeta. change (is_csv None) with false. cbv iota.
  rewrite forEach_assign_last, last_map_option, Hd. simpl.
  eexists. split; [reflexivity|]. do 3 (split; [done|]).
  apply js_sort_sorted_perm.
Qed.

(** C22: getExportAnswers responds 402 "No questionnaire found." exactly
    when no answer to the questionnaire is stored, whether or not the
    questionnaire exists. *)
Theorem get_export_answers_402_iff db qnid :
  get_export_answers db qnid = mkResponse 402 (BMessage msg_no_questionnaire) <->
  forall a, In a (answers db) -> questionnaireIDRef a <> qnid.
Proof.
  unfold get_export_answers, find_questionnaire_answers. split.
  - intros H a Ha Hq. destruct (List.filter _ (answers db)) eqn:E; [|done].
    assert (In a []) as []. rewrite <- E. apply filter_In. split; [done|]. subst. apply js_streq_refl.
  - intros H. rewrite filter_false_nil; [done|].
    intros a Ha. apply js_streq_false. auto.
Qed.

(** ** Witnesses *)

Lemma post_answer_then_session_answers_witness :
  decide_answer db_a1 rq_a2 = Accept (new_answer rq_a2) /\
  exists L,
    get_session_answers (fst (post_answer db_a1 rq_a2)) "QQ000" "AAAA" None
    = mkResponse 200 (BSessionAnswers "QQ000" "AAAA" L) /\
    In ("Q02", "Q02A1") L /\ Sorted (key_le fst) L /\
    Permutation L (map (fun a => (qIDRef a, ans a)) (session_history db_a1 rq_a2) ++ [("Q02", "Q02A1")]).
Proof.
  split; [reflexivity|]. apply (post_answer_then_session_answers db_a1 rq_a2). reflexivity.
Defined.

(** The stored options G1B, G1A come out unsorted in CSV and sorted in JSON. *)
Lemma get_question_csv_unsorted_witness :
  sole_doc db_g "QG" qg /\ first_match (fun q => qID q ==s "G1") (questions qg) = Some qg1 /\
  (get_question db_g "QG" "G1" (Some "csv") = mkResponse 200 (BQuestionCsv [csv_question "QG" qg1]) /\
   get_question db_g "QG" "G1" None =
     mkResponse 200 (BQuestion (sort_options (fun o => Some (optID o)) (json_question "QG" qg1)))).
Proof.
  split; [reflexivity|split; [reflexivity|]].
  apply (get_question_csv_unsorted db_g "QG" "G1" qg qg1); reflexivity.
Defined.

