(* ===== verification/Server.v ===== *)
(** * Server: routing and the interleaving of requests with database writes

    app.js mounts the admin router (routes/admin.js) on
    [/intelliq_api/admin], then the operational router
    (routes/operational.js) on [/intelliq_api], then a handler answering
    404 [{ message: 'Endpoint not found.' }].  Express tries the routes in
    registration order; a literal segment matches case-insensitively, a
    [:param] matches one non-empty segment, and one trailing slash is
    allowed ([strict: false]).  A request's path is given by its segments
    after the leading slash, already percent-decoded as Express decodes
    [req.params], its query by [format], its upload by the documents of
    the file multer stored.

    The server is a state machine: the database, the connection state, the
    request ids seen, the writes started and not completed (each with the
    response it will send when it completes, if any) and the responses sent
    in order.  A step either handles a request ([handle] at the current
    state, its reads atomic), or completes any pending write, or changes
    the connection state.  Node runs one handler at a time but any number
    of writes may be in flight, so writes of different requests complete in
    any order and a request can be handled between another request's read
    and its write.

    Theorems: a request is left without response only by postAnswer's
    TypeError, never when questionnaire ids are unique; submissions sent one
    at a time, each answered before the next, store exactly what the
    specification's control flow ([FlowSpec.spec_run]) stores; two
    submissions of different sessions handled concurrently are serializable;
    two concurrent first answers of one session are both saved and break the
    walk invariant, where handled one after the other the second is refused;
    between resetall's response and its deletes every request is answered
    over the old store. As lemmas of the state machine: at most one response
    per request (by rule induction), every pending write can complete, and
    handling one request with its writes completed is the sequential handler
    [serve]. *)

From Stdlib Require Import Permutation.
From stdpp Require Import infinite.
From S2P Require Import Prelude Store DoAnswer FlowSpec Reads Admin.

(** ** Requests and routes *)

Inductive Method := GET | POST | OtherMethod.

#[export] Instance Method_eq_dec : EqDecision Method.
Proof. solve_decision. Defined.

Record Request := mkRequest {
  rmethod : Method;
  rpath : list string;                  (* segments after the leading '/' *)
  rformat : option string;              (* req.query.format *)
  rfile : option FileContent            (* what require gives for req.file, if any *)
}.

Inductive Route :=
  | RHealthCheck
  | RQuestionnaireUpd
  | RResetAll
  | RResetQ (qnid : string)
  | RGetQuestionnaire (qnid : string)
  | RGetQuestion (qnid qid : string)
  | RDoAnswer (rq : AnswerRequest)
  | RGetSessionAnswers (qnid sess : string)
  | RGetQuestionAnswers (qnid qid : string)
  | RExportAnswers (qnid : string)
  | RNotFound.

(** Case folding of the route regexps (flag [i]) on ASCII letters. *)
Definition ascii_lower (c : Ascii.ascii) : Ascii.ascii :=
  let n := Ascii.nat_of_ascii c in
  if (65 <=? n) && (n <=? 90) then Ascii.ascii_of_nat (n + 32) else c.

Fixpoint str_lower (s : string) : string :=
  match s with
  | EmptyString => EmptyString
  | String c s' => String (ascii_lower c) (str_lower s')
  end.

Inductive PatSeg := Lit (s : string) | Param.

(** The compiled path regexp: the parameters, or no match. *)
Fixpoint match_path (ps : list PatSeg) (segs : list string) : option (list string) :=
  match ps, segs with
  | [], [] => Some []
  | [], [s] => if s ==s "" then Some [] else None          (* trailing '/' *)
  | Lit l :: ps', s :: segs' => if str_lower s ==s l then match_path ps' segs' else None
  | Param :: ps', s :: segs' =>
      if present s then ps ← match_path ps' segs'; Some (s :: ps) else None
  | _, _ => None
  end.

Definition param (ps : list string) (i : nat) : string := default "" (ps !! i).

Definition RouteEntry : Type := Method * list PatSeg * (list string -> Route).

Definition admin_routes : list RouteEntry :=
  [ (GET, [Lit "healthcheck"], fun _ => RHealthCheck);
    (POST, [Lit "questionnaire_upd"], fun _ => RQuestionnaireUpd);
    (POST, [Lit "resetall"], fun _ => RResetAll);
    (POST, [Lit "resetq"; Param], fun ps => RResetQ (param ps 0)) ].

Definition operational_routes : list RouteEntry :=
  [ (GET, [Lit "questionnaire"; Param], fun ps => RGetQuestionnaire (param ps 0));
    (GET, [Lit "question"; Param; Param], fun ps => RGetQuestion (param ps 0) (param ps 1));
    (POST, [Lit "doanswer"; Param; Param; Param; Param],
     fun ps => RDoAnswer (mkAnswerRequest (param ps 0) (param ps 1) (param ps 2) (param ps 3)));
    (GET, [Lit "getsessionanswers"; Param; Param],
     fun ps => RGetSessionAnswers (param ps 0) (param ps 1));
    (GET, [Lit "getquestionanswers"; Param; Param],
     fun ps => RGetQuestionAnswers (param ps 0) (param ps 1));
    (GET, [Lit "exportanswers"; Param], fun ps => RExportAnswers (param ps 0)) ].

(** [app.use(path, router)] *)
Definition mount (prefix : list string) (rs : list RouteEntry) : list RouteEntry :=
  map (fun '(m, ps, f) => (m, map Lit prefix ++ ps, f)) rs.

Definition app_routes : list RouteEntry :=
  mount ["intelliq_api"; "admin"] admin_routes ++ mount ["intelliq_api"] operational_routes.

Fixpoint dispatch_in (rs : list RouteEntry) (m : Method) (segs : list string) : Route :=
  match rs with
  | [] => RNotFound
  | (m', ps, f) :: rs' =>
      if bool_decide (m = m') then
        match match_path ps segs with
        | Some params => f params
        | None => dispatch_in rs' m segs
        end
      else dispatch_in rs' m segs
  end.

Definition dispatch (m : Method) (segs : list string) : Route := dispatch_in app_routes m segs.

(** The request a client sends for a route: the documented endpoints. *)
Definition route_request (r : Route) : option (Method * list string) :=
  match r with
  | RHealthCheck => Some (GET, ["intelliq_api"; "admin"; "healthcheck"])
  | RQuestionnaireUpd => Some (POST, ["intelliq_api"; "admin"; "questionnaire_upd"])
  | RResetAll => Some (POST, ["intelliq_api"; "admin"; "resetall"])
  | RResetQ q => Some (POST, ["intelliq_api"; "admin"; "resetq"; q])
  | RGetQuestionnaire q => Some (GET, ["intelliq_api"; "questionnaire"; q])
  | RGetQuestion q i => Some (GET, ["intelliq_api"; "question"; q; i])
  | RDoAnswer rq =>
      Some (POST, ["intelliq_api"; "doanswer"; rq_questionnaireID rq; rq_questionID rq;
                   rq_session rq; rq_optionID rq])
  | RGetSessionAnswers q s => Some (GET, ["intelliq_api"; "getsessionanswers"; q; s])
  | RGetQuestionAnswers q i => Some (GET, ["intelliq_api"; "getquestionanswers"; q; i])
  | RExportAnswers q => Some (GET, ["intelliq_api"; "exportanswers"; q])
  | RNotFound => None
  end.

Definition route_params (r : Route) : list string :=
  match r with
  | RResetQ q | RGetQuestionnaire q | RExportAnswers q => [q]
  | RGetQuestion q i | RGetQuestionAnswers q i => [q; i]
  | RGetSessionAnswers q s => [q; s]
  | RDoAnswer rq => [rq_questionnaireID rq; rq_questionID rq; rq_session rq; rq_optionID rq]
  | _ => []
  end.

(** A read handler answers once its query has completed, with no write. *)
Definition handle (readyState : nat) (db : DB) (req : Request) : Outcome :=
  match dispatch (rmethod req) (rpath req) with
  | RHealthCheck => get_health_check readyState
  | RQuestionnaireUpd => post_questionnaire_upd (rfile req)
  | RResetAll => post_reset_all
  | RResetQ qnid => post_reset_q db qnid
  | RGetQuestionnaire qnid => Respond (get_questionnaire db qnid (rformat req)) []
  | RGetQuestion qnid qid => Respond (get_question db qnid qid (rformat req)) []
  | RDoAnswer rq => post_answer_outcome db rq
  | RGetSessionAnswers qnid sess => Respond (get_session_answers db qnid sess (rformat req)) []
  | RGetQuestionAnswers qnid qid => Respond (get_question_answers db qnid qid (rformat req)) []
  | RExportAnswers qnid => Respond (get_export_answers db qnid) []
  | RNotFound => Respond (mkResponse 404 (BMessage "Endpoint not found.")) []
  end.

(** ** The server state machine *)

(** A write in flight, with the response its [.then] sends. *)
Record Pending := mkPending { p_op : DbOp; p_reply : option (nat * Response) }.

Record Server := mkServer {
  s_db : DB;
  s_ready : nat;                       (* mongoose.connection.readyState *)
  s_seen : list nat;                   (* ids of the requests received *)
  s_pending : list Pending;
  s_out : list (nat * Response)        (* responses sent, in order *)
}.

(** server.js listens once the connection is established. *)
Definition init (db : DB) : Server := mkServer db 1 [] [] [].

Definition detach (op : DbOp) : Pending := mkPending op None.

(** Request [rid] has been handled with outcome [o]: its response is
    sent, or promised by the write it waits for, and the writes it
    started are in flight. *)
Definition record_outcome (s : Server) (rid : nat) (o : Outcome) : Server :=
  let seen := rid :: s_seen s in
  match o with
  | Respond r ops => mkServer (s_db s) (s_ready s) seen (s_pending s ++ map detach ops) (s_out s ++ [(rid, r)])
  | AfterWrite op r => mkServer (s_db s) (s_ready s) seen (s_pending s ++ [mkPending op (Some (rid, r))]) (s_out s)
  | NoResponse => mkServer (s_db s) (s_ready s) seen (s_pending s) (s_out s)
  end.

(** Request [rid] is handled at the current state. *)
Definition start (s : Server) (rid : nat) (req : Request) : Server :=
  record_outcome s rid (handle (s_ready s) (s_db s) req).

(** The [i]-th pending write completes: it is applied, and its response, if
    it has one, is sent. *)
Definition complete (s : Server) (i : nat) : option Server :=
  p ← s_pending s !! i;
  Some (mkServer (apply_op (s_db s) (p_op p)) (s_ready s) (s_seen s)
                 (delete i (s_pending s)) (s_out s ++ option_list (p_reply p))).

Definition set_ready (s : Server) (rs : nat) : Server :=
  mkServer (s_db s) rs (s_seen s) (s_pending s) (s_out s).

Inductive step : Server -> Server -> Prop :=
  | step_request s rid req : rid ∉ s_seen s -> step s (start s rid req)
  | step_complete s i s' : complete s i = Some s' -> step s s'
  | step_connection s rs : step s (set_ready s rs).

Inductive steps : Server -> Server -> Prop :=
  | steps_refl s : steps s s
  | steps_cons s1 s2 s3 : step s1 s2 -> steps s2 s3 -> steps s1 s3.

Inductive reachable (db0 : DB) : Server -> Prop :=
  | reach_init : reachable db0 (init db0)
  | reach_step s s' : reachable db0 s -> step s s' -> reachable db0 s'.

(** The responses promised by the pending writes. *)
Definition replies (ps : list Pending) : list (nat * Response) :=
  flat_map (fun p => option_list (p_reply p)) ps.

(** Ids of the responses sent or promised. *)
Definition answered (s : Server) : list nat := map fst (s_out s ++ replies (s_pending s)).

(** Every id answered or promised an answer is of a request received, and
    none twice. *)
Definition resp_inv (s : Server) : Prop :=
  NoDup (answered s) /\ forall x, x ∈ answered s -> x ∈ s_seen s.

(** ** Sequential semantics *)

(** A request handled with its writes completed at once, in order. *)
Definition serve (readyState : nat) (db : DB) (req : Request) : DB * option Response :=
  match handle readyState db req with
  | Respond r ops => (fold_left apply_op ops db, Some r)
  | AfterWrite op r => (apply_op db op, Some r)
  | NoResponse => (db, None)
  end.

(** Every pending write completed, in the order they were started. *)
Definition drained (s : Server) : Server :=
  mkServer (fold_left (fun db p => apply_op db (p_op p)) (s_pending s) (s_db s))
           (s_ready s) (s_seen s) [] (s_out s ++ replies (s_pending s)).

(** No two questionnaire documents share an id. *)
Definition ids_unique (db : DB) : bool := bool_decide (NoDup (map questionnaireID (questionnaires db))).

(** The four route parameters are non-empty. *)
Definition answer_request_ok (rq : AnswerRequest) : bool :=
  present (rq_questionnaireID rq) && present (rq_questionID rq)
  && present (rq_session rq) && present (rq_optionID rq).

Definition doanswer_request (rq : AnswerRequest) : Request :=
  mkRequest POST ["intelliq_api"; "doanswer"; rq_questionnaireID rq; rq_questionID rq;
                  rq_session rq; rq_optionID rq] None None.

(** ** Concrete runs *)

(** Session AAAA sends its first answer to Q01 twice, with both options. *)
Definition race_req1 : Request := doanswer_request (mkAnswerRequest "QQ000" "Q01" "AAAA" "Q01A1").

Definition resetall_req : Request := mkRequest POST ["intelliq_api"; "admin"; "resetall"] None None.
Definition session_req : Request :=
  mkRequest GET ["intelliq_api"; "getsessionanswers"; "QQ000"; "AAAA"] None None.

(** Submissions sent one at a time, each with a fresh request id and
    answered (its write completed) before the next is sent. *)
Fixpoint serial_run (s : Server) (rqs : list AnswerRequest) : Server :=
  match rqs with
  | [] => s
  | rq :: rqs' => serial_run (drained (start s (infinite_fresh (s_seen s)) (doanswer_request rq))) rqs'
  end.

(** Two submissions handled before either write completes, then the
    writes completed in the order they were started. *)
Definition concurrent2 (s : Server) (rid1 rid2 : nat) (rq1 rq2 : AnswerRequest) : Server :=
  drained (start (start s rid1 (doanswer_request rq1)) rid2 (doanswer_request rq2)).

(** ** Responses are sent at most once *)

Lemma replies_app ps1 ps2 : replies (ps1 ++ ps2) = replies ps1 ++ replies ps2.
Proof. apply flat_map_app. Qed.

Lemma replies_detach ops : replies (map detach ops) = [].
Proof. by induction ops. Qed.

#[export] Hint Rewrite replies_app replies_detach map_app app_nil_r : intelliq_rw.

Lemma replies_delete ps i p :
  ps !! i = Some p -> replies ps ≡ₚ option_list (p_reply p) ++ replies (delete i ps).
Proof.
  intros Hi. unfold replies. etrans; [apply Permutation_flat_map, (delete_Permutation _ _ _ Hi)|]. done.
Qed.

(** Handling a request adds its id to the answered ids at most once. *)
Lemma answered_record s rid o :
  answered (record_outcome s rid o) ≡ₚ answered s \/ answered (record_outcome s rid o) ≡ₚ answered s ++ [rid].
Proof.
  unfold record_outcome, answered. destruct o; simpl; autorewrite with intelliq_rw; simpl.
  - right. solve_Permutation.
  - right. solve_Permutation.
  - by left.
Qed.

Lemma answered_complete s i s' : complete s i = Some s' -> answered s' ≡ₚ answered s.
Proof.
  unfold complete. destruct (s_pending s !! i) as [p|] eqn:Hi; simpl; [|done].
  intros [= <-]. unfold answered. simpl.
  rewrite (replies_delete _ _ _ Hi), !map_app. solve_Permutation.
Qed.

Lemma complete_seen s i s' : complete s i = Some s' -> s_seen s' = s_seen s.
Proof. unfold complete. by destruct (s_pending s !! i); simpl; [intros [= <-]|]. Qed.

Lemma record_seen s rid o : s_seen (record_outcome s rid o) = rid :: s_seen s.
Proof. by destruct o. Qed.

Lemma start_seen s rid req : s_seen (start s rid req) = rid :: s_seen s.
Proof. apply record_seen. Qed.

(** A fresh request keeps [resp_inv], whatever its outcome. *)
Lemma resp_inv_record s rid o : resp_inv s -> rid ∉ s_seen s -> resp_inv (record_outcome s rid o).
Proof.
  intros [Hnd Hseen] Hfresh. unfold resp_inv. rewrite record_seen.
  destruct (answered_record s rid o) as [Hp|Hp]; split; try intros x; rewrite Hp.
  + done.
  + intros Hx. apply elem_of_cons. by right; apply Hseen.
  + apply NoDup_app. split_and!; [done| |by apply NoDup_singleton].
    intros x Hx ->%list_elem_of_singleton. by apply Hfresh, Hseen.
  + intros [Hx| ->%list_elem_of_singleton]%elem_of_app; apply elem_of_cons; [by right; apply Hseen|by left].
Qed.

(** A step that keeps the ids received and permutes the ids answered
    keeps [resp_inv]. *)
Lemma resp_inv_perm s s' :
  answered s' ≡ₚ answered s -> s_seen s' = s_seen s -> resp_inv s -> resp_inv s'.
Proof.
  intros Hp Hs [Hnd Hseen]. split; [by rewrite Hp|].
  intros x Hx. rewrite Hs. apply Hseen. by rewrite <- Hp.
Qed.

Lemma resp_inv_step s s' : resp_inv s -> step s s' -> resp_inv s'.
Proof.
  intros Hinv Hst. destruct Hst as [s rid req Hfresh|s i s' Hc|s rs].
  - by apply resp_inv_record.
  - apply (resp_inv_perm s); [by eapply answered_complete|by eapply complete_seen|done].
  - done.
Qed.

Lemma reachable_resp_inv db0 s : reachable db0 s -> resp_inv s.
Proof.
  induction 1 as [|s s' _ IH Hst]; [|by eapply resp_inv_step].
  split; [constructor|by intros x Hx%elem_of_nil].
Qed.

Lemma resp_inv_out s :
  resp_inv s -> NoDup (map fst (s_out s)) /\ (forall rid, rid ∈ map fst (s_out s) -> rid ∈ s_seen s).
Proof.
  intros [Hnd Hseen]. unfold answered in *. rewrite map_app in Hnd, Hseen.
  split; [by apply NoDup_app in Hnd as [? _]|].
  intros rid Hr. apply Hseen, elem_of_app. by left.
Qed.

(** ** Completing the pending writes *)

Lemma steps_trans s1 s2 s3 : steps s1 s2 -> steps s2 s3 -> steps s1 s3.
Proof. induction 1; [done|]. intros. econstructor; eauto. Qed.

Lemma reachable_steps db0 s s' : reachable db0 s -> steps s s' -> reachable db0 s'.
Proof. intros Hr Hs. revert Hr. induction Hs; [done|]. intros. apply IHHs. by econstructor. Qed.

Lemma steps_drained s : steps s (drained s).
Proof.
  destruct s as [db rs seen ps out]. revert db out.
  induction ps as [|p ps IH]; intros db out.
  - unfold drained. simpl. rewrite app_nil_r. constructor.
  - eapply steps_cons; [by apply (step_complete _ 0)|].
    specialize (IH (apply_op db (p_op p)) (out ++ option_list (p_reply p))).
    unfold drained in *. simpl in *. by rewrite <- app_assoc in IH.
Qed.

Lemma fold_detach ops db :
  fold_left (fun db p => apply_op db (p_op p)) (map detach ops) db = fold_left apply_op ops db.
Proof. revert db. induction ops as [|op ops IH]; intros db; [done|]. apply IH. Qed.

(** From a state with no write in flight, handling a request and
    completing its writes gives the sequential result. *)
Lemma drained_start s rid req :
  s_pending s = [] ->
  s_pending (drained (start s rid req)) = [] /\
  s_db (drained (start s rid req)) = fst (serve (s_ready s) (s_db s) req) /\
  s_out (drained (start s rid req)) =
  s_out s ++ option_list (option_map (pair rid) (snd (serve (s_ready s) (s_db s) req))).
Proof.
  intros Hp. unfold drained, start, record_outcome, serve.
  destruct (handle _ _ _); simpl; rewrite Hp; simpl; split_and!; try done.
  - apply fold_detach.
  - by autorewrite with intelliq_rw.
Qed.

Lemma dispatch_doanswer p1 p2 a b c d tail :
  str_lower p1 = "intelliq_api" -> str_lower p2 = "doanswer" ->
  present a = true -> present b = true -> present c = true -> present d = true ->
  tail = [] \/ tail = [""] ->
  dispatch POST ([p1; p2; a; b; c; d] ++ tail) = RDoAnswer (mkAnswerRequest a b c d).
Proof.
  intros H1 H2 Ha Hb Hc Hd Ht.
  unfold dispatch. simpl. rewrite H1, H2, Ha, Hb, Hc, Hd. simpl.
  by destruct Ht as [-> | ->].
Qed.

Lemma handle_doanswer_request rs db rq :
  answer_request_ok rq = true -> handle rs db (doanswer_request rq) = post_answer_outcome db rq.
Proof.
  unfold answer_request_ok. intros [[[Ha Hb]%andb_prop Hc]%andb_prop Hd]%andb_prop.
  unfold handle. simpl rmethod. simpl rpath.
  rewrite <- (app_nil_r [_; _; _; _; _; _]).
  rewrite (dispatch_doanswer "intelliq_api" "doanswer" _ _ _ _ [] eq_refl eq_refl Ha Hb Hc Hd (or_introl eq_refl)).
  by destruct rq.
Qed.

Lemma serve_doanswer rs db rq :
  answer_request_ok rq = true -> serve rs db (doanswer_request rq) = post_answer db rq.
Proof.
  intros Hok. unfold serve. rewrite handle_doanswer_request by done.
  unfold post_answer_outcome, post_answer. by destruct (decide_answer _ _).
Qed.

Lemma post_answer_after_other db rq1 rq2 :
  rq_session rq1 <> rq_session rq2 ->
  snd (post_answer (fst (post_answer db rq1)) rq2) = snd (post_answer db rq2).
Proof.
  intros Hs. pose proof (decide_answer_after_other db rq1 rq2 Hs) as E.
  revert E. generalize (fst (post_answer db rq1)). intros db' E.
  unfold post_answer. rewrite E. by destruct (decide_answer db rq2).
Qed.

Lemma filter_key_nodup {A} (f : A -> string) k l :
  NoDup (map f l) -> List.filter (fun x => f x ==s k) l = [] \/ exists x, List.filter (fun x => f x ==s k) l = [x].
Proof.
  induction l as [|x l IH]; [by left|]. simpl. intros [Hx Hnd]%NoDup_cons.
  destruct (f x ==s k) eqn:E; [|by apply IH].
  right. exists x. f_equal. apply js_streq_true in E as <-.
  apply filter_false_nil. intros y Hy. apply js_streq_false. intros Hyx.
  apply Hx, list_elem_of_In, in_map_iff. by exists y.
Qed.

Lemma not_elem_of_nat (x : nat) (l : list nat) : bool_decide (x ∈ l) = false -> x ∉ l.
Proof. by rewrite bool_decide_eq_false. Qed.

(** Submissions handled one at a time, each with a fresh id. *)
Lemma serial_run_db db0 s rqs :
  forallb answer_request_ok rqs = true -> reachable db0 s -> s_pending s = [] ->
  reachable db0 (serial_run s rqs) /\ s_pending (serial_run s rqs) = [] /\
  s_db (serial_run s rqs) = run_answers (s_db s) rqs.
Proof.
  revert s. induction rqs as [|rq rqs IH]; intros s Hok Hr Hp; [done|].
  simpl in Hok. apply andb_prop in Hok as [Hrq Hok]. cbn [serial_run].
  set (rid := infinite_fresh (s_seen s)).
  destruct (drained_start s rid (doanswer_request rq) Hp) as (Hp' & Hdb & _).
  destruct (IH (drained (start s rid (doanswer_request rq))) Hok) as (Hr' & Hp'' & Hdb'); [|done|].
  - eapply reachable_steps; [|apply steps_drained].
    eapply reach_step; [done|]. apply step_request, infinite_is_fresh.
  - split_and!; [done|done|]. rewrite Hdb', Hdb, serve_doanswer by done. done.
Qed.

(** Both submissions are handled before either write completes. *)
Lemma steps_concurrent2 s rid1 rid2 rq1 rq2 :
  rid1 ∉ s_seen s -> rid2 ∉ rid1 :: s_seen s -> steps s (concurrent2 s rid1 rid2 rq1 rq2).
Proof.
  intros F1 F2. eapply steps_cons; [by apply step_request|].
  eapply steps_cons; [apply step_request; by rewrite start_seen|apply steps_drained].
Qed.

(** Two accepted submissions handled concurrently: both are saved, in
    order, and both answered 200 once saved. *)
Lemma concurrent2_accept s rid1 rid2 rq1 rq2 :
  s_pending s = [] -> answer_request_ok rq1 = true -> answer_request_ok rq2 = true ->
  decide_answer (s_db s) rq1 = Accept (new_answer rq1) ->
  decide_answer (s_db s) rq2 = Accept (new_answer rq2) ->
  s_db (concurrent2 s rid1 rid2 rq1 rq2) = insert_answer (insert_answer (s_db s) (new_answer rq1)) (new_answer rq2) /\
  s_out (concurrent2 s rid1 rid2 rq1 rq2) =
    s_out s ++ [(rid1, mkResponse 200 (BAnswerSubmitted (new_answer rq1)));
                (rid2, mkResponse 200 (BAnswerSubmitted (new_answer rq2)))].
Proof.
  intros Hp O1 O2 E1 E2. unfold concurrent2, drained, start, record_outcome.
  rewrite !handle_doanswer_request by done. unfold post_answer_outcome. simpl.
  rewrite E1. simpl. rewrite E2, Hp. done.
Qed.

(** ** Properties *)

(** A POST to [/intelliq_api/doanswer/a/b/c/d], in any letter case
    and with or without a trailing slash, is handled by postAnswer with the
    four segments as questionnaire id, question id, session and option id,
    whatever the connection state and the query. *)
Lemma handle_doanswer rs db p1 p2 a b c d tail fmt file :
  str_lower p1 = "intelliq_api" -> str_lower p2 = "doanswer" ->
  present a = true -> present b = true -> present c = true -> present d = true ->
  tail = [] \/ tail = [""] ->
  handle rs db (mkRequest POST ([p1; p2; a; b; c; d] ++ tail) fmt file) =
  post_answer_outcome db (mkAnswerRequest a b c d).
Proof. intros. unfold handle. cbn [rmethod rpath]. by erewrite dispatch_doanswer. Qed.

(** Routing round trip: the request of every documented endpoint,
    with non-empty parameters, is dispatched to that endpoint with those
    parameters; no route shadows another. *)
Lemma dispatch_route_request r m path :
  route_request r = Some (m, path) -> forallb present (route_params r) = true ->
  dispatch m path = r.
Proof.
  destruct r as [| | |q|q|q i|[q i ss o]|q ss|q i|q|]; simpl; intros [= <- <-] Hp; try done;
    repeat match goal with H : _ && _ = true |- _ => apply andb_prop in H as [? ?] end;
    unfold dispatch; cbv -[present];
    repeat match goal with H : present _ = true |- _ => rewrite H; clear H end; reflexivity.
Qed.

(** In every reachable state of the server no request has received
    two responses, and every response answers a request received. *)
Lemma reachable_responses_unique db0 s :
  reachable db0 s ->
  NoDup (map fst (s_out s)) /\ (forall rid, rid ∈ map fst (s_out s) -> rid ∈ s_seen s).
Proof. intros Hr. by apply resp_inv_out, (reachable_resp_inv db0). Qed.

(** From any state, the writes in flight can all complete, and then
    every response they promised has been sent, after the ones already sent. *)
Lemma pending_writes_complete s :
  exists s', steps s s' /\ s_pending s' = [] /\ s_out s' = s_out s ++ replies (s_pending s).
Proof. exists (drained s). split; [apply steps_drained|done]. Qed.

(** From a state with no write in flight, handling a request and
    completing the writes it started reaches a state with no write in
    flight whose database and new response are those of the sequential
    handler [serve]. *)
Lemma serve_refinement s rid req :
  s_pending s = [] -> rid ∉ s_seen s ->
  exists s', steps s s' /\ s_pending s' = [] /\
             s_db s' = fst (serve (s_ready s) (s_db s) req) /\
             s_out s' = s_out s ++ option_list (option_map (pair rid) (snd (serve (s_ready s) (s_db s) req))).
Proof.
  intros Hp Hfresh. exists (drained (start s rid req)).
  split; [econstructor; [by constructor|apply steps_drained]|by apply drained_start].
Qed.

(** C5: submissions sent one at a time to the server, each answered
    before the next is sent, store exactly the answers the specification's
    rules accept, in order: on a database with one document [d] for the
    questionnaire, no question of which has two predecessor questions,
    the quiescent state reached from the initial one holds the database
    of [FlowSpec.spec_run]. *)
Theorem serial_answers_refine db0 d qnid rqs :
  sole_doc db0 qnid d -> single_predecessor d = true ->
  Forall (fun rq => rq_questionnaireID rq = qnid) rqs -> forallb answer_request_ok rqs = true ->
  reachable db0 (serial_run (init db0) rqs) /\ s_pending (serial_run (init db0) rqs) = [] /\
  s_db (serial_run (init db0) rqs) = spec_run d db0 rqs.
Proof.
  intros Hsole Hsp Hq Hok.
  destruct (serial_run_db db0 (init db0) rqs Hok (reach_init db0) eq_refl) as (Hr & Hp & Hdb).
  split_and!; [done|done|]. rewrite Hdb. exact (run_answers_spec _ _ _ _ Hsole Hsp Hq).
Qed.

(** C6: two first answers of one session to the questionnaire's first
    question (which no option leads to), sent together: both are handled
    before either save completes, both are accepted with 200 and both
    saved, so the session holds two answers to the first question, which
    no walk of the flow graph has.  Handled one after the other, the
    second is refused with "Cannot answer that question.". *)
Theorem concurrent_first_answers_race s rid1 rid2 d q0 rest rq1 rq2 :
  s_pending s = [] -> rid1 ∉ s_seen s -> rid2 ∉ rid1 :: s_seen s ->
  answer_request_ok rq1 = true -> answer_request_ok rq2 = true ->
  rq_questionnaireID rq2 = rq_questionnaireID rq1 -> rq_session rq2 = rq_session rq1 ->
  sole_doc (s_db s) (rq_questionnaireID rq1) d -> questions d = q0 :: rest ->
  existsb (points_to (qID q0)) (questions d) = false ->
  qID q0 = rq_questionID rq1 -> qID q0 = rq_questionID rq2 ->
  existsb (option_has_id (rq_optionID rq1)) (options q0) = true ->
  existsb (option_has_id (rq_optionID rq2)) (options q0) = true ->
  session_history (s_db s) rq1 = [] ->
  steps s (concurrent2 s rid1 rid2 rq1 rq2) /\
  s_out (concurrent2 s rid1 rid2 rq1 rq2) =
    s_out s ++ [(rid1, mkResponse 200 (BAnswerSubmitted (new_answer rq1)));
                (rid2, mkResponse 200 (BAnswerSubmitted (new_answer rq2)))] /\
  session_history (s_db (concurrent2 s rid1 rid2 rq1 rq2)) rq1 = [new_answer rq1; new_answer rq2] /\
  walkb d [new_answer rq1; new_answer rq2] = false /\
  snd (post_answer (fst (post_answer (s_db s) rq1)) rq2) = Some (mkResponse 402 (BMessage msg_cannot)).
Proof.
  intros Hp F1 F2 O1 O2 Hqn Hss Hsole Hqs Hnp Hid1 Hid2 Hop1 Hop2 Hh.
  assert (Hsole2 : sole_doc (s_db s) (rq_questionnaireID rq2) d) by (by rewrite Hqn).
  assert (Hh2 : session_history (s_db s) rq2 = []) by (unfold session_history in *; by rewrite Hqn, Hss).
  assert (E1 := decide_answer_first_question _ _ _ _ _ Hsole Hqs Hid1 Hop1 Hh).
  assert (E2 := decide_answer_first_question _ _ _ _ _ Hsole2 Hqs Hid2 Hop2 Hh2).
  destruct (concurrent2_accept s rid1 rid2 rq1 rq2 Hp O1 O2 E1 E2) as [Hdb Hout].
  split_and!; [by apply steps_concurrent2|exact Hout| | |].
  - rewrite Hdb. unfold session_history in *.
    rewrite !find_session_answers_insert, Hh. simpl. rewrite Hqn, Hss, !js_streq_refl. done.
  - unfold walkb. simpl. rewrite edgeb_no_pred; [by rewrite !andb_false_r|]. simpl. by rewrite <- Hid2.
  - unfold post_answer at 2. rewrite E1. simpl. unfold post_answer.
    rewrite (decide_answer_no_predecessor _ d); [done|exact Hsole2| | |].
    + rewrite Hqs. apply question_has_option_first; [done|exact Hop2].
    + unfold session_history. rewrite find_session_answers_insert. simpl.
      rewrite Hqn, Hss, !js_streq_refl. by destruct (find_session_answers _ _ _).
    + by rewrite <- Hid2.
Qed.

(** C23: resetall answers 200 "OK" before its deletes have run: right
    after its response the store is still the old one, with both deletes
    in flight, so any request handled before they complete is answered
    over the old store (a read returns the data resetall reported
    deleted); once they complete, the store is empty. *)
Theorem resetall_stale_read s rid rid' req :
  s_pending s = [] ->
  s_out (start s rid resetall_req) = s_out s ++ [(rid, mkResponse 200 (BStatus "OK"))] /\
  map p_op (s_pending (start s rid resetall_req)) = [DeleteAllQuestionnaires; DeleteAllAnswers] /\
  start (start s rid resetall_req) rid' req =
    record_outcome (start s rid resetall_req) rid' (handle (s_ready s) (s_db s) req) /\
  s_db (drained (start s rid resetall_req)) = mkDB [] [].
Proof.
  intros Hp. unfold start at 2 3 4 5. unfold handle at 1 2 3 4. cbn [rmethod rpath resetall_req].
  unfold post_reset_all. simpl. rewrite Hp. split_and!; reflexivity.
Qed.

(** C10: submissions of two different sessions sent together are
    serializable: both handled before either save completes, then the
    saves completed, the store is the one of handling them one after the
    other, and each gets the response it gets then.  Unlike the same
    session's submissions ([concurrent_first_answers_race]), different
    sessions do not race. *)
Theorem concurrent_sessions_serializable s rid1 rid2 rq1 rq2 :
  s_pending s = [] -> rid1 ∉ s_seen s -> rid2 ∉ rid1 :: s_seen s ->
  answer_request_ok rq1 = true -> answer_request_ok rq2 = true ->
  rq_session rq1 <> rq_session rq2 ->
  steps s (concurrent2 s rid1 rid2 rq1 rq2) /\
  s_db (concurrent2 s rid1 rid2 rq1 rq2) = run_answers (s_db s) [rq1; rq2] /\
  s_out (concurrent2 s rid1 rid2 rq1 rq2) ≡ₚ
    s_out s ++ option_list (pair rid1 <$> snd (post_answer (s_db s) rq1))
            ++ option_list (pair rid2 <$> snd (post_answer (fst (post_answer (s_db s) rq1)) rq2)).
Proof.
  intros Hp F1 F2 O1 O2 Hs. split; [by apply steps_concurrent2|].
  rewrite post_answer_after_other by done. unfold run_answers. simpl.
  unfold concurrent2, drained, start, record_outcome. rewrite !handle_doanswer_request by done. simpl.
  unfold post_answer_outcome. simpl.
  pose proof (decide_answer_after_other (s_db s) rq1 rq2 Hs) as E12.
  unfold post_answer in *.
  destruct (decide_answer (s_db s) rq1) eqn:E1, (decide_answer (s_db s) rq2) eqn:E2;
    simpl in *; rewrite ?E1, ?E2; simpl; rewrite ?E12, ?Hp; simpl;
    split_and!; try done; try solve_Permutation.
Qed.

(** C16: a request gets no response exactly when it is a postAnswer
    submission whose reads throw a TypeError (every other handler answers
    now or once the write it waits for completes); on a store where no two
    documents share a questionnaire id, every request gets a response. *)
Theorem handle_no_response_iff rs db req :
  (handle rs db req = NoResponse <->
   exists rq, dispatch (rmethod req) (rpath req) = RDoAnswer rq /\ decide_answer db rq = Throw) /\
  (ids_unique db = true -> handle rs db req <> NoResponse).
Proof.
  assert (Hiff : handle rs db req = NoResponse <->
                 exists rq, dispatch (rmethod req) (rpath req) = RDoAnswer rq /\ decide_answer db rq = Throw).
  { unfold handle. destruct (dispatch _ _);
      try (split; [discriminate|intros (? & ? & _); discriminate]).
    - rewrite get_health_check_total. split; [discriminate|intros (? & ? & _); discriminate].
    - unfold post_questionnaire_upd. split; [|intros (? & ? & _); discriminate].
      by repeat case_match.
    - unfold post_reset_q. split; [by case_match|intros (? & ? & _); discriminate].
    - unfold post_answer_outcome. split.
      + intros H. exists rq. split; [done|]. by destruct (decide_answer db rq).
      + intros (rq' & [= <-] & ->). done. }
  split; [exact Hiff|].
  intros Hu Hno. apply Hiff in Hno as (rq & _ & Hthrow).
  unfold ids_unique in Hu. apply bool_decide_eq_true in Hu.
  destruct (filter_key_nodup questionnaireID (rq_questionnaireID rq) _ Hu) as [Hnil | [d Hd]].
  - revert Hthrow. unfold decide_answer. replace (find_answer_fields _ _ _ _) with (@nil Questionnaire); [done|].
    symmetry. unfold find_answer_fields. apply filter_false_nil. intros x Hx.
    destruct (questionnaireID x ==s rq_questionnaireID rq) eqn:E; [|done].
    assert (In x (List.filter (fun x => questionnaireID x ==s rq_questionnaireID rq) (questionnaires db)))
      as Hin by (apply filter_In; done).
    by rewrite Hnil in Hin.
  - by apply (decide_answer_sole_no_throw db d rq).
Qed.

(** ** Witnesses *)

Lemma serial_answers_refine_witness :
  sole_doc (mkDB [qt] []) "QT" qt /\ single_predecessor qt = true /\
  s_db (serial_run (init (mkDB [qt] []))
          [mkAnswerRequest "QT" "T1" "S" "T1A"; mkAnswerRequest "QT" "T2" "S" "T2A";
           mkAnswerRequest "QT" "T4" "S" "T4A"]) =
  spec_run qt (mkDB [qt] [])
    [mkAnswerRequest "QT" "T1" "S" "T1A"; mkAnswerRequest "QT" "T2" "S" "T2A";
     mkAnswerRequest "QT" "T4" "S" "T4A"].
Proof.
  assert (HF : Forall (fun rq => rq_questionnaireID rq = "QT")
                 [mkAnswerRequest "QT" "T1" "S" "T1A"; mkAnswerRequest "QT" "T2" "S" "T2A";
                  mkAnswerRequest "QT" "T4" "S" "T4A"]) by (repeat constructor).
  split_and!; [reflexivity|reflexivity|].
  exact (proj2 (proj2 (serial_answers_refine (mkDB [qt] []) qt "QT" _ eq_refl eq_refl HF eq_refl))).
Defined.

Lemma concurrent_first_answers_race_witness :
  s_pending (init db_a) = [] /\ (1 ∉ s_seen (init db_a)) /\ (2 ∉ 1 :: s_seen (init db_a)) /\
  sole_doc db_a "QQ000" qq000 /\ existsb (points_to "Q01") (questions qq000) = false /\
  session_history db_a rq_a1 = [] /\
  s_out (concurrent2 (init db_a) 1 2 rq_a1 (mkAnswerRequest "QQ000" "Q01" "AAAA" "Q01A2")) =
    [(1, mkResponse 200 (BAnswerSubmitted (new_answer rq_a1)));
     (2, mkResponse 200 (BAnswerSubmitted (new_answer (mkAnswerRequest "QQ000" "Q01" "AAAA" "Q01A2"))))].
Proof.
  assert (F1 : 1 ∉ s_seen (init db_a)) by (apply not_elem_of_nat; reflexivity).
  assert (F2 : 2 ∉ 1 :: s_seen (init db_a)) by (apply not_elem_of_nat; reflexivity).
  refine (conj eq_refl (conj F1 (conj F2 (conj eq_refl (conj eq_refl (conj eq_refl _)))))).
  exact (proj1 (proj2 (concurrent_first_answers_race (init db_a) 1 2 qq000 qa1 [qa2; qa3] rq_a1
           (mkAnswerRequest "QQ000" "Q01" "AAAA" "Q01A2") eq_refl F1 F2 eq_refl eq_refl eq_refl eq_refl
           eq_refl eq_refl eq_refl eq_refl eq_refl eq_refl eq_refl eq_refl))).
Defined.

Lemma resetall_stale_read_witness :
  s_pending (init db_a1) = [] /\
  handle 1 db_a1 session_req = Respond (mkResponse 200 (BSessionAnswers "QQ000" "AAAA" [("Q01", "Q01A1")])) [] /\
  start (start (init db_a1) 1 resetall_req) 2 session_req =
    record_outcome (start (init db_a1) 1 resetall_req) 2 (handle 1 db_a1 session_req).
Proof.
  split_and!; [reflexivity|reflexivity|].
  exact (proj1 (proj2 (proj2 (resetall_stale_read (init db_a1) 1 2 session_req eq_refl)))).
Defined.

Lemma concurrent_sessions_serializable_witness :
  s_pending (init db_a) = [] /\ (1 ∉ s_seen (init db_a)) /\ (2 ∉ 1 :: s_seen (init db_a)) /\
  answer_request_ok rq_a1 = true /\ answer_request_ok (mkAnswerRequest "QQ000" "Q01" "BBBB" "Q01A1") = true /\
  rq_session rq_a1 <> rq_session (mkAnswerRequest "QQ000" "Q01" "BBBB" "Q01A1") /\
  s_db (concurrent2 (init db_a) 1 2 rq_a1 (mkAnswerRequest "QQ000" "Q01" "BBBB" "Q01A1")) =
    run_answers db_a [rq_a1; mkAnswerRequest "QQ000" "Q01" "BBBB" "Q01A1"].
Proof.
  assert (F1 : 1 ∉ s_seen (init db_a)) by (apply not_elem_of_nat; reflexivity).
  assert (F2 : 2 ∉ 1 :: s_seen (init db_a)) by (apply not_elem_of_nat; reflexivity).
  assert (Hs : rq_session rq_a1 <> rq_session (mkAnswerRequest "QQ000" "Q01" "BBBB" "Q01A1"))
    by (simpl; discriminate).
  refine (conj eq_refl (conj F1 (conj F2 (conj eq_refl (conj eq_refl (conj Hs _)))))).
  exact (proj1 (proj2 (concurrent_sessions_serializable (init db_a) 1 2 rq_a1
           (mkAnswerRequest "QQ000" "Q01" "BBBB" "Q01A1") eq_refl F1 F2 eq_refl eq_refl Hs))).
Defined.

Lemma handle_no_response_iff_witness :
  ids_unique db_a1 = true /\
  (handle 1 db_a1 race_req1 = NoResponse <->
   exists rq, dispatch (rmethod race_req1) (rpath race_req1) = RDoAnswer rq /\ decide_answer db_a1 rq = Throw) /\
  (ids_unique db_a1 = true -> handle 1 db_a1 race_req1 <> NoResponse).
Proof. split; [reflexivity|]. apply handle_no_response_iff. Defined.
