(* ===== verification/Frontend.v ===== *)
(** * Frontend: the export page of the React front end (frontend/src/Home.js)

    [Home] keeps [{ questionnaireId, data, error }].  Its buttons call
    [getUserList], which fetches
    [https://localhost:9103/intelliq_api/exportanswers/${questionnaireId}]
    (the id is put in the URL as it is, not encoded), throws
    'Questionnaire not found' on a 404, 'Failed to fetch data' on any other
    status that is not ok, and returns the JSON body otherwise.
    [downloadCSV] stores the data and clears the error, then clicks the
    [CSVLink], which writes the rows of [data] under [headers];
    [downloadJSON] writes the data to Answers.json without touching the
    state; both store a thrown error's message.  The page is written
    against a [Backend] (the response to a GET of a path, if any) and the
    [export_contract] it relies on; [server_backend], the backend's
    [Server.handle], meets the contract ([server_export_contract]), and
    [FaultyServer.faulty_backend] is the same backend over a failing
    store.  A request the backend never answers leaves the [await] pending
    and the state unchanged.  Each download is split at its [await]
    ([csv_settle], [json_settle]); [page_step] runs the page over time, a
    click starting a fetch with the id typed then and a fetch settling in
    any order, and [page_run] a sequence of such events.  One download at a
    time is [download_csv] and [download_json]
    ([sequential_downloads_refine]); two in flight race
    ([csv_downloads_race]); whatever the user does, the page only shows
    [getUserList]'s messages and saves whole exports
    ([page_saves_whole_exports], by the invariant [page_inv]).  The
    rendering and
    the bytes of the two files (CSV quoting, [JSON.stringify]) are output
    only and not modelled. *)

From Stdlib Require Import Ascii.
From S2P Require Import Prelude JsSort Store DoAnswer Reads Admin Server.

(** ** The URL *)

(** The path of an https URL split at '/' (and at '\', which the URL
    parser reads as '/'), up to a '?' or '#' (query and fragment are not
    part of the path). *)
Fixpoint split_path (s : string) : list string :=
  match s with
  | EmptyString => [""]
  | String c s' =>
      if Ascii.eqb c "/"%char || Ascii.eqb c "\"%char then "" :: split_path s'
      else if Ascii.eqb c "?"%char || Ascii.eqb c "#"%char then [""]
      else match split_path s' with
           | seg :: rest => String c seg :: rest
           | [] => [String c ""]
           end
  end.

Definition export_url (questionnaireId : string) : string :=
  "intelliq_api/exportanswers/" ++ questionnaireId.

(** ** The component *)

Record HomeState := mkHomeState {
  questionnaireId : string;
  data : Body;              (* the parsed JSON of the last successful fetch *)
  error : option string     (* [null] or the message shown *)
}.

Definition home_init : HomeState := mkHomeState "" (BExport []) None.

Inductive Fetched := FData (b : Body) | FError (msg : string).

(** [response.ok] *)
Definition response_ok (r : Response) : bool := (200 <=? status r) && (status r <=? 299).

(** What the page needs of the backend: the response to a GET of a path,
    or none when the backend never answers. *)
Record Backend := mkBackend { respond : list string -> option Response }.

(** The backend of [Server]: [handle] at a connection state and a store. *)
Definition outcome_response (o : Outcome) : option Response :=
  match o with Respond r _ | AfterWrite _ r => Some r | NoResponse => None end.

Definition server_backend (readyState : nat) (db : DB) : Backend :=
  mkBackend (fun path => outcome_response (handle readyState db (mkRequest GET path None None))).

Definition get_user_list (b : Backend) (questionnaireId : string) : option Fetched :=
  match respond b (split_path (export_url questionnaireId)) with
  | Some r =>
      Some (if response_ok r then FData (body r)
            else if status r =? 404 then FError "Questionnaire not found"
            else FError "Failed to fetch data")
  | None => None
  end.

(** [onChange={e => this.setState({ questionnaireId: e.target.value })}] *)
Definition set_questionnaire_id (st : HomeState) (v : string) : HomeState :=
  mkHomeState v (data st) (error st).

(** [downloadCSV] after its [await]: on success the data is stored and
    the error cleared (the CSV link is then clicked, see [csv_file]); a
    thrown error's message is stored.  [setState] merges into the state
    as it is when the fetch settles. *)
Definition csv_settle (f : Fetched) (st : HomeState) : HomeState :=
  match f with
  | FData d => mkHomeState (questionnaireId st) d None
  | FError m => mkHomeState (questionnaireId st) (data st) (Some m)
  end.

(** [downloadJSON] after its [await]: on success the fetched data is
    written to Answers.json and the state is not touched; a thrown error's
    message is stored.  The second component is the content of the file
    saved. *)
Definition json_settle (f : Fetched) (st : HomeState) : HomeState * option Body :=
  match f with
  | FData d => (st, Some d)
  | FError m => (mkHomeState (questionnaireId st) (data st) (Some m), None)
  end.

(** [downloadCSV] run to its end with no other event in between: the
    fetch of the id typed, then [csv_settle]; a fetch that never settles
    leaves the state as it is. *)
Definition download_csv (b : Backend) (st : HomeState) : HomeState :=
  match get_user_list b (questionnaireId st) with
  | Some f => csv_settle f st
  | None => st
  end.

(** [downloadJSON] run to its end with no other event in between. *)
Definition download_json (b : Backend) (st : HomeState) : HomeState * option Body :=
  match get_user_list b (questionnaireId st) with
  | Some f => json_settle f st
  | None => (st, None)
  end.

(** [headers]: the CSV columns, by label and by the key read in each
    object of [data]. *)
Definition csv_headers : list (string * string) := [("Question", "questionID"); ("Answer", "ans")].

(** The rows react-csv writes for an array of answers under [headers]:
    the labels, then the [questionID] and [ans] of each object. *)
Definition csv_rows (l : list (string * string)) : list (list string) :=
  map fst csv_headers :: map (fun p => [p.1; p.2]) l.

(** The rows react-csv's [CSVLink] writes for [data] and [headers]: the
    labels, then the [questionID] and [ans] of each object of the array.
    Only an array of answers has rows. *)
Definition csv_file (st : HomeState) : option (list (list string)) :=
  match data st with
  | BExport l => Some (csv_rows l)
  | _ => None
  end.

(** The sorted [{ questionID, ans }] pairs getExportAnswers returns. *)
Definition export_pairs (db : DB) (qnid : string) : list (string * string) :=
  js_sort (js_compare_by fst) (map (fun a => (qIDRef a, ans a)) (find_questionnaire_answers db qnid)).

(** A character the URL parser and Express leave as they are in a path
    segment: printable ASCII other than '/', '\', '?', '#' and '%'.  The
    parser of [fetch] splits an https path at '\' as at '/', ends it at
    '?' or '#', strips tabs, newlines and trailing spaces or control
    characters, and Express decodes '%' escapes. *)
Definition plain_char (c : Ascii.ascii) : bool :=
  let n := Ascii.nat_of_ascii c in
  (33 <=? n) && (n <=? 126) &&
  negb (Ascii.eqb c "/"%char || Ascii.eqb c "\"%char || Ascii.eqb c "?"%char ||
        Ascii.eqb c "#"%char || Ascii.eqb c "%"%char).

Fixpoint plain_chars (s : string) : bool :=
  match s with
  | EmptyString => true
  | String c s' => plain_char c && plain_chars s'
  end.

(** An id that reaches the backend as typed: plain characters, and not a
    dot segment ("." and ".." are resolved by the URL parser). *)
Definition plain_id (s : string) : bool := plain_chars s && negb (s ==s ".") && negb (s ==s "..").

(** The contract of the export endpoint the page relies on, for ids of
    plain characters: the empty id names no route (404), an id without
    answers is answered 402, any other id 200 with its answer pairs. *)
Definition export_contract (b : Backend) (pairs : string -> list (string * string)) : Prop :=
  forall id, plain_id id = true ->
  respond b ["intelliq_api"; "exportanswers"; id] =
    Some (if id ==s "" then mkResponse 404 (BMessage "Endpoint not found.")
          else match pairs id with
               | [] => mkResponse 402 (BMessage msg_no_questionnaire)
               | l => mkResponse 200 (BExport l)
               end).

(** ** The page over time

    A click starts [getUserList] with the id typed at that moment and
    returns at its [await]; the fetch settles later, in any order with the
    other fetches in flight, and its [setState] merges into the state as
    it is then.  [Page] is the component with its fetches in flight (the
    button and the id each one was started with, in the order of the
    clicks) and the files it has saved, newest first.  The CSV link is
    taken as clicked as soon as its [setState] has been applied (the
    [setTimeout] fires before any other fetch settles). *)

Inductive Button := BtnCSV | BtnJSON.

Inductive SavedFile := SavedCSV (rows : option (list (list string))) | SavedJSON (b : Body).

Record Page := mkPage {
  pg_home : HomeState;
  pg_inflight : list (Button * string);
  pg_saved : list SavedFile
}.

Definition page_init : Page := mkPage home_init [] [].

(** Typing in the input, clicking a button, fetch [i] (in click order)
    settling. *)
Inductive PageEvent := EType (v : string) | EClick (k : Button) | ESettle (i : nat).

(** The rest of a download once its fetch has settled: the new state and
    the files saved. *)
Definition settle_button (k : Button) (f : Fetched) (st : HomeState) : HomeState * list SavedFile :=
  match k with
  | BtnCSV =>
      let st' := csv_settle f st in
      (st', match f with FData _ => [SavedCSV (csv_file st')] | FError _ => [] end)
  | BtnJSON =>
      let (st', file) := json_settle f st in
      (st', match file with Some d => [SavedJSON d] | None => [] end)
  end.

(** One event; [None] when fetch [i] is not in flight or never settles. *)
Definition page_step (b : Backend) (pg : Page) (e : PageEvent) : option Page :=
  match e with
  | EType v => Some (mkPage (set_questionnaire_id (pg_home pg) v) (pg_inflight pg) (pg_saved pg))
  | EClick k =>
      Some (mkPage (pg_home pg) (pg_inflight pg ++ [(k, questionnaireId (pg_home pg))]) (pg_saved pg))
  | ESettle i =>
      match pg_inflight pg !! i with
      | None => None
      | Some (k, id) =>
          match get_user_list b id with
          | None => None
          | Some f =>
              let (st', files) := settle_button k f (pg_home pg) in
              Some (mkPage st' (delete i (pg_inflight pg)) (files ++ pg_saved pg))
          end
      end
  end.

Fixpoint page_run (b : Backend) (pg : Page) (es : list PageEvent) : option Page :=
  match es with
  | [] => Some pg
  | e :: es' => match page_step b pg e with Some pg' => page_run b pg' es' | None => None end
  end.

(** ** What the page can hold

    Against a backend meeting [export_contract] the page only ever shows
    one of the two messages of [getUserList], and every file it saves is
    a whole export of one id. *)

Definition error_ok (e : option string) : Prop :=
  e = None \/ e = Some "Questionnaire not found" \/ e = Some "Failed to fetch data".

(** The export of an id that is not empty and has answers. *)
Definition export_of (pairs : string -> list (string * string)) (d : Body) : Prop :=
  exists id, id <> "" /\ pairs id <> [] /\ d = BExport (pairs id).

Definition saved_ok (pairs : string -> list (string * string)) (f : SavedFile) : Prop :=
  match f with
  | SavedCSV rows => exists l, export_of pairs (BExport l) /\ rows = Some (csv_rows l)
  | SavedJSON d => export_of pairs d
  end.

(** The invariant of the page: the id typed and the ids of the fetches in
    flight are plain, the error is one of the messages, the data is
    empty or an export, and the files saved are exports. *)
Definition page_inv (pairs : string -> list (string * string)) (pg : Page) : Prop :=
  plain_id (questionnaireId (pg_home pg)) = true /\
  Forall (fun kf => plain_id kf.2 = true) (pg_inflight pg) /\
  error_ok (error (pg_home pg)) /\
  (data (pg_home pg) = BExport [] \/ export_of pairs (data (pg_home pg))) /\
  Forall (saved_ok pairs) (pg_saved pg).

(** Typing a plain id. *)
Definition event_plain (e : PageEvent) : bool :=
  match e with EType v => plain_id v | _ => true end.

(** ** Lemmas *)

Lemma split_path_plain_chars s : plain_chars s = true -> split_path s = [s].
Proof.
  induction s as [|c s IH]; [done|]. simpl.
  intros [Hc Hs]%andb_prop. unfold plain_char in Hc.
  destruct (Ascii.eqb c "/"%char), (Ascii.eqb c "\"%char), (Ascii.eqb c "?"%char), (Ascii.eqb c "#"%char);
    simpl in Hc; rewrite ?andb_false_r in Hc; try discriminate.
  simpl. by rewrite IH.
Qed.

Lemma split_path_plain s : plain_id s = true -> split_path s = [s].
Proof. unfold plain_id. intros [[Hs _]%andb_prop _]%andb_prop. by apply split_path_plain_chars. Qed.

Lemma split_export_url id :
  plain_id id = true -> split_path (export_url id) = ["intelliq_api"; "exportanswers"; id].
Proof. intros Hp. unfold export_url. simpl. by rewrite split_path_plain. Qed.

Lemma dispatch_export id :
  dispatch GET ["intelliq_api"; "exportanswers"; id] = if present id then RExportAnswers id else RNotFound.
Proof. cbv -[present]. by destruct (present id). Qed.

Lemma export_pairs_nil db id : export_pairs db id = [] <-> find_questionnaire_answers db id = [].
Proof.
  unfold export_pairs. pose proof (js_sort_sorted_perm fst (map (fun a => (qIDRef a, ans a)) (find_questionnaire_answers db id))) as [_ Hp].
  split; intros H.
  - rewrite H in Hp. apply Permutation_nil in Hp. by apply map_eq_nil in Hp.
  - rewrite H. done.
Qed.

(** The backend of [Server] meets the contract, with the pairs of
    getExportAnswers. *)
Lemma server_export_contract rs db : export_contract (server_backend rs db) (export_pairs db).
Proof.
  intros id Hp. unfold server_backend, handle. cbn [respond rmethod rpath].
  rewrite dispatch_export. unfold present. destruct (id ==s ""); simpl; [done|].
  unfold get_export_answers. destruct (export_pairs db id) eqn:E.
  - apply export_pairs_nil in E. by rewrite E.
  - destruct (find_questionnaire_answers db id) eqn:Ef; [by apply export_pairs_nil in Ef; congruence|].
    unfold export_pairs in E. rewrite Ef in E. simpl in E |- *. by rewrite E.
Qed.

(** What [getUserList] gives for a plain id, against the contract. *)
Lemma get_user_list_contract b pairs id :
  export_contract b pairs -> plain_id id = true ->
  get_user_list b id =
    Some (if id ==s "" then FError "Questionnaire not found"
          else match pairs id with
               | [] => FError "Failed to fetch data"
               | l => FData (BExport l)
               end).
Proof.
  intros Hb Hp. unfold get_user_list. rewrite split_export_url, Hb by done.
  destruct (id ==s ""); [done|]. by destruct (pairs id).
Qed.

(** The page's two buttons against any backend meeting the contract. *)
Lemma download_contract b pairs st :
  export_contract b pairs -> plain_id (questionnaireId st) = true ->
  let id := questionnaireId st in
  let err m := mkHomeState id (data st) (Some m) in
  (id = "" -> download_csv b st = err "Questionnaire not found" /\
              download_json b st = (err "Questionnaire not found", None)) /\
  (id <> "" -> pairs id = [] ->
   download_csv b st = err "Failed to fetch data" /\ download_json b st = (err "Failed to fetch data", None)) /\
  (id <> "" -> pairs id <> [] ->
   download_csv b st = mkHomeState id (BExport (pairs id)) None /\
   download_json b st = (st, Some (BExport (pairs id)))).
Proof.
  intros Hb Hp. cbv beta zeta. unfold download_csv, download_json, csv_settle, json_settle.
  rewrite (get_user_list_contract b pairs) by done.
  split_and!.
  - intros ->. done.
  - intros Hne Hnil. apply js_streq_false in Hne. by rewrite Hne, Hnil.
  - intros Hne Hnil. apply js_streq_false in Hne. rewrite Hne. by destruct (pairs (questionnaireId st)).
Qed.

(** A click followed at once by the settling of its fetch. *)
Lemma page_click_settle b pg k f :
  pg_inflight pg = [] -> get_user_list b (questionnaireId (pg_home pg)) = Some f ->
  page_run b pg [EClick k; ESettle 0] =
    Some (mkPage (settle_button k f (pg_home pg)).1 [] ((settle_button k f (pg_home pg)).2 ++ pg_saved pg)).
Proof.
  intros Hi Hf. simpl. rewrite Hi. simpl. rewrite Hf. by destruct (settle_button k f (pg_home pg)).
Qed.

Lemma export_of_nonempty pairs id x l :
  (id ==s "") = false -> pairs id = x :: l -> export_of pairs (BExport (x :: l)).
Proof. intros Hid Hp. exists id. apply js_streq_false in Hid. by rewrite Hp. Qed.

(** Every event keeps the invariant (against the contract). *)
Lemma page_step_inv b pairs pg e pg' :
  export_contract b pairs -> page_inv pairs pg -> event_plain e = true ->
  page_step b pg e = Some pg' -> page_inv pairs pg'.
Proof.
  intros Hb (Hid & Hin & Herr & Hd & Hs) He Hstep.
  destruct e as [v|k|i]; simpl in Hstep.
  - injection Hstep as <-. by split_and!.
  - injection Hstep as <-. split_and!; simpl; auto. apply Forall_app_2; [done|]. by constructor.
  - destruct (pg_inflight pg !! i) as [[k id]|] eqn:Hi; [|done].
    assert (Hp : plain_id id = true) by exact (Forall_lookup_1 _ _ _ _ Hin Hi).
    assert (Hin' := Forall_delete _ _ i Hin).
    rewrite (get_user_list_contract b pairs id Hb Hp) in Hstep.
    destruct (id ==s "") eqn:Hid0; [|destruct (pairs id) as [|x l] eqn:Hpid];
      destruct k; simpl in Hstep; injection Hstep as <-;
      split_and!; simpl; unfold error_ok; auto.
    all: try (right; by eapply export_of_nonempty).
    all: constructor; [|done]; simpl; eauto using export_of_nonempty.
Qed.

Lemma page_init_inv pairs : page_inv pairs page_init.
Proof. unfold page_inv, error_ok. simpl. split_and!; auto. Qed.

Lemma page_run_inv b pairs es pg pg' :
  export_contract b pairs -> page_inv pairs pg -> forallb event_plain es = true ->
  page_run b pg es = Some pg' -> page_inv pairs pg'.
Proof.
  intros Hb. revert pg. induction es as [|e es IH]; intros pg Hinv Hes Hrun; simpl in *.
  - by injection Hrun as <-.
  - apply andb_prop in Hes as [He Hes].
    destruct (page_step b pg e) as [pg1|] eqn:Hst; [|done].
    eapply IH; [|done|done]. by eapply page_step_inv.
Qed.

(** ** Properties *)

(** C25: the export page on a typed id, fetching from the backend: the
    empty id shows 'Questionnaire not found' (the URL names no route and
    the backend answers 404); an id without answers, stored questionnaire
    or not, shows 'Failed to fetch data' (402); otherwise downloadCSV
    stores the export, clears the error and writes the labels then one
    row per pair, sorted by question id, while downloadJSON saves the
    export and leaves the state, an earlier error message included, as it
    was. *)
Theorem download_outcomes rs db st :
  plain_id (questionnaireId st) = true ->
  let b := server_backend rs db in
  let id := questionnaireId st in
  let err m := mkHomeState id (data st) (Some m) in
  (id = "" -> download_csv b st = err "Questionnaire not found" /\
              download_json b st = (err "Questionnaire not found", None)) /\
  (id <> "" -> find_questionnaire_answers db id = [] ->
   download_csv b st = err "Failed to fetch data" /\
   download_json b st = (err "Failed to fetch data", None)) /\
  (id <> "" -> find_questionnaire_answers db id <> [] ->
   download_csv b st = mkHomeState id (BExport (export_pairs db id)) None /\
   csv_file (download_csv b st) = Some (["Question"; "Answer"] :: map (fun p => [p.1; p.2]) (export_pairs db id)) /\
   download_json b st = (st, Some (BExport (export_pairs db id)))).
Proof.
  intros Hp b id err.
  destruct (download_contract b (export_pairs db) st (server_export_contract rs db) Hp) as (H1 & H2 & H3).
  split_and!; [exact H1| |].
  - intros Hne Hnil. apply H2; [done|by apply export_pairs_nil].
  - intros Hne Hnil. destruct (H3 Hne) as [-> ->]; [by rewrite export_pairs_nil|]. done.
Qed.

(** One download at a time is the atomic model: from a page with
    no fetch in flight, clicking a button and letting its fetch settle
    before anything else gives the state and the file of [download_csv]
    and [download_json]; a fetch the backend never answers never settles. *)
Lemma sequential_downloads_refine b pg :
  pg_inflight pg = [] ->
  (get_user_list b (questionnaireId (pg_home pg)) = None -> forall k, page_run b pg [EClick k; ESettle 0] = None) /\
  (get_user_list b (questionnaireId (pg_home pg)) <> None ->
   page_run b pg [EClick BtnCSV; ESettle 0] =
     Some (mkPage (download_csv b (pg_home pg)) []
             (match get_user_list b (questionnaireId (pg_home pg)) with
              | Some (FData _) => [SavedCSV (csv_file (download_csv b (pg_home pg)))]
              | _ => []
              end ++ pg_saved pg)) /\
   page_run b pg [EClick BtnJSON; ESettle 0] =
     Some (mkPage (download_json b (pg_home pg)).1 []
             (match (download_json b (pg_home pg)).2 with Some d => [SavedJSON d] | None => [] end
              ++ pg_saved pg))).
Proof.
  intros Hi. split.
  - intros Hn k. simpl. rewrite Hi. simpl. by rewrite Hn.
  - intros Hs. destruct (get_user_list b (questionnaireId (pg_home pg))) as [f|] eqn:Hf; [|done].
    rewrite !(page_click_settle b pg _ f) by done. unfold download_csv, download_json. rewrite Hf.
    by destruct f.
Qed.

(** C26: two CSV downloads in flight race.  Type an id [a] whose export
    succeeds, click "Export to CSV", type an id [c] whose export fails,
    click again: if the second fetch settles first, the page ends showing
    [c] with no error, holding [a]'s answers, and has saved them as the
    CSV file; settled in click order, the same events end with [c]'s
    error shown. *)
Theorem csv_downloads_race b pg a c d m :
  pg_inflight pg = [] -> get_user_list b a = Some (FData d) -> get_user_list b c = Some (FError m) ->
  page_run b pg [EType a; EClick BtnCSV; EType c; EClick BtnCSV; ESettle 1; ESettle 0] =
    Some (mkPage (mkHomeState c d None) [] (SavedCSV (csv_file (mkHomeState c d None)) :: pg_saved pg)) /\
  page_run b pg [EType a; EClick BtnCSV; EType c; EClick BtnCSV; ESettle 0; ESettle 0] =
    Some (mkPage (mkHomeState c d (Some m)) [] (SavedCSV (csv_file (mkHomeState c d None)) :: pg_saved pg)).
Proof.
  intros Hi Ha Hc. split; simpl; rewrite Hi; simpl; rewrite ?Ha, ?Hc; simpl; by rewrite ?Ha, ?Hc.
Qed.

(** C27: whatever the user does (types plain ids, clicks, in any order,
    with the fetches settling in any order), the export page against the
    server only ever shows one of [getUserList]'s two messages, and every
    file it saves, CSV or JSON, holds the whole sorted export of one id
    that has answers, never a mixture and never an error body. *)
Theorem page_saves_whole_exports rs db es pg :
  forallb event_plain es = true -> page_run (server_backend rs db) page_init es = Some pg ->
  error_ok (error (pg_home pg)) /\ Forall (saved_ok (export_pairs db)) (pg_saved pg).
Proof.
  intros Hes Hrun.
  destruct (page_run_inv _ _ _ _ _ (server_export_contract rs db) (page_init_inv _) Hes Hrun)
    as (_ & _ & Herr & _ & Hs).
  done.
Qed.

(** ** Witnesses *)

Lemma download_outcomes_witness :
  plain_id "QQ000" = true /\
  (let st := mkHomeState "QQ000" (BExport []) (Some "Failed to fetch data") in
   ("QQ000" <> "" -> find_questionnaire_answers db_a1 "QQ000" <> [] ->
    download_csv (server_backend 1 db_a1) st = mkHomeState "QQ000" (BExport (export_pairs db_a1 "QQ000")) None /\
    csv_file (download_csv (server_backend 1 db_a1) st) =
      Some (["Question"; "Answer"] :: map (fun p => [p.1; p.2]) (export_pairs db_a1 "QQ000")) /\
    download_json (server_backend 1 db_a1) st = (st, Some (BExport (export_pairs db_a1 "QQ000"))))).
Proof.
  split; [reflexivity|]. intros st.
  apply (download_outcomes 1 db_a1 (mkHomeState "QQ000" (BExport []) (Some "Failed to fetch data"))).
  reflexivity.
Defined.

Lemma csv_downloads_race_witness :
  pg_inflight page_init = [] /\
  get_user_list (server_backend 1 db_a1) "QQ000" = Some (FData (BExport (export_pairs db_a1 "QQ000"))) /\
  get_user_list (server_backend 1 db_a1) "QQ999" = Some (FError "Failed to fetch data") /\
  page_run (server_backend 1 db_a1) page_init
    [EType "QQ000"; EClick BtnCSV; EType "QQ999"; EClick BtnCSV; ESettle 1; ESettle 0] =
    Some (mkPage (mkHomeState "QQ999" (BExport (export_pairs db_a1 "QQ000")) None) []
            [SavedCSV (csv_file (mkHomeState "QQ999" (BExport (export_pairs db_a1 "QQ000")) None))]).
Proof.
  assert (Ha : get_user_list (server_backend 1 db_a1) "QQ000" = Some (FData (BExport (export_pairs db_a1 "QQ000"))))
    by reflexivity.
  assert (Hc : get_user_list (server_backend 1 db_a1) "QQ999" = Some (FError "Failed to fetch data"))
    by reflexivity.
  split_and!; [reflexivity|exact Ha|exact Hc|].
  exact (proj1 (csv_downloads_race (server_backend 1 db_a1) page_init "QQ000" "QQ999" _ _ eq_refl Ha Hc)).
Defined.

Lemma page_saves_whole_exports_witness :
  forallb event_plain [EType "QQ000"; EClick BtnCSV; EClick BtnJSON; ESettle 1; ESettle 0] = true /\
  page_run (server_backend 1 db_a1) page_init [EType "QQ000"; EClick BtnCSV; EClick BtnJSON; ESettle 1; ESettle 0] =
    Some (mkPage (mkHomeState "QQ000" (BExport (export_pairs db_a1 "QQ000")) None) []
            [SavedCSV (Some (csv_rows (export_pairs db_a1 "QQ000"))); SavedJSON (BExport (export_pairs db_a1 "QQ000"))]) /\
  Forall (saved_ok (export_pairs db_a1))
    [SavedCSV (Some (csv_rows (export_pairs db_a1 "QQ000"))); SavedJSON (BExport (export_pairs db_a1 "QQ000"))].
Proof.
  assert (Hr : page_run (server_backend 1 db_a1) page_init
                 [EType "QQ000"; EClick BtnCSV; EClick BtnJSON; ESettle 1; ESettle 0] =
    Some (mkPage (mkHomeState "QQ000" (BExport (export_pairs db_a1 "QQ000")) None) []
            [SavedCSV (Some (csv_rows (export_pairs db_a1 "QQ000"))); SavedJSON (BExport (export_pairs db_a1 "QQ000"))]))
    by reflexivity.
  split_and!; [reflexivity|exact Hr|].
  exact (proj2 (page_saves_whole_exports 1 db_a1
    [EType "QQ000"; EClick BtnCSV; EClick BtnJSON; ESettle 1; ESettle 0] _ eq_refl Hr)).
Defined.
