(* ===== verification/App.v ===== *)
(** * App: the middleware of app.js and the uploaded file on disk

    Before the routers, app.js sets three CORS headers on every response
    (lines 18-23) and runs [multer({ storage: fileStorage }).single('file')]
    (line 25) on every request.  On a multipart request multer accepts at
    most one file part, under the field [file]; any other file part is a
    [MulterError] that Express's default error handler answers with a 500
    HTML page, and the files already written are removed.  The accepted
    file is written to [path.join(destination, filename)] with
    [destination] '../data' and [filename]
    [new Date().toISOString() + '-' + file.originalname] (lines 9-16), a
    path relative to the process's working directory; postQuestionnaireUpd
    then reads it back with [require(path.join(__dirname, '..', filePath))]
    (admin.js, lines 94-95), a path relative to the controllers' directory.

    Paths are lists of segments; an absolute path is resolved as Node does
    ([resolve]: "" and "." dropped, ".." removing the last segment).  The
    file system maps resolved paths to contents, the last write winning.
    [require] picks its loader by the longest registered extension of the
    base name ([findLongestRegisteredExtension] of Node's module loader):
    ".json" parses the file, ".node" opens a native addon, and any other
    name, the default, runs the file as a CommonJS module; a missing file
    or one its loader cannot read throws.  The stored name ends with the
    client's original name, so the client chooses the loader.  [require]
    goes through Node's module cache: a path required before gives its
    cached exports and the file is not read again; a successful load adds
    an entry, a throwing one none.  [AppState] is what the process keeps
    between requests, the disk and that cache, and [app_handle] threads it
    through a request.

    Theorems: the file is read back exactly when the process runs beside
    src/api-backend; the upload's error paths end to end; an upload not
    named *.json is executed by the server; nothing a request stores is
    ever released, and a cached path gives stale documents. *)

From Stdlib Require Import Ascii.
From S2P Require Import Prelude Store DoAnswer Admin Server.

(** ** Paths *)

(** One segment of a path resolved from the root: "" and "." are dropped,
    ".." goes up (and stays at the root).  The stack is reversed. *)
Definition norm_step (stack : list string) (seg : string) : list string :=
  if (seg ==s "") || (seg ==s ".") then stack
  else if seg ==s ".." then List.tl stack
  else seg :: stack.

(** [path.resolve] / [path.join] of an absolute path, as segments. *)
Definition resolve (segs : list string) : list string := rev (fold_left norm_step segs []).

Definition plain_seg (s : string) : bool := negb ((s ==s "") || (s ==s ".") || (s ==s "..")).

(** ** multer's disk storage (app.js, lines 9-16) *)

Definition multer_destination : string := "../data".

Definition multer_filename (now originalname : string) : string := now ++ "-" ++ originalname.

(** [file.path = path.join(destination, filename)] *)
Definition multer_path (now originalname : string) : string :=
  multer_destination ++ "/" ++ multer_filename now originalname.

(** The Node process: [process.cwd()] and the directory of app.js
    (src/api-backend), both absolute and resolved. *)
Record Process := mkProcess { cwd : list string; app_dir : list string }.

(** Where multer writes: [filePath] against the working directory. *)
Definition written_at (p : Process) (filePath : string) : list string :=
  resolve (cwd p ++ split_on "/"%char filePath).

(** [path.join(__dirname, '..', filePath)] with [__dirname] the
    controllers' directory. *)
Definition required_at (p : Process) (filePath : string) : list string :=
  resolve (app_dir p ++ ["controllers"; ".."] ++ split_on "/"%char filePath).

(** ** The file system and [require] *)

(** The uploaded bytes as Node's loaders read them: the JSON text of an
    array of documents, a JavaScript program with what it assigns to
    [module.exports] (its other effects are not modelled), or neither. *)
Inductive FileData :=
  | JsonFile (ds : list Questionnaire)
  | ScriptFile (exports : list Questionnaire)
  | OtherFile.

Definition FileSys : Type := list (list string * FileData).

Definition fs_write (fs : FileSys) (path : list string) (d : FileData) : FileSys := (path, d) :: fs.

Definition fs_read (fs : FileSys) (path : list string) : option FileData :=
  snd <$> List.find (fun e => bool_decide (e.1 = path)) fs.

(** The suffixes of a base name that start at a '.', longest first; a '.'
    at the start of the name (a dotfile) does not start an extension. *)
Fixpoint dot_suffixes (s : string) (at_start : bool) : list string :=
  match s with
  | EmptyString => []
  | String c s' =>
      if Ascii.eqb c "."%char && negb at_start then s :: dot_suffixes s' false
      else dot_suffixes s' false
  end.

(** The keys of [Module._extensions]. *)
Definition registered_ext (ext : string) : bool := (ext ==s ".js") || (ext ==s ".json") || (ext ==s ".node").

(** [findLongestRegisteredExtension]: the longest registered suffix of
    the base name, ".js" when there is none. *)
Definition longest_registered_ext (name : string) : string :=
  default ".js" (List.find registered_ext (dot_suffixes name true)).

(** [module.exports] of a program that does not assign it: an object
    without fields, which [insertMany] takes for one document with every
    field missing. *)
Definition empty_exports : list Questionnaire := [mkQuestionnaire "" "" [] []].

(** [Module._extensions[ext]]: ".json" parses the text, ".node" opens a
    native addon (which an upload is not), and ".js" runs the file as a
    CommonJS module: an array literal is a statement that exports nothing;
    a file that cannot be parsed throws. *)
Definition load (ext : string) (d : FileData) : FileContent :=
  if ext ==s ".json" then match d with JsonFile ds => Required ds | _ => RequireThrows end
  else if ext ==s ".node" then RequireThrows
  else match d with
       | ScriptFile ex => Required ex
       | JsonFile _ => Required empty_exports
       | OtherFile => RequireThrows
       end.

(** [require(path)]: the file's loader is chosen by its base name; a
    missing file throws. *)
Definition require_file (fs : FileSys) (path : list string) : FileContent :=
  match fs_read fs path with
  | Some d => load (longest_registered_ext (default "" (last path))) d
  | None => RequireThrows
  end.

(** Node's module cache ([require.cache]): the exports of every path
    required so far.  A loader that throws leaves no entry. *)
Definition ModuleCache : Type := list (list string * list Questionnaire).

Definition cache_lookup (c : ModuleCache) (path : list string) : option (list Questionnaire) :=
  snd <$> List.find (fun e => bool_decide (e.1 = path)) c.

(** [require(path)] through the cache: a cached path gives its exports
    without reading the file again. *)
Definition require_cached (c : ModuleCache) (fs : FileSys) (path : list string) : FileContent * ModuleCache :=
  match cache_lookup c path with
  | Some ex => (Required ex, c)
  | None =>
      match require_file fs path with
      | Required ex => (Required ex, (path, ex) :: c)
      | RequireThrows => (RequireThrows, c)
      end
  end.

(** What the process keeps between requests: the disk and the module
    cache. *)
Record AppState := mkAppState { a_fs : FileSys; a_cache : ModuleCache }.

(** ** The middleware chain *)

Record FilePart := mkFilePart { fieldname : string; originalname : string; fdata : FileData }.

(** A request as it reaches app.js: [parts] is [None] when the body is not
    multipart. *)
Record AppRequest := mkAppRequest {
  a_method : Method;
  a_path : list string;
  a_format : option string;
  a_parts : option (list FilePart)
}.

Inductive MulterResult := NoFile | OneFile (f : FilePart) | MulterError.

(** [.single('file')]: at most one file, under the field [file]. *)
Definition multer_single (parts : option (list FilePart)) : MulterResult :=
  match parts with
  | None => NoFile
  | Some ps =>
      if existsb (fun f => negb (fieldname f ==s "file")) ps then MulterError
      else match ps with [] => NoFile | [f] => OneFile f | _ => MulterError end
  end.

(** [res.setHeader(...)] of lines 19-21. *)
Definition cors_headers : list (string * string) :=
  [("Access-Control-Allow-Origin", "*"); ("Access-Control-Allow-Methods", "*");
   ("Access-Control-Allow-Headers", "*")].

(** The whole of app.js on one request at time [now]: the process state
    after multer and the handler, the headers, and the outcome of the
    routers.  Only postQuestionnaireUpd reads [req.file] and [require]s
    it; on any other route the stored file is left on the disk. *)
Definition app_handle (p : Process) (now : string) (st : AppState) (rs : nat) (db : DB)
    (r : AppRequest) : AppState * list (string * string) * Outcome :=
  match multer_single (a_parts r) with
  | MulterError => (st, cors_headers, Respond (mkResponse 500 BHtmlError) [])
  | NoFile => (st, cors_headers, handle rs db (mkRequest (a_method r) (a_path r) (a_format r) None))
  | OneFile f =>
      let fp := multer_path now (originalname f) in
      let fs' := fs_write (a_fs st) (written_at p fp) (fdata f) in
      match dispatch (a_method r) (a_path r) with
      | RQuestionnaireUpd =>
          let (content, c') := require_cached (a_cache st) fs' (required_at p fp) in
          (mkAppState fs' c', cors_headers,
           handle rs db (mkRequest (a_method r) (a_path r) (a_format r) (Some content)))
      | _ => (mkAppState fs' (a_cache st), cors_headers,
              handle rs db (mkRequest (a_method r) (a_path r) (a_format r) None))
      end
  end.

Definition upload_request (parts : list FilePart) : AppRequest :=
  mkAppRequest POST ["intelliq_api"; "admin"; "questionnaire_upd"] None (Some parts).

(** No '/' in a string: a file name given by the browser, an ISO date. *)
Fixpoint no_slash (s : string) : bool :=
  match s with
  | EmptyString => true
  | String c s' => negb (Ascii.eqb c "/"%char) && no_slash s'
  end.

(** [c] occurs in [s]. *)
Fixpoint has_char (c : Ascii.ascii) (s : string) : bool :=
  match s with
  | EmptyString => false
  | String c' s' => Ascii.eqb c' c || has_char c s'
  end.

(** ** Lemmas *)

Lemma split_on_no_slash s : no_slash s = true -> split_on "/"%char s = [s].
Proof.
  induction s as [|c s IH]; [done|]. simpl. intros [Hc Hs]%andb_prop.
  apply negb_true_iff in Hc. rewrite Hc, IH by done. done.
Qed.

Lemma no_slash_app a b : no_slash (a ++ b) = no_slash a && no_slash b.
Proof. induction a as [|c a IH]; [done|]. simpl. rewrite IH. apply andb_assoc. Qed.

Lemma split_multer_path now orig :
  no_slash now = true -> no_slash orig = true ->
  split_on "/"%char (multer_path now orig) = [".."; "data"; multer_filename now orig].
Proof.
  intros Hn Ho. unfold multer_path, multer_destination. simpl.
  rewrite split_on_no_slash; [done|]. unfold multer_filename.
  rewrite !no_slash_app, Hn. simpl. by rewrite Ho.
Qed.

Lemma app_char_nonempty a c b : ((a ++ String c b) ==s "") = false.
Proof. by destruct a. Qed.

(** The stored file name contains '-', so it is neither "", "." nor "..". *)
Lemma plain_multer_filename now orig : plain_seg (multer_filename now orig) = true.
Proof.
  unfold plain_seg, multer_filename, js_streq.
  destruct now as [|c1 [|c2 now]]; simpl; [done|by destruct (Ascii.eqb c1 "."%char)|].
  destruct (Ascii.eqb c1 "."%char), (Ascii.eqb c2 "."%char); simpl; try done. by destruct now.
Qed.

Lemma fold_norm_plain p st :
  Forall (fun s => plain_seg s = true) p -> fold_left norm_step p st = rev p ++ st.
Proof.
  revert st. induction p as [|s p IH]; intros st Hp; [done|].
  inversion Hp as [|? ? Hs Hp']; subst. simpl.
  unfold norm_step at 2. unfold plain_seg in Hs.
  destruct ((s ==s "") || (s ==s ".")) eqn:E1; [simpl in Hs; discriminate|].
  destruct (s ==s "..") eqn:E2; [simpl in Hs; discriminate|].
  rewrite IH by done. by rewrite <- app_assoc.
Qed.

Lemma rev_tl_rev {A} (l : list A) : rev (List.tl (rev l)) = removelast l.
Proof.
  destruct l as [|x l] using rev_ind; [done|].
  rewrite rev_app_distr, removelast_last. simpl. apply rev_involutive.
Qed.

(** Where the file lands and where it is read: each one level above the
    starting directory, then data/<name>. *)
Lemma written_required_at p now orig :
  Forall (fun s => plain_seg s = true) (cwd p) -> Forall (fun s => plain_seg s = true) (app_dir p) ->
  no_slash now = true -> no_slash orig = true ->
  written_at p (multer_path now orig) = removelast (cwd p) ++ ["data"; multer_filename now orig] /\
  required_at p (multer_path now orig) = removelast (app_dir p) ++ ["data"; multer_filename now orig].
Proof.
  intros Hc Ha Hn Ho. unfold written_at, required_at, resolve.
  rewrite split_multer_path by done.
  rewrite !fold_left_app, (fold_norm_plain (cwd p)), (fold_norm_plain (app_dir p)) by done.
  pose proof (plain_multer_filename now orig) as Hf. unfold plain_seg in Hf.
  apply negb_true_iff, orb_false_iff in Hf as [[Hf1 Hf2]%orb_false_iff Hf3].
  split; simpl; unfold norm_step; simpl; rewrite ?Hf1, ?Hf2, ?Hf3; simpl;
    by rewrite app_nil_r, rev_tl_rev, <- app_assoc.
Qed.

Lemma fs_read_write fs path d : fs_read (fs_write fs path d) path = Some d.
Proof. unfold fs_read, fs_write. simpl. by rewrite bool_decide_eq_true_2. Qed.

Lemma fs_read_write_other fs w r d : w <> r -> fs_read (fs_write fs w d) r = fs_read fs r.
Proof. intros Hne. unfold fs_read, fs_write. simpl. by rewrite bool_decide_eq_false_2. Qed.

Lemma app_handle_headers p now st rs db r : (app_handle p now st rs db r).1.2 = cors_headers.
Proof. unfold app_handle. by repeat case_match. Qed.

Lemma require_cached_fresh c fs path :
  cache_lookup c path = None -> (require_cached c fs path).1 = require_file fs path.
Proof. unfold require_cached. intros Hc. rewrite ?Hc. by destruct (require_file fs path). Qed.

Lemma require_cached_hit c fs path ex :
  cache_lookup c path = Some ex -> require_cached c fs path = (Required ex, c).
Proof. unfold require_cached. by intros ->. Qed.

Lemma handle_upload rs db fmt file :
  handle rs db (mkRequest POST ["intelliq_api"; "admin"; "questionnaire_upd"] fmt file) =
  post_questionnaire_upd file.
Proof. reflexivity. Qed.

Lemma require_cached_grows c fs path x c' : require_cached c fs path = (x, c') -> c `suffix_of` c'.
Proof. unfold require_cached. repeat case_match; intros [= _ <-]; by auto using suffix_cons_r. Qed.

(** On the upload route, the file is stored and [require]d through the
    cache. *)
Lemma app_handle_upload p now st rs db orig d :
  app_handle p now st rs db (upload_request [mkFilePart "file" orig d]) =
  let fp := multer_path now orig in
  let fs' := fs_write (a_fs st) (written_at p fp) d in
  let rc := require_cached (a_cache st) fs' (required_at p fp) in
  (mkAppState fs' rc.2, cors_headers, post_questionnaire_upd (Some rc.1)).
Proof.
  unfold app_handle. simpl. by destruct (require_cached _ _ _).
Qed.

Lemma app_dash_neq (x b t : string) : has_char "-"%char t = false -> (x ++ String "-"%char b)%string <> t.
Proof.
  revert t. induction x as [|c x IH]; intros [|c' t] Ht; simpl; try discriminate.
  - intros [= <- _]. simpl in Ht. discriminate.
  - simpl in Ht. apply orb_false_iff in Ht as [_ Ht]. intros [= -> Heq]. by apply (IH t).
Qed.

Lemma registered_ext_dash (x b : string) : registered_ext (x ++ String "-"%char b)%string = false.
Proof.
  unfold registered_ext.
  rewrite !(proj2 (js_streq_false _ _)); [done| |..]; by apply app_dash_neq.
Qed.

Lemma dot_suffixes_app_dash (a b : string) f :
  dot_suffixes (a ++ String "-"%char b)%string f =
  map (fun x => (x ++ String "-"%char b)%string) (dot_suffixes a f) ++ dot_suffixes b false.
Proof.
  revert f. induction a as [|c a IH]; intros f; [done|]. simpl.
  destruct (Ascii.eqb c "."%char && negb f); simpl; by rewrite IH.
Qed.

Lemma find_app_false {A} (g : A -> bool) l1 l2 :
  Forall (fun x => g x = false) l1 -> List.find g (l1 ++ l2) = List.find g l2.
Proof. induction 1 as [|x l1 Hx _ IH]; [done|]. simpl. by rewrite Hx. Qed.

(** The stored name's extension is the one of the original name: every
    suffix that starts in the timestamp contains the '-' after it. *)
Lemma multer_filename_ext now orig :
  longest_registered_ext (multer_filename now orig) = longest_registered_ext (String "-"%char orig).
Proof.
  unfold longest_registered_ext, multer_filename.
  change ("-" ++ orig)%string with (String "-"%char orig).
  rewrite dot_suffixes_app_dash, find_app_false; [done|].
  apply List.Forall_map, List.Forall_forall. intros y _. apply registered_ext_dash.
Qed.

(** Run beside src/api-backend, a file under the field [file] reaches
    postQuestionnaireUpd as what [require] makes of it, by the loader of
    its original name's extension. *)
Lemma upload_reaches_handler p now st rs db orig d :
  Forall (fun s => plain_seg s = true) (cwd p) -> Forall (fun s => plain_seg s = true) (app_dir p) ->
  no_slash now = true -> no_slash orig = true -> removelast (cwd p) = removelast (app_dir p) ->
  cache_lookup (a_cache st) (required_at p (multer_path now orig)) = None ->
  (app_handle p now st rs db (upload_request [mkFilePart "file" orig d])).2 =
  post_questionnaire_upd (Some (load (longest_registered_ext (String "-"%char orig)) d)).
Proof.
  intros Hc Ha Hn Ho Hpar Hcache. destruct (written_required_at p now orig Hc Ha Hn Ho) as [Hw Hr].
  rewrite app_handle_upload. cbv zeta. cbn [snd]. rewrite require_cached_fresh by done.
  unfold require_file. rewrite Hr, <- Hpar, <- Hw, fs_read_write, Hw, <- (multer_filename_ext now orig).
  replace (removelast (cwd p) ++ ["data"; multer_filename now orig])
    with ((removelast (cwd p) ++ ["data"]) ++ [multer_filename now orig]) by (by rewrite <- app_assoc).
  by rewrite last_snoc.
Qed.

(** ** Properties *)

(** C32: the uploaded file is read back: the path postQuestionnaireUpd
    [require]s is the path multer wrote exactly when the server's working
    directory has the same parent as src/api-backend (for instance is that
    directory); started from the repository root, the upload lands one
    level above the repository and the handler looks in the repository. *)
Theorem upload_read_back_iff p now orig :
  Forall (fun s => plain_seg s = true) (cwd p) -> Forall (fun s => plain_seg s = true) (app_dir p) ->
  no_slash now = true -> no_slash orig = true ->
  required_at p (multer_path now orig) = written_at p (multer_path now orig) <->
  removelast (cwd p) = removelast (app_dir p).
Proof.
  intros Hc Ha Hn Ho. destruct (written_required_at p now orig Hc Ha Hn Ho) as [-> ->].
  split; [intros H; apply app_inv_tail in H; done|by intros ->].
Qed.

(** C33: app.js end to end on an upload to questionnaire_upd: every
    response carries the three CORS headers; run from a directory beside
    src/api-backend, a file under the field [file] reaches the handler as
    the loader of its extension reads it (the exception of a file the
    loader cannot read being a 500 HTML page); run from elsewhere, the handler finds no file and the
    answer is that 500 page; a file under another field is a MulterError
    answered with the same page. *)
Theorem questionnaire_upd_upload p now st rs db orig d :
  Forall (fun s => plain_seg s = true) (cwd p) -> Forall (fun s => plain_seg s = true) (app_dir p) ->
  no_slash now = true -> no_slash orig = true ->
  cache_lookup (a_cache st) (required_at p (multer_path now orig)) = None ->
  (forall r, (app_handle p now st rs db r).1.2 = cors_headers) /\
  (removelast (cwd p) = removelast (app_dir p) ->
   (app_handle p now st rs db (upload_request [mkFilePart "file" orig d])).2 =
   post_questionnaire_upd (Some (load (longest_registered_ext (String "-"%char orig)) d))) /\
  (removelast (cwd p) <> removelast (app_dir p) -> fs_read (a_fs st) (required_at p (multer_path now orig)) = None ->
   (app_handle p now st rs db (upload_request [mkFilePart "file" orig d])).2 =
   Respond (mkResponse 500 BHtmlError) []) /\
  (forall field, field <> "file" ->
   (app_handle p now st rs db (upload_request [mkFilePart field orig d])).2 =
   Respond (mkResponse 500 BHtmlError) []).
Proof.
  intros Hc Ha Hn Ho Hcache. destruct (written_required_at p now orig Hc Ha Hn Ho) as [Hw Hr].
  split_and!.
  - intros r. apply app_handle_headers.
  - intros Hpar. by apply upload_reaches_handler.
  - intros Hpar Hnone. rewrite app_handle_upload. cbv zeta. cbn [snd].
    rewrite require_cached_fresh by done. unfold require_file.
    rewrite fs_read_write_other, Hnone; [done|].
    rewrite Hw, Hr. intros Heq. by apply app_inv_tail in Heq.
  - intros field Hf. unfold app_handle. simpl. apply js_streq_false in Hf. by rewrite Hf.
Qed.

(** C11: the upload handler runs uploaded code.  Run beside
    src/api-backend, a file posted under [file] whose original name has no
    registered extension or ends in ".js" is loaded by [require] as a
    CommonJS module: the server executes the file and inserts what it
    exports.  The JSON text of questionnaires under such a name (for
    instance "questionnaire.JSON") exports nothing and is refused with 500
    ValidationError. *)
Theorem upload_runs_as_script p now st rs db orig ex ds :
  Forall (fun s => plain_seg s = true) (cwd p) -> Forall (fun s => plain_seg s = true) (app_dir p) ->
  no_slash now = true -> no_slash orig = true -> removelast (cwd p) = removelast (app_dir p) ->
  cache_lookup (a_cache st) (required_at p (multer_path now orig)) = None ->
  longest_registered_ext (String "-"%char orig) = ".js" ->
  (app_handle p now st rs db (upload_request [mkFilePart "file" orig (ScriptFile ex)])).2 =
    post_questionnaire_upd (Some (Required ex)) /\
  (app_handle p now st rs db (upload_request [mkFilePart "file" orig (JsonFile ds)])).2 =
    Respond (mkResponse 500 (BStatusReason "failed" "ValidationError")) [].
Proof.
  intros Hc Ha Hn Ho Hpar Hcache Hext.
  rewrite !upload_reaches_handler by done. rewrite Hext. split; reflexivity.
Qed.

(** C12: app.js releases nothing a request leaves behind.  The disk and
    Node's module cache only grow: no stored upload is ever deleted and no
    cache entry evicted.  Every request that multer accepts a file from
    stores exactly that one file, on any route.  And a path already in the
    cache is never read again: a second upload of the same name within
    the same millisecond is answered with the documents of the first. *)
Theorem uploads_never_released p now st rs db r :
  a_fs st `suffix_of` a_fs (app_handle p now st rs db r).1.1 /\
  a_cache st `suffix_of` a_cache (app_handle p now st rs db r).1.1 /\
  length (a_fs (app_handle p now st rs db r).1.1) =
    length (a_fs st) + (match multer_single (a_parts r) with OneFile _ => 1 | _ => 0 end) /\
  (forall orig d ex, cache_lookup (a_cache st) (required_at p (multer_path now orig)) = Some ex ->
   (app_handle p now st rs db (upload_request [mkFilePart "file" orig d])).2 =
   post_questionnaire_upd (Some (Required ex))).
Proof.
  split_and!.
  - unfold app_handle. repeat case_match; simplify_eq/=; first [reflexivity | apply suffix_cons_r; reflexivity].
  - unfold app_handle. repeat case_match; simplify_eq/=; first [reflexivity | by eapply require_cached_grows].
  - unfold app_handle. repeat case_match; simplify_eq/=; lia.
  - intros orig d ex Hhit. rewrite app_handle_upload. cbv zeta.
    by rewrite (require_cached_hit _ _ _ _ Hhit).
Qed.

(** ** Witnesses *)

Lemma upload_read_back_iff_witness :
  Forall (fun s => plain_seg s = true) ["srv"; "intelliq"] /\
  Forall (fun s => plain_seg s = true) ["srv"; "intelliq"; "api-backend"] /\
  no_slash "2023-01-20T10:00:00.000Z" = true /\ no_slash "questionnaire.json" = true /\
  (required_at (mkProcess ["srv"; "intelliq"] ["srv"; "intelliq"; "api-backend"])
               (multer_path "2023-01-20T10:00:00.000Z" "questionnaire.json") =
   written_at (mkProcess ["srv"; "intelliq"] ["srv"; "intelliq"; "api-backend"])
              (multer_path "2023-01-20T10:00:00.000Z" "questionnaire.json") <->
   removelast ["srv"; "intelliq"] = removelast ["srv"; "intelliq"; "api-backend"]).
Proof.
  assert (H1 : Forall (fun s => plain_seg s = true) ["srv"; "intelliq"]) by (repeat constructor).
  assert (H2 : Forall (fun s => plain_seg s = true) ["srv"; "intelliq"; "api-backend"]) by (repeat constructor).
  split_and!; try assumption; try reflexivity.
  apply (upload_read_back_iff (mkProcess ["srv"; "intelliq"] ["srv"; "intelliq"; "api-backend"])); try assumption; reflexivity.
Defined.

Lemma questionnaire_upd_upload_witness :
  Forall (fun s => plain_seg s = true) ["srv"; "intelliq"; "api-backend"] /\
  no_slash "2023-01-20T10:00:00.000Z" = true /\ no_slash "questionnaire.json" = true /\
  cache_lookup [] (required_at (mkProcess ["srv"; "intelliq"; "api-backend"] ["srv"; "intelliq"; "api-backend"])
                     (multer_path "2023-01-20T10:00:00.000Z" "questionnaire.json")) = None /\
  let p := mkProcess ["srv"; "intelliq"; "api-backend"] ["srv"; "intelliq"; "api-backend"] in
  (forall r, (app_handle p "2023-01-20T10:00:00.000Z" (mkAppState [] []) 1 db_a r).1.2 = cors_headers) /\
  (removelast (cwd p) = removelast (app_dir p) ->
   (app_handle p "2023-01-20T10:00:00.000Z" (mkAppState [] []) 1 db_a
      (upload_request [mkFilePart "file" "questionnaire.json" (JsonFile [qq000])])).2 =
   post_questionnaire_upd (Some (Required [qq000]))) /\
  (removelast (cwd p) <> removelast (app_dir p) ->
   fs_read (a_fs (mkAppState [] [])) (required_at p (multer_path "2023-01-20T10:00:00.000Z" "questionnaire.json")) = None ->
   (app_handle p "2023-01-20T10:00:00.000Z" (mkAppState [] []) 1 db_a
      (upload_request [mkFilePart "file" "questionnaire.json" (JsonFile [qq000])])).2 =
   Respond (mkResponse 500 BHtmlError) []) /\
  (forall field, field <> "file" ->
   (app_handle p "2023-01-20T10:00:00.000Z" (mkAppState [] []) 1 db_a
      (upload_request [mkFilePart field "questionnaire.json" (JsonFile [qq000])])).2 =
   Respond (mkResponse 500 BHtmlError) []).
Proof.
  assert (H : Forall (fun s => plain_seg s = true) ["srv"; "intelliq"; "api-backend"]) by (repeat constructor).
  split; [exact H|]. split; [reflexivity|]. split; [reflexivity|]. split; [reflexivity|].
  apply (questionnaire_upd_upload (mkProcess ["srv"; "intelliq"; "api-backend"] ["srv"; "intelliq"; "api-backend"]));
    try assumption; reflexivity.
Defined.

Lemma upload_runs_as_script_witness :
  Forall (fun s => plain_seg s = true) ["srv"; "intelliq"; "api-backend"] /\
  no_slash "2023-01-20T10:00:00.000Z" = true /\ no_slash "questionnaire.JSON" = true /\
  cache_lookup [] (required_at (mkProcess ["srv"; "intelliq"; "api-backend"] ["srv"; "intelliq"; "api-backend"])
                     (multer_path "2023-01-20T10:00:00.000Z" "questionnaire.JSON")) = None /\
  longest_registered_ext (String "-"%char "questionnaire.JSON") = ".js" /\
  let p := mkProcess ["srv"; "intelliq"; "api-backend"] ["srv"; "intelliq"; "api-backend"] in
  ((app_handle p "2023-01-20T10:00:00.000Z" (mkAppState [] []) 1 db_a
      (upload_request [mkFilePart "file" "questionnaire.JSON" (ScriptFile [qq000])])).2 =
     post_questionnaire_upd (Some (Required [qq000])) /\
   (app_handle p "2023-01-20T10:00:00.000Z" (mkAppState [] []) 1 db_a
      (upload_request [mkFilePart "file" "questionnaire.JSON" (JsonFile [qq000])])).2 =
     Respond (mkResponse 500 (BStatusReason "failed" "ValidationError")) []).
Proof.
  assert (H : Forall (fun s => plain_seg s = true) ["srv"; "intelliq"; "api-backend"]) by (repeat constructor).
  split; [exact H|]. split; [reflexivity|]. split; [reflexivity|]. split; [reflexivity|]. split; [reflexivity|].
  apply (upload_runs_as_script (mkProcess ["srv"; "intelliq"; "api-backend"] ["srv"; "intelliq"; "api-backend"]));
    try assumption; reflexivity.
Defined.

Lemma uploads_never_released_witness :
  cache_lookup [(required_at (mkProcess ["srv"; "intelliq"; "api-backend"] ["srv"; "intelliq"; "api-backend"])
                   (multer_path "2023-01-20T10:00:00.000Z" "questionnaire.json"), [qq000])]
    (required_at (mkProcess ["srv"; "intelliq"; "api-backend"] ["srv"; "intelliq"; "api-backend"])
       (multer_path "2023-01-20T10:00:00.000Z" "questionnaire.json")) = Some [qq000] /\
  (app_handle (mkProcess ["srv"; "intelliq"; "api-backend"] ["srv"; "intelliq"; "api-backend"])
     "2023-01-20T10:00:00.000Z"
     (mkAppState [] [(required_at (mkProcess ["srv"; "intelliq"; "api-backend"] ["srv"; "intelliq"; "api-backend"])
                        (multer_path "2023-01-20T10:00:00.000Z" "questionnaire.json"), [qq000])]) 1 db_a
     (upload_request [mkFilePart "file" "questionnaire.json" (JsonFile [])])).2 =
  post_questionnaire_upd (Some (Required [qq000])).
Proof.
  split; [reflexivity|].
  apply (proj2 (proj2 (proj2 (uploads_never_released
    (mkProcess ["srv"; "intelliq"; "api-backend"] ["srv"; "intelliq"; "api-backend"]) "2023-01-20T10:00:00.000Z"
    (mkAppState [] [(required_at (mkProcess ["srv"; "intelliq"; "api-backend"] ["srv"; "intelliq"; "api-backend"])
                       (multer_path "2023-01-20T10:00:00.000Z" "questionnaire.json"), [qq000])]) 1 db_a
    (upload_request []))))).
  reflexivity.
Defined.
