(* ===== verification/Faults.v ===== *)
(** * Faults: postAnswer when a database call fails

    In controllers/operational.js the promise of the first
    [Questionnaire.find] carries the chain's [.catch], which answers 500
    [{ error }], and [answer.save()] has a [.catch] of its own, which
    answers 500 too.  The other four queries (the session's answers, the
    predecessor, the answers to it, the final option query) are started
    inside [.then] callbacks and their promises are not returned: when one
    of them is rejected the rejection is unhandled and no response is sent.
    [fails q] says whether call [q] is rejected; [post_answer_io] is
    postAnswer over such a store, and with a store that never fails it is
    [post_answer]. *)

From S2P Require Import Prelude Store DoAnswer.

Inductive Query :=
  | QAnswerFields     (* Questionnaire.find: the existence check (line 288) *)
  | QSessionAnswers   (* Answer.find: the session's answers (line 302) *)
  | QPredecessor      (* Questionnaire.find: the predecessor (line 389) *)
  | QAnswersTo        (* Answer.find: the answers to it (line 400) *)
  | QTelos            (* Questionnaire.find: the final option query (line 415) *)
  | QSave             (* answer.save() (line 332) *)
  | QRead             (* the one query of a read handler (lines 56, 157, 517, 623, 710) *)
  | QResetFind.       (* postResetQ: Questionnaire.find (admin.js, line 203) *)

#[export] Instance Query_eq_dec : EqDecision Query.
Proof. solve_decision. Defined.

(** How the reads end: a decision, a rejection the chain's [.catch]
    answers, or a rejection nobody handles. *)
Inductive IoDecision := IoDecide (d : Decision) | IoCaught | IoUnhandled.

Section WithFaults.

Variable fails : Query -> bool.

Definition subsequent_branch_io (db : DB) (rq : AnswerRequest) : IoDecision :=
  let qnid := rq_questionnaireID rq in
  let qid := rq_questionID rq in
  if fails QPredecessor then IoUnhandled else
  match forEach_assign (fun r => q ← r !! 0; Some (Some (qID q))) (find_predecessor db qnid qid) None with
  | None => IoDecide Throw
  | Some prev =>
      if fails QAnswersTo then IoUnhandled else
      match find_answers_to db qnid prev (rq_session rq) with
      | [] => IoDecide (Reject msg_cannot)
      | ap =>
          match forEach_assign (fun a => Some (Some (ans a))) ap None with
          | None => IoDecide Throw
          | Some ansprev =>
              if fails QTelos then IoUnhandled else
              match find_telos db qnid prev ansprev qid with
              | [] => IoDecide (Reject msg_cannot)
              | _ :: _ => IoDecide (Accept (new_answer rq))
              end
          end
      end
  end.

Definition decide_answer_io (db : DB) (rq : AnswerRequest) : IoDecision :=
  if fails QAnswerFields then IoCaught else
  let result := find_answer_fields db (rq_questionnaireID rq) (rq_questionID rq) (rq_optionID rq) in
  match result with
  | [] => IoDecide (Reject msg_fields)
  | _ :: _ =>
      if fails QSessionAnswers then IoUnhandled else
      match find_session_answers db (rq_questionnaireID rq) (rq_session rq) with
      | [] => IoDecide (first_answer_branch result rq)
      | _ :: _ => subsequent_branch_io db rq
      end
  end.

Definition post_answer_io (db : DB) (rq : AnswerRequest) : DB * option Response :=
  match decide_answer_io db rq with
  | IoCaught => (db, Some (mkResponse 500 BError))
  | IoUnhandled => (db, None)
  | IoDecide (Accept a) =>
      if fails QSave then (db, Some (mkResponse 500 BError))
      else (insert_answer db a, Some (mkResponse 200 (BAnswerSubmitted a)))
  | IoDecide (Reject m) => (db, Some (mkResponse 402 (BMessage m)))
  | IoDecide Throw => (db, None)
  end.

End WithFaults.

Definition reliable : Query -> bool := fun _ => false.

(** ** Lemmas *)

(** Each read either behaves as over a reliable store or ends in a
    rejection, caught or not. *)
Lemma decide_answer_io_cases fails db rq :
  decide_answer_io fails db rq = IoDecide (decide_answer db rq) \/
  decide_answer_io fails db rq = IoCaught \/ decide_answer_io fails db rq = IoUnhandled.
Proof.
  unfold decide_answer_io, decide_answer, subsequent_branch_io, subsequent_branch. cbv zeta.
  repeat (case_match; try (by left); try (by right; left); try (by right; right)); simplify_eq; auto.
Qed.

Lemma decide_answer_io_reliable db rq : decide_answer_io reliable db rq = IoDecide (decide_answer db rq).
Proof.
  unfold decide_answer_io, decide_answer, subsequent_branch_io, subsequent_branch, reliable. cbv zeta.
  repeat case_match; congruence.
Qed.

(** ** Properties *)

(** Over a store that never fails, the fault-aware handler is
    postAnswer. *)
Lemma post_answer_io_reliable db rq : post_answer_io reliable db rq = post_answer db rq.
Proof.
  unfold post_answer_io, post_answer. rewrite decide_answer_io_reliable.
  by destruct (decide_answer db rq).
Qed.

(** A failing database call never corrupts the outcome: postAnswer
    then behaves as over a reliable store, or answers 500, or sends no
    response, and in the last two cases nothing is saved. *)
Lemma post_answer_io_degrades fails db rq :
  post_answer_io fails db rq = post_answer db rq \/
  post_answer_io fails db rq = (db, Some (mkResponse 500 BError)) \/
  post_answer_io fails db rq = (db, None).
Proof.
  unfold post_answer_io, post_answer.
  destruct (decide_answer_io_cases fails db rq) as [-> | [-> | ->]]; [|by right; left|by right; right].
  destruct (decide_answer db rq); [destruct (fails QSave)|..]; auto.
Qed.

(** C29: the error paths of postAnswer's database calls: a failure of the
    existence check is answered 500 by the chain's [.catch]; once it has
    succeeded, a failure of the session-answers query is an unhandled
    rejection and no response is ever sent (the specification asks for
    500); a failing save answers 500 and stores nothing. *)
Theorem post_answer_io_failures fails db rq :
  (fails QAnswerFields = true -> post_answer_io fails db rq = (db, Some (mkResponse 500 BError))) /\
  (fails QAnswerFields = false ->
   find_answer_fields db (rq_questionnaireID rq) (rq_questionID rq) (rq_optionID rq) <> [] ->
   fails QSessionAnswers = true -> post_answer_io fails db rq = (db, None)) /\
  (fails QSave = true -> fst (post_answer_io fails db rq) = db).
Proof.
  unfold post_answer_io, decide_answer_io. split_and!.
  - by intros ->.
  - intros -> Hne ->. by destruct (find_answer_fields _ _ _ _).
  - intros Hs. repeat case_match; simplify_eq; done.
Qed.
