(* ===== verification/FaultyServer.v ===== *)
(** * FaultyServer: the server when database calls and writes fail

    [Server] runs over a store whose calls all succeed.  Here any of them
    may be rejected, as MongoDB calls are when the store is unavailable or
    refuses a write, and the server reacts as the promise chains of the
    controllers make it:
    - a read handler's one query (operational.js, lines 56, 157, 517, 623,
      710) is rejected: its [.catch] answers 500 [{ error }];
    - postResetQ's [Questionnaire.find] (admin.js, line 203) is rejected:
      its [.catch] answers 500 [{ status: 'failed', reason }];
    - postAnswer's calls fail as [Faults.decide_answer_io] says, and its
      save is a write like the others;
    - a write in flight is rejected ([fail_write]): the database is left
      as it was; a request that waits for the write gets the 500 of the
      write's [.catch] (answer.save(): 500 [{ error }], operational.js,
      line 340; insertMany: 500 [{ status: 'failed', reason }], admin.js,
      line 104); the deletes of resetall and resetq are not awaited, their
      [.catch] only logs, and their request has already had its 200.
    Which calls of a request fail is chosen when the request is handled
    ([fstep_request] takes any [fails]); which writes fail is chosen when
    they settle.  The start-up of server.js is the last part: reading the
    TLS files, connecting, listening.

    Theorems: the walk invariant of [FlowSpec] holds of any sequence of
    submissions whatever fails; a failure degrades a handler's outcome to a
    500 without writes or, for postAnswer only, to no response, never to
    another answer; resetall and resetq report 200 "OK" when their deletes
    fail and nothing was deleted; and with the store out of reach
    ([unreachable]: the connection not open, so Mongoose rejects every
    buffered call when its buffer times out) every request gets one
    response, a 500 but for resetall, an unknown endpoint and an upload
    without a file. As lemmas: with no failure every handler is the one of
    [Server]; in every state reachable with failures no request has two
    responses; whatever writes fail, the writes in flight settle and every
    request they hold gets its one response. *)

From stdpp Require Import relations.
From S2P Require Import Prelude Store DoAnswer FlowSpec Reads Admin Server Frontend Faults.

(** ** Handlers over a failing store *)

(** The error object a rejected call passes to its [.catch]; its content
    is not modelled. *)
Definition storage_error : string := "MongoServerError".

Section WithFaults.

Variable fails : Query -> bool.

(** postAnswer as an outcome: the existence check is caught, the nested
    queries are not, and the save is left to the server. *)
Definition post_answer_outcome_io (db : DB) (rq : AnswerRequest) : Outcome :=
  match decide_answer_io fails db rq with
  | IoCaught => Respond (mkResponse 500 BError) []
  | IoUnhandled => NoResponse
  | IoDecide (Accept a) => AfterWrite (InsertAnswer a) (mkResponse 200 (BAnswerSubmitted a))
  | IoDecide (Reject m) => Respond (mkResponse 402 (BMessage m)) []
  | IoDecide Throw => NoResponse
  end.

(** postResetQ: [.find(...).then(...).catch(error => res.status(500)...)]. *)
Definition post_reset_q_io (db : DB) (qnid : string) : Outcome :=
  if fails QResetFind then Respond (mkResponse 500 (BStatusReason "failed" storage_error)) []
  else post_reset_q db qnid.

(** A read handler: [.find(...).then(...).catch(err => res.status(500).json({ error: err }))]. *)
Definition read_io (r : Response) : Response :=
  if fails QRead then mkResponse 500 BError else r.

Definition handle_io (readyState : nat) (db : DB) (req : Request) : Outcome :=
  match dispatch (rmethod req) (rpath req) with
  | RHealthCheck => get_health_check readyState
  | RQuestionnaireUpd => post_questionnaire_upd (rfile req)
  | RResetAll => post_reset_all
  | RResetQ qnid => post_reset_q_io db qnid
  | RGetQuestionnaire qnid => Respond (read_io (get_questionnaire db qnid (rformat req))) []
  | RGetQuestion qnid qid => Respond (read_io (get_question db qnid qid (rformat req))) []
  | RDoAnswer rq => post_answer_outcome_io db rq
  | RGetSessionAnswers qnid sess => Respond (read_io (get_session_answers db qnid sess (rformat req))) []
  | RGetQuestionAnswers qnid qid => Respond (read_io (get_question_answers db qnid qid (rformat req))) []
  | RExportAnswers qnid => Respond (read_io (get_export_answers db qnid)) []
  | RNotFound => Respond (mkResponse 404 (BMessage "Endpoint not found.")) []
  end.

End WithFaults.

(** Submissions handled one after the other, each over a store whose
    calls [fails] picks are rejected (its save included). *)
Fixpoint run_answers_io (db : DB) (rqs : list ((Query -> bool) * AnswerRequest)) : DB :=
  match rqs with
  | [] => db
  | (fails, rq) :: rqs' => run_answers_io (fst (post_answer_io fails db rq)) rqs'
  end.

(** The export page's backend over a failing store. *)
Definition faulty_backend (fails : Query -> bool) (readyState : nat) (db : DB) : Backend :=
  mkBackend (fun path => outcome_response (handle_io fails readyState db (mkRequest GET path None None))).

(** ** Writes that fail *)

(** What the [.catch] of a rejected write sends to a request waiting for
    it.  Only answer.save() and insertMany have a waiting request. *)
Definition failed_write_response (op : DbOp) : Response :=
  match op with
  | InsertQuestionnaires _ => mkResponse 500 (BStatusReason "failed" storage_error)
  | _ => mkResponse 500 BError
  end.

(** The reply of a settled write: the promised one, or the failure's. *)
Definition settled_reply (failed : bool) (p : Pending) : option (nat * Response) :=
  (fun r => (r.1, if failed then failed_write_response (p_op p) else r.2)) <$> p_reply p.

(** The [i]-th pending write is rejected: nothing is written. *)
Definition fail_write (s : Server) (i : nat) : option Server :=
  p ← s_pending s !! i;
  Some (mkServer (s_db s) (s_ready s) (s_seen s) (delete i (s_pending s))
                 (s_out s ++ option_list (settled_reply true p))).

(** Request [rid] handled at the current state, the calls [fails] picks
    rejected. *)
Definition fstart (fails : Query -> bool) (s : Server) (rid : nat) (req : Request) : Server :=
  record_outcome s rid (handle_io fails (s_ready s) (s_db s) req).

Inductive fstep : Server -> Server -> Prop :=
  | fstep_request s rid req fails : rid ∉ s_seen s -> fstep s (fstart fails s rid req)
  | fstep_complete s i s' : complete s i = Some s' -> fstep s s'
  | fstep_fail s i s' : fail_write s i = Some s' -> fstep s s'
  | fstep_connection s rs : fstep s (set_ready s rs).

Definition freachable (db0 : DB) (s : Server) : Prop := rtc fstep (init db0) s.

(** Every write in flight settled in the order they were started, those
    [failing] picks rejected. *)
Definition settle (failing : Pending -> bool) (s : Server) : Server :=
  mkServer (fold_left (fun db p => if failing p then db else apply_op db (p_op p)) (s_pending s) (s_db s))
           (s_ready s) (s_seen s) []
           (s_out s ++ flat_map (fun p => option_list (settled_reply (failing p) p)) (s_pending s)).

(** The store out of reach while the connection is not open: Mongoose
    buffers each call and, when no connection comes, rejects it once the
    buffer times out, so every call and every write is rejected. *)
Definition unreachable : Query -> bool := fun _ => true.

(** ** Start-up (server.js) *)

(** [fs.readFileSync] of the key and the certificate (lines 10-11) throws
    when a file cannot be read, before anything else, and the process
    exits; a rejected [mongoose.connect] is only logged (lines 21-23) and
    nothing ever listens; once connected the HTTPS server listens (lines
    13-20) with the connection up. *)
Inductive Boot := Crashed | NotListening | Listening (s : Server).

Definition boot (keys_readable connect_ok : bool) (db : DB) : Boot :=
  if negb keys_readable then Crashed
  else if connect_ok then Listening (init db) else NotListening.

(** ** Concrete requests *)

Definition resetq_req (qnid : string) : Request :=
  mkRequest POST ["intelliq_api"; "admin"; "resetq"; qnid] None None.

Definition fails_read : Query -> bool := fun q => bool_decide (q = QRead).

(** resetall answered and its deletes rejected, then a read whose query
    is rejected. *)
Definition faulty_run : Server :=
  fstart fails_read (settle (fun _ => true) (fstart reliable (init db_a1) 1 resetall_req)) 2 session_req.

(** ** Lemmas *)

Lemma post_answer_outcome_io_reliable db rq :
  post_answer_outcome_io reliable db rq = post_answer_outcome db rq.
Proof.
  unfold post_answer_outcome_io, post_answer_outcome. rewrite decide_answer_io_reliable.
  by destruct (decide_answer db rq).
Qed.

(** A fault turns postAnswer's outcome into a 500 without writes or into
    no response. *)
Lemma post_answer_outcome_io_cases fails db rq :
  post_answer_outcome_io fails db rq = post_answer_outcome db rq \/
  post_answer_outcome_io fails db rq = Respond (mkResponse 500 BError) [] \/
  post_answer_outcome_io fails db rq = NoResponse.
Proof.
  unfold post_answer_outcome_io, post_answer_outcome.
  destruct (decide_answer_io_cases fails db rq) as [-> | [-> | ->]]; auto.
Qed.

Lemma dispatch_resetq qnid :
  present qnid = true -> dispatch POST ["intelliq_api"; "admin"; "resetq"; qnid] = RResetQ qnid.
Proof. intros H. unfold dispatch. cbv -[present]. by rewrite H. Qed.

Lemma settled_reply_false p : settled_reply false p = p_reply p.
Proof. unfold settled_reply. by destruct (p_reply p) as [[]|]. Qed.

Lemma settled_reply_ids b p : map fst (option_list (settled_reply b p)) = map fst (option_list (p_reply p)).
Proof. unfold settled_reply. by destruct (p_reply p). Qed.

Lemma answered_fail_write s i s' : fail_write s i = Some s' -> answered s' ≡ₚ answered s.
Proof.
  unfold fail_write. destruct (s_pending s !! i) as [p|] eqn:Hi; simpl; [|done].
  intros [= <-]. unfold answered. simpl.
  rewrite (replies_delete _ _ _ Hi), !map_app, settled_reply_ids. solve_Permutation.
Qed.

Lemma fail_write_seen s i s' : fail_write s i = Some s' -> s_seen s' = s_seen s.
Proof. unfold fail_write. by destruct (s_pending s !! i); simpl; [intros [= <-]|]. Qed.

Lemma resp_inv_fstep s s' : resp_inv s -> fstep s s' -> resp_inv s'.
Proof.
  intros Hinv Hst. destruct Hst as [s rid req fails Hfresh|s i s' Hc|s i s' Hf|s rs].
  - by apply resp_inv_record.
  - apply (resp_inv_perm s); [by eapply answered_complete|by eapply complete_seen|done].
  - apply (resp_inv_perm s); [by eapply answered_fail_write|by eapply fail_write_seen|done].
  - done.
Qed.

Lemma freachable_resp_inv db0 s : freachable db0 s -> resp_inv s.
Proof.
  unfold freachable. revert s. apply rtc_ind_r.
  - split; [constructor|by intros x Hx%elem_of_nil].
  - intros s1 s2 _ H12 Hinv. by apply (resp_inv_fstep s1).
Qed.

(** A failing call leaves the store as it was or as postAnswer leaves it. *)
Lemma post_answer_io_db fails db rq :
  fst (post_answer_io fails db rq) = db \/ fst (post_answer_io fails db rq) = fst (post_answer db rq).
Proof. destruct (post_answer_io_degrades fails db rq) as [-> | [-> | ->]]; auto. Qed.

Lemma run_answers_io_reliable db rqs : run_answers_io db (map (pair reliable) rqs) = run_answers db rqs.
Proof.
  revert db. induction rqs as [|rq rqs IH]; intros db; [done|].
  simpl. by rewrite post_answer_io_reliable, IH.
Qed.

(** A step of the reliable server is a step with no failure. *)
Lemma handle_io_reliable rs db req : handle_io reliable rs db req = handle rs db req.
Proof. unfold handle_io, handle. destruct (dispatch _ _); try done. apply post_answer_outcome_io_reliable. Qed.

(** With no failure the page's backend is the server's. *)
Lemma faulty_backend_reliable rs db path :
  respond (faulty_backend reliable rs db) path = respond (server_backend rs db) path.
Proof. simpl. by rewrite handle_io_reliable. Qed.

(** When the export query fails, the page shows 'Failed to fetch data'
    for any id but the empty one and keeps the data it had. *)
Lemma download_read_failure fails rs db st :
  fails QRead = true -> plain_id (questionnaireId st) = true -> questionnaireId st <> "" ->
  download_csv (faulty_backend fails rs db) st =
    mkHomeState (questionnaireId st) (data st) (Some "Failed to fetch data").
Proof.
  intros Hf Hp Hne. unfold download_csv, get_user_list. rewrite split_export_url by done.
  cbn [respond faulty_backend]. unfold handle_io. cbn [rmethod rpath].
  rewrite dispatch_export. unfold present. apply js_streq_false in Hne. rewrite Hne. simpl.
  unfold read_io. by rewrite Hf.
Qed.

Lemma step_fstep s s' : step s s' -> fstep s s'.
Proof.
  destruct 1 as [s rid req Hf|s i s' Hc|s rs].
  - unfold start. rewrite <- handle_io_reliable. by apply (fstep_request _ _ _ reliable).
  - by eapply fstep_complete.
  - constructor.
Qed.

Lemma settled_ids failing ps :
  map fst (flat_map (fun p => option_list (settled_reply (failing p) p)) ps) = map fst (replies ps).
Proof.
  induction ps as [|p ps IH]; [done|]. unfold replies in *. simpl.
  by rewrite !map_app, settled_reply_ids, IH.
Qed.

Lemma settled_detach b ops : flat_map (fun p => option_list (settled_reply (b p) p)) (map detach ops) = [].
Proof. by induction ops. Qed.

Lemma record_db s rid o : s_db (record_outcome s rid o) = s_db s.
Proof. by destruct o. Qed.

Lemma settle_all_failed_db s : s_db (settle (fun _ => true) s) = s_db s.
Proof. unfold settle. simpl. generalize (s_db s). induction (s_pending s); simpl; auto. Qed.

(** Settling is a run: each write in turn completes or fails. *)
Lemma rtc_settle failing s : rtc fstep s (settle failing s).
Proof.
  destruct s as [db rs seen ps out]. revert db out.
  induction ps as [|p ps IH]; intros db out.
  - unfold settle. simpl. rewrite app_nil_r. apply rtc_refl.
  - unfold settle in *. simpl in *. destruct (failing p) eqn:Hf.
    + eapply rtc_l; [eapply (fstep_fail _ 0); reflexivity|]. simpl.
      specialize (IH db (out ++ option_list (settled_reply true p))). by rewrite <- app_assoc in IH.
    + eapply rtc_l; [eapply (fstep_complete _ 0); reflexivity|]. simpl.
      specialize (IH (apply_op db (p_op p)) (out ++ option_list (p_reply p))).
      rewrite <- app_assoc in IH. by rewrite ?settled_reply_false.
Qed.

Lemma settle_none s : settle (fun _ => false) s = drained s.
Proof.
  unfold settle, drained, replies.
  assert (E : forall ps, flat_map (fun p => option_list (settled_reply false p)) ps =
                         flat_map (fun p => option_list (p_reply p)) ps).
  { intros ps. apply flat_map_ext. intros p. simpl. by rewrite ?settled_reply_false. }
  by rewrite E.
Qed.

(** resetall, and resetq of a stored questionnaire whose find succeeds,
    answer 200 at once and leave their deletes in flight. *)
Lemma handle_io_reset fails rs db qnid req :
  req = resetall_req \/
  (req = resetq_req qnid /\ present qnid = true /\ find_questionnaire db qnid <> [] /\ fails QResetFind = false) ->
  exists ops, ops <> [] /\ handle_io fails rs db req = Respond (mkResponse 200 (BStatus "OK")) ops.
Proof.
  intros [-> | (-> & Hp & Hq & Hf)].
  - eexists. split; [|reflexivity]. done.
  - unfold handle_io, resetq_req. simpl rmethod. simpl rpath. rewrite dispatch_resetq by done.
    unfold post_reset_q_io, post_reset_q. rewrite Hf. destruct (find_questionnaire db qnid); [done|].
    eexists. split; [|reflexivity]. done.
Qed.

(** The server listens only when both TLS files were read and the
    connection succeeded, and then from [Server.init]. *)
Lemma boot_listening k c db s : boot k c db = Listening s -> k = true /\ c = true /\ s = init db.
Proof. unfold boot. destruct k, c; simpl; intros H; inversion H; auto. Qed.

Lemma faulty_run_reachable : freachable db_a1 faulty_run.
Proof.
  unfold freachable, faulty_run. eapply rtc_l; [apply fstep_request, not_elem_of_nat; reflexivity|].
  eapply rtc_r; [apply rtc_settle|]. apply fstep_request, not_elem_of_nat. reflexivity.
Qed.

(** A request answered at once, its writes detached and settled. *)
Lemma settle_respond failing s rid r ops :
  s_pending s = [] -> s_out (settle failing (record_outcome s rid (Respond r ops))) = s_out s ++ [(rid, r)].
Proof. intros Hp. unfold settle. simpl. rewrite Hp. simpl. by rewrite settled_detach, app_nil_r. Qed.

(** A request waiting for a write that is rejected. *)
Lemma settle_after_failed s rid op r :
  s_pending s = [] ->
  s_out (settle (fun _ => true) (record_outcome s rid (AfterWrite op r))) = s_out s ++ [(rid, failed_write_response op)].
Proof. intros Hp. unfold settle. simpl. by rewrite Hp. Qed.

(** ** Properties *)

(** C2: when the option ids of a questionnaire are unique and the
    sessions' answers to it are walks of its flow graph, they remain walks
    after any sequence of submissions handled by postAnswer, whichever of
    its database calls and saves fail: every answer names an existing
    question and option, and every answer after a session's first follows
    the option the session recorded for an earlier question.  With no
    failure the sequence is [FlowSpec.run_answers]. *)
Theorem run_answers_io_flow_inv db qnid d rqs :
  sole_doc db qnid d -> unique_option_ids d = true -> flow_inv db qnid d ->
  flow_inv (run_answers_io db rqs) qnid d /\
  (forall rqs', run_answers_io db (map (pair reliable) rqs') = run_answers db rqs').
Proof.
  intros Hsole Huniq Hinv. split; [|apply run_answers_io_reliable].
  revert db Hsole Hinv. induction rqs as [|[f rq] rqs IH]; intros db Hsole Hinv; [done|].
  simpl. destruct (post_answer_io_db f db rq) as [-> | ->]; [by apply IH|].
  apply IH; [|by apply post_answer_flow_inv].
  unfold sole_doc. by rewrite post_answer_questionnaires.
Qed.

(** With no failure the fault-aware server is the server of
    [Server]: every handler gives the outcome [Server.handle] gives, and
    every state the server reaches is reached with failures allowed. *)
Lemma reliable_runs_refine :
  (forall rs db req, handle_io reliable rs db req = handle rs db req) /\
  (forall db0 s, reachable db0 s -> freachable db0 s).
Proof.
  split; [apply handle_io_reliable|].
  intros db0 s Hr. unfold freachable. induction Hr as [|s s' _ IH Hst]; [done|].
  eapply rtc_r; [done|]. by apply step_fstep.
Qed.

(** C13: a failing database call never makes a handler answer otherwise
    than over a reliable store: it answers as [Server.handle] does, or 500
    [{ error }] (a read, postAnswer's existence check), or, for resetq,
    500 [{ status: 'failed', reason }], writing nothing; only postAnswer
    can be left without a response (its nested queries). *)
Theorem handle_io_degrades fails rs db req :
  handle_io fails rs db req = handle rs db req \/
  handle_io fails rs db req = Respond (mkResponse 500 BError) [] \/
  (handle_io fails rs db req = Respond (mkResponse 500 (BStatusReason "failed" storage_error)) [] /\
   exists qnid, dispatch (rmethod req) (rpath req) = RResetQ qnid) \/
  (handle_io fails rs db req = NoResponse /\
   exists rq, dispatch (rmethod req) (rpath req) = RDoAnswer rq).
Proof.
  unfold handle_io, handle, post_reset_q_io, read_io.
  destruct (dispatch _ _) eqn:Hd; try (by left); try (destruct (fails _); auto; fail).
  - destruct (fails QResetFind); [|by left]. right; right; left. eauto.
  - destruct (post_answer_outcome_io_cases fails db rq) as [-> | [-> | ->]]; [by left|by right; left|].
    right; right; right. eauto.
Qed.

(** In every state reachable when any database call or write may
    fail, no request has received two responses and every response
    answers a request received. *)
Lemma faulty_responses_unique db0 s :
  freachable db0 s ->
  NoDup (map fst (s_out s)) /\ (forall rid, rid ∈ map fst (s_out s) -> rid ∈ s_seen s).
Proof. intros Hr. by apply resp_inv_out, (freachable_resp_inv db0). Qed.

(** Whichever writes in flight fail, they all settle by steps of the
    server, after which every request that waited for one of them has had
    exactly its one response, the promised one or the 500 of the failure;
    with no failure this is [Server.drained]. *)
Lemma writes_settle failing s :
  rtc fstep s (settle failing s) /\ s_pending (settle failing s) = [] /\
  map fst (s_out (settle failing s)) = map fst (s_out s ++ replies (s_pending s)) /\
  settle (fun _ => false) s = drained s.
Proof.
  split_and!; [apply rtc_settle|done| |apply settle_none].
  unfold settle. simpl. by rewrite !map_app, settled_ids.
Qed.

(** C15: resetall, and resetq of a stored questionnaire, answer 200
    [{ status: "OK" }] while their deletes are in flight; when the deletes
    fail, the client has its 200 "OK" and nothing was deleted (the
    specification asks a storage failure to be answered 500). *)
Theorem reset_ok_after_failed_deletes fails s rid qnid req :
  s_pending s = [] -> rid ∉ s_seen s ->
  req = resetall_req \/
  (req = resetq_req qnid /\ present qnid = true /\ find_questionnaire (s_db s) qnid <> [] /\
   fails QResetFind = false) ->
  let s1 := fstart fails s rid req in
  fstep s s1 /\ s_pending s1 <> [] /\ rtc fstep s1 (settle (fun _ => true) s1) /\
  s_db (settle (fun _ => true) s1) = s_db s /\
  s_out (settle (fun _ => true) s1) = s_out s ++ [(rid, mkResponse 200 (BStatus "OK"))].
Proof.
  intros Hp Hfresh Hreq s1.
  destruct (handle_io_reset fails (s_ready s) (s_db s) qnid req Hreq) as (ops & Hops & Hh).
  split_and!; [by apply fstep_request| | apply rtc_settle | rewrite settle_all_failed_db; apply record_db |].
  - unfold s1, fstart. rewrite Hh. simpl. rewrite Hp. simpl. by destruct ops.
  - unfold s1, fstart, settle. rewrite Hh. simpl. rewrite Hp. simpl. by rewrite settled_detach, app_nil_r.
Qed.

(** C14: the store out of reach: while the connection is not open every
    call and write is rejected, and then every request still gets exactly
    one response once its writes have settled, and nothing is written.
    The response is a 500 but for resetall, which answers 200 "OK", an
    unknown endpoint (404) and an upload with no file (422): the
    specification's StorageFailure as 500 holds everywhere else. *)
Theorem store_down_responses s rid req :
  rid ∉ s_seen s -> s_pending s = [] -> s_ready s <> 1 ->
  rtc fstep s (settle (fun _ => true) (fstart unreachable s rid req)) /\
  s_db (settle (fun _ => true) (fstart unreachable s rid req)) = s_db s /\
  exists r, s_out (settle (fun _ => true) (fstart unreachable s rid req)) = s_out s ++ [(rid, r)] /\
    status r = match dispatch (rmethod req) (rpath req) with
               | RResetAll => 200
               | RNotFound => 404
               | RQuestionnaireUpd => match rfile req with None => 422 | Some _ => 500 end
               | _ => 500
               end.
Proof.
  intros Hseen Hp Hrs. split_and!.
  - eapply rtc_l; [by apply fstep_request|apply rtc_settle].
  - by rewrite settle_all_failed_db; unfold fstart; rewrite record_db.
  - unfold fstart, handle_io.
    destruct (dispatch (rmethod req) (rpath req));
      cbn [post_reset_q_io post_answer_outcome_io decide_answer_io read_io unreachable];
      unfold post_reset_all.
    all: try (rewrite settle_respond by done; eexists; split; [reflexivity|]; simpl; done).
    + rewrite get_health_check_total, settle_respond by done. eexists; split; [reflexivity|].
      apply Nat.eqb_neq in Hrs. by rewrite Hrs.
    + destruct (rfile req) as [[ds|]|]; cbn [post_questionnaire_upd]; [destruct (forallb valid_questionnaire ds)| |];
        first [rewrite settle_after_failed by done | rewrite settle_respond by done]; by eexists.
Qed.

(** ** Witnesses *)

Lemma reset_ok_after_failed_deletes_witness :
  s_pending (init db_a1) = [] /\ (1 ∉ s_seen (init db_a1)) /\
  (resetall_req = resetall_req \/
   (resetall_req = resetq_req "QQ000" /\ present "QQ000" = true /\
    find_questionnaire (s_db (init db_a1)) "QQ000" <> [] /\ reliable QResetFind = false)) /\
  (let s1 := fstart reliable (init db_a1) 1 resetall_req in
   fstep (init db_a1) s1 /\ s_pending s1 <> [] /\ rtc fstep s1 (settle (fun _ => true) s1) /\
   s_db (settle (fun _ => true) s1) = s_db (init db_a1) /\
   s_out (settle (fun _ => true) s1) = s_out (init db_a1) ++ [(1, mkResponse 200 (BStatus "OK"))]).
Proof.
  assert (F : 1 ∉ s_seen (init db_a1)) by (apply not_elem_of_nat; reflexivity).
  split; [reflexivity|]. split; [exact F|]. split; [by left|].
  apply (reset_ok_after_failed_deletes reliable (init db_a1) 1 "QQ000" resetall_req); [reflexivity|exact F|by left].
Defined.

Lemma run_answers_io_flow_inv_witness :
  sole_doc (mkDB [qt] []) "QT" qt /\ unique_option_ids qt = true /\ flow_inv (mkDB [qt] []) "QT" qt /\
  flow_inv (run_answers_io (mkDB [qt] [])
              [(reliable, mkAnswerRequest "QT" "T1" "S" "T1A"); (fails_read, mkAnswerRequest "QT" "T2" "S" "T2A");
               (fun q => bool_decide (q = QSave), mkAnswerRequest "QT" "T2" "S" "T2A")]) "QT" qt /\
  (forall rqs', run_answers_io (mkDB [qt] []) (map (pair reliable) rqs') = run_answers (mkDB [qt] []) rqs').
Proof.
  assert (Hinv : flow_inv (mkDB [qt] []) "QT" qt) by (intros sess; reflexivity).
  split; [reflexivity|]. split; [reflexivity|]. split; [exact Hinv|].
  apply run_answers_io_flow_inv; [reflexivity|reflexivity|exact Hinv].
Defined.

Lemma store_down_responses_witness :
  (1 ∉ s_seen (set_ready (init db_a1) 0)) /\ s_pending (set_ready (init db_a1) 0) = [] /\
  s_ready (set_ready (init db_a1) 0) <> 1 /\
  rtc fstep (set_ready (init db_a1) 0)
    (settle (fun _ => true) (fstart unreachable (set_ready (init db_a1) 0) 1 (resetq_req "QQ000"))) /\
  s_db (settle (fun _ => true) (fstart unreachable (set_ready (init db_a1) 0) 1 (resetq_req "QQ000"))) = db_a1.
Proof.
  assert (F : 1 ∉ s_seen (set_ready (init db_a1) 0)) by (apply not_elem_of_nat; reflexivity).
  assert (R : s_ready (set_ready (init db_a1) 0) <> 1) by discriminate.
  destruct (store_down_responses (set_ready (init db_a1) 0) 1 (resetq_req "QQ000") F eq_refl R) as (H1 & H2 & _).
  split_and!; [exact F|reflexivity|exact R|exact H1|exact H2].
Defined.
